(** * posix-system-mcp: telemetry collectors and the HTTP adapter

    A shallow embedding of [main.go] (the collectors behind the seven tools)
    and of the HTTP adapter (ServeHTTP, handleMCPRequest, parseConfig).

    Conventions of the embedding
    - a Go [string] is a byte sequence: Rocq's [string];
    - Go's [int], [int32], [int64], [uint64] are [Z]; the two products the code
      computes are written with their 64-bit wrap-around;
    - [float64] and [float32] values are IEEE 754 data, [spec_float], compared
      with [SFltb] (so a NaN compares false both ways);
    - a Go call returning [(T, error)] whose value is dropped on error is a
      sum [T + error]; the operating system and the Go libraries answer
      through Section variables, but for the library code the statements
      rest on, which is written out: [sort.SliceStable], the ASCII path of
      [strings.ToLower], the header part of [http.Error] and what
      [json.Unmarshal] makes of a scanned request. *)

From Stdlib Require Import ZArith List String Ascii Bool Lia.
From Stdlib Require Import Sorted Permutation SpecFloat DecimalString.
Import ListNotations.

Local Open Scope string_scope.
Local Open Scope Z_scope.

(** ** Errors and results *)

(** [fmt.Errorf]: an error is its message. *)
Inductive error : Type := Errorf (msg : string).

Definition Error (e : error) : string := let (m) := e in m.

Definition result (A : Type) : Type := (A + error)%type.

(** [fmt.Errorf("...: %w", err)]. *)
Definition wrapf (prefix : string) (err : error) : error :=
  Errorf (prefix ++ Error err).

(** [%d] of an integer. *)
Definition fmt_d (z : Z) : string := NilZero.string_of_int (Z.to_int z).

(** Two's complement wrap-around of a 64-bit signed integer. *)
Definition wrap64 (z : Z) : Z := (z + 2 ^ 63) mod 2 ^ 64 - 2 ^ 63.

Definition float64 : Type := spec_float.
Definition float32 : Type := spec_float.

(** Go's [a > b] on floats. *)
Definition fgt (a b : spec_float) : bool := SFltb b a.

(** ** package strings *)

Module strings.

Definition isUpper (c : ascii) : bool :=
  ((65 <=? N_of_ascii c) && (N_of_ascii c <=? 90))%N.

(** [c += 'a' - 'A'] *)
Definition lowerByte (c : ascii) : ascii :=
  if isUpper c then ascii_of_N (N_of_ascii c + 32) else c.

(** No byte of [s] reaches [utf8.RuneSelf]. *)
Fixpoint isASCII (s : string) : bool :=
  match s with
  | EmptyString => true
  | String c s' => (N_of_ascii c <? 128)%N && isASCII s'
  end.

Fixpoint lowerASCII (s : string) : string :=
  match s with
  | EmptyString => EmptyString
  | String c s' => String (lowerByte c) (lowerASCII s')
  end.

Section ToLower.

(** [strings.Map(unicode.ToLower, s)], the table-driven path the library
    takes for a string that holds a byte outside ASCII. *)
Variable mapUnicodeLower : string -> string.

Definition ToLower (s : string) : string :=
  if isASCII s then lowerASCII s else mapUnicodeLower s.

End ToLower.

(** [strings.Contains(s, substr)] *)
Fixpoint Contains (s substr : string) : bool :=
  String.prefix substr s ||
  match s with
  | EmptyString => false
  | String _ s' => Contains s' substr
  end.

End strings.

(** ** package sort *)

Module sort.

Section SliceStable.

Local Open Scope nat_scope.
Local Open Scope list_scope.

Context {A : Type}.
Variable less : A -> A -> bool.

(** The inner loop of the library's [insertionSort_func],
    [for j := i; j > a && data.Less(j, j-1); j-- { data.Swap(j, j-1) }]:
    [x = data[i]] sinks into the sorted prefix, which is held reversed
    (its head is [data[i-1]]). *)
Fixpoint sink (x : A) (rprefix : list A) : list A :=
  match rprefix with
  | [] => [x]
  | y :: r => if less x y then y :: sink x r else x :: rprefix
  end.

(** The outer loop, [for i := a + 1; i < b; i++], on the block [data[a:b]]. *)
Definition insertionSort (data : list A) : list A :=
  rev (fold_left (fun rprefix x => sink x rprefix) data []).

(** [data.Less(i, j)] *)
Definition Less (data : list A) (i j : nat) : bool :=
  match nth_error data i, nth_error data j with
  | Some x, Some y => less x y
  | _, _ => false
  end.

(** [data[i:j]] *)
Definition slice (data : list A) (i j : nat) : list A :=
  firstn (j - i) (skipn i data).

(** The binary searches of [symMerge_func],
    [for i < j { h := int(uint(i+j) >> 1); if p(h) { i = h + 1 } else { j = h } }],
    which leave their result in [i]; [fuel] bounds the iterations, [j - i]
    of them suffice. *)
Fixpoint search (p : nat -> bool) (fuel i j : nat) : nat :=
  match fuel with
  | O => i
  | S fuel' =>
    if i <? j then
      let h := (i + j) / 2 in
      if p h then search p fuel' (h + 1) j else search p fuel' i h
    else i
  end.

(** [rotate_func(data, a, m, b)] "rotates two consecutive blocks
    u = data[a:m] and v = data[m:b] in data: data of the form 'x u v y' is
    changed to 'x v u y'" (by swapping ranges of equal length, which is not
    modelled). *)
Definition rotate (data : list A) (a m b : nat) : list A :=
  firstn a data ++ slice data m b ++ slice data a m ++ skipn b data.

(** [symMerge_func(data, a, m, b)] merges [data[a:m]] and [data[m:b]] in
    place and touches nothing else: here [data] is the slice [data[a:b]]
    and the indices count from [a], so [a] is 0, [b] is the length and
    [int(uint(a+b) >> 1)] is [b / 2]. The recursion is on strictly shorter
    slices; [fuel] is the length.
    - [m - a == 1]: the search, [if data.Less(h, a) { i = h + 1 } else
      { j = h }] from [i = m], [j = b], looks for the lowest [i] with
      [data[i] >= data[a]]; then [Swap(k, k+1)] for [k] from [a] to [i - 2]
      swaps "until data[a] reaches the position before i";
    - [b - m == 1]: the search, [if !data.Less(m, h) { i = h + 1 } else
      { j = h }] from [i = a], [j = m], looks for the lowest [i] with
      [data[i] > data[m]]; then [Swap(k, k-1)] for [k] from [m] down to
      [i + 1] swaps "until data[m] reaches the position i";
    - otherwise the search, [if !data.Less(p-c, c) { start = c + 1 } else
      { r = c }], cuts both blocks, [data[start:m]] and [data[m:end]] are
      rotated when neither is empty, and the two halves [data[a:mid]],
      [data[mid:b]] are merged apart, each when both its blocks are not
      empty. *)
Fixpoint symMerge (fuel : nat) (data : list A) (m : nat) : list A :=
  match fuel with
  | O => data
  | S fuel' =>
    let b := List.length data in
    if m =? 1 then
      let i := search (fun h => Less data h 0) (b - m) m b in
      slice data 1 i ++ slice data 0 1 ++ skipn i data
    else if b - m =? 1 then
      let i := search (fun h => negb (Less data m h)) m 0 m in
      firstn i data ++ slice data m b ++ slice data i m
    else
      let mid := b / 2 in
      let n := mid + m in
      let '(start, r) := if mid <? m then (n - b, mid) else (0, m) in
      let p := n - 1 in
      let start :=
        search (fun c => negb (Less data (p - c) c)) (r - start) start r in
      let end_ := n - start in
      let data :=
        if (start <? m) && (m <? end_) then rotate data start m end_ else data in
      let left := firstn mid data in
      let right := skipn mid data in
      let left :=
        if (0 <? start) && (start <? mid) then symMerge fuel' left start
        else left in
      let right :=
        if (mid <? end_) && (end_ <? b) then symMerge fuel' right (end_ - mid)
        else right in
      left ++ right
  end.

Definition symMerge_func (data : list A) (m : nat) : list A :=
  symMerge (List.length data) data m.

(** The first loop of [stable_func] and the call after it,
    [for b <= n { insertionSort_func(data, a, b); a = b; b += blockSize }]
    [insertionSort_func(data, a, n)]; [data] is what is left, [data[a:]]. *)
Fixpoint insertionSortBlocks (fuel blockSize : nat) (data : list A) : list A :=
  match fuel with
  | O => insertionSort data
  | S fuel' =>
    if blockSize <=? List.length data then
      insertionSort (firstn blockSize data)
      ++ insertionSortBlocks fuel' blockSize (skipn blockSize data)
    else insertionSort data
  end.

(** One pass of the second loop,
    [for b <= n { symMerge_func(data, a, a+blockSize, b); a = b; b += 2 * blockSize }]
    [if m := a + blockSize; m < n { symMerge_func(data, a, m, n) }];
    [data] is what is left, [data[a:]]. *)
Fixpoint mergeBlocks (fuel blockSize : nat) (data : list A) : list A :=
  match fuel with
  | O => data
  | S fuel' =>
    if 2 * blockSize <=? List.length data then
      symMerge_func (firstn (2 * blockSize) data) blockSize
      ++ mergeBlocks fuel' blockSize (skipn (2 * blockSize) data)
    else if blockSize <? List.length data then symMerge_func data blockSize
    else data
  end.

(** The second loop, [for blockSize < n { ...; blockSize *= 2 }]. *)
Fixpoint mergePasses (fuel blockSize : nat) (data : list A) : list A :=
  match fuel with
  | O => data
  | S fuel' =>
    if blockSize <? List.length data then
      mergePasses fuel' (2 * blockSize)
                  (mergeBlocks (List.length data) blockSize data)
    else data
  end.

(** [stable_func(data, n)]: insertion sort on blocks of 20 elements, then
    merge passes over blocks of 20, 40, 80, ... *)
Definition stable_func (data : list A) : list A :=
  let blockSize := 20 in
  mergePasses (List.length data) blockSize
    (insertionSortBlocks (List.length data) blockSize data).

(** [sort.SliceStable(x, less)] *)
Definition SliceStable (data : list A) : list A := stable_func data.

(** Neither of [x], [y] is [less] than the other. *)
Definition tied (x y : A) : bool := negb (less x y) && negb (less y x).

End SliceStable.

End sort.

(** ** package time *)

Module time.

(** A [time.Duration] counts nanoseconds in an [int64]. *)
Definition Duration : Type := Z.
Definition Millisecond : Duration := 1000000.
Definition Second : Duration := 1000000000.

End time.

(** ** gopsutil: what the collectors read *)

Module cpu.

Record InfoStat : Type := {
  ModelName : string;
  Family : string;
  Mhz : float64;
  CacheSize : Z;
  Flags : list string
}.

End cpu.

Module disk.

Record UsageStat : Type := {
  Fstype : string;
  Total : Z;
  Free : Z;
  Used : Z;
  UsedPercent : float64;
  InodesTotal : Z;
  InodesUsed : Z;
  InodesFree : Z
}.

Record PartitionStat : Type := {
  Device : string;
  Mountpoint : string;
  PFstype : string
}.

End disk.

Module net.

Record IOCountersStat : Type := {
  Name : string;
  BytesSent : Z;
  BytesRecv : Z;
  PacketsSent : Z;
  PacketsRecv : Z;
  Errin : Z;
  Errout : Z;
  Dropin : Z;
  Dropout : Z
}.

End net.

Module process.

Record MemoryInfoStat : Type := { RSS : Z; VMS : Z }.

(** A [*process.Process]: its pid and what each query on it answers, the
    value together with the error, as Go returns the pair. *)
Record Process : Type := {
  Pid : Z;
  NameWithContext : string * option error;
  StatusWithContext : list string * option error;
  CPUPercentWithContext : float64 * option error;
  MemoryInfoWithContext : option MemoryInfoStat * option error;
  MemoryPercentWithContext : float32 * option error;
  CreateTimeWithContext : Z * option error;
  NumThreadsWithContext : Z * option error;
  UsernameWithContext : string * option error;
  CmdlineWithContext : string * option error
}.

End process.

(** ** main.go: data types *)

Module CPUInfo.

Record t : Type := {
  Usage : list float64;
  Count : Z;
  PhysicalCount : Z;
  ModelName : string;
  Family : string;
  Speed : float64;
  CacheSize : Z;
  Flags : list string
}.

End CPUInfo.

Record DiskInfo : Type := {
  Device : string;
  Mountpoint : string;
  Fstype : string;
  Total : Z;
  Free : Z;
  Used : Z;
  UsedPercent : float64;
  InodesTotal : Z;
  InodesUsed : Z;
  InodesFree : Z
}.

Record NetworkInfo : Type := {
  Interface : string;
  BytesSent : Z;
  BytesRecv : Z;
  PacketsSent : Z;
  PacketsRecv : Z;
  Errin : Z;
  Errout : Z;
  Dropin : Z;
  Dropout : Z
}.

Record ProcessInfo : Type := {
  PID : Z;
  Name : string;
  Status : string;
  CPUPercent : float64;
  MemoryRSS : Z;
  MemoryVMS : Z;
  MemoryPercent : float32;
  CreateTime : Z;
  NumThreads : Z;
  Username : string;
  Cmdline : list string
}.

Record DiskInfoResult : Type := { Disks : list DiskInfo }.

Record NetworkInfoResult : Type := { Interfaces : list NetworkInfo }.

Record ProcessInfoResult : Type := {
  Processes : list ProcessInfo;
  Count : Z
}.

(** [len(x)] *)
Definition len {A : Type} (x : list A) : Z := Z.of_nat (List.length x).

(** ** main.go: the collectors *)

Section Collectors.

(** The Go libraries. *)
Variable mapUnicodeLower : string -> string.
Variable strings_Fields : string -> list string.
Variable runtime_NumCPU : Z.

(** The host, through gopsutil. *)
Variable cpu_PercentWithContext : time.Duration -> bool -> result (list float64).
Variable cpu_InfoWithContext : result (list cpu.InfoStat).
Variable cpu_Counts : bool -> result Z.
Variable disk_UsageWithContext : string -> result disk.UsageStat.
Variable disk_PartitionsWithContext : bool -> result (list disk.PartitionStat).
Variable net_IOCountersWithContext : bool -> result (list net.IOCountersStat).
Variable process_NewProcess : Z -> result process.Process.
Variable process_ProcessesWithContext : result (list process.Process).

(** The first block of [getCPUInfo]: the sampling window handed to
    [cpu.PercentWithContext]. *)
Definition getCPUInfo_interval (intervalMs : Z) : time.Duration :=
  let interval := time.Second in
  if intervalMs >? 0 then
    let intervalMs := if intervalMs <? 100 then 100 else intervalMs in
    let intervalMs := if intervalMs >? 10000 then 10000 else intervalMs in
    wrap64 (intervalMs * time.Millisecond)
  else interval.

Definition getCPUInfo (perCPU : bool) (intervalMs : Z) : result CPUInfo.t :=
  let interval := getCPUInfo_interval intervalMs in
  match (if perCPU then cpu_PercentWithContext interval true
         else cpu_PercentWithContext interval false) with
  | inr err => inr (wrapf "failed to get CPU usage: " err)
  | inl usage =>
    match cpu_InfoWithContext with
    | inr err => inr (wrapf "failed to get CPU info: " err)
    | inl info =>
      let logicalCount :=
        match cpu_Counts true with inl n => n | inr _ => runtime_NumCPU end in
      let physicalCount :=
        match cpu_Counts false with inl n => n | inr _ => logicalCount end in
      let '(modelName, family, speed, cacheSize, flags) :=
        match info with
        | i0 :: _ =>
          (cpu.ModelName i0, cpu.Family i0, cpu.Mhz i0, cpu.CacheSize i0,
           cpu.Flags i0)
        | [] => ("", "", S754_zero false, 0, [])
        end in
      inl {| CPUInfo.Usage := usage;
             CPUInfo.Count := logicalCount;
             CPUInfo.PhysicalCount := physicalCount;
             CPUInfo.ModelName := modelName;
             CPUInfo.Family := family;
             CPUInfo.Speed := speed;
             CPUInfo.CacheSize := cacheSize;
             CPUInfo.Flags := flags |}
    end
  end.

(** The [for _, p := range parts] loop of [getDiskInfo]. *)
Fixpoint getDiskInfo_range (parts : list disk.PartitionStat)
    (disks : list DiskInfo) : list DiskInfo :=
  match parts with
  | [] => disks
  | p :: parts' =>
    match disk_UsageWithContext (disk.Mountpoint p) with
    | inr _ => getDiskInfo_range parts' disks
    | inl u =>
      getDiskInfo_range parts'
        (disks ++ [ {| Device := disk.Device p;
                       Mountpoint := disk.Mountpoint p;
                       Fstype := disk.PFstype p;
                       Total := disk.Total u;
                       Free := disk.Free u;
                       Used := disk.Used u;
                       UsedPercent := disk.UsedPercent u;
                       InodesTotal := disk.InodesTotal u;
                       InodesUsed := disk.InodesUsed u;
                       InodesFree := disk.InodesFree u |} ])
    end
  end.

Definition getDiskInfo (path : string) : result DiskInfoResult :=
  if negb (String.eqb path "") then
    match disk_UsageWithContext path with
    | inr err => inr (wrapf ("failed to get disk usage for " ++ path ++ ": ") err)
    | inl u =>
      inl {| Disks := [ {| Device := "N/A";
                           Mountpoint := path;
                           Fstype := disk.Fstype u;
                           Total := disk.Total u;
                           Free := disk.Free u;
                           Used := disk.Used u;
                           UsedPercent := disk.UsedPercent u;
                           InodesTotal := disk.InodesTotal u;
                           InodesUsed := disk.InodesUsed u;
                           InodesFree := disk.InodesFree u |} ] |}
    end
  else
    match disk_PartitionsWithContext false with
    | inr err => inr (wrapf "failed to get disk partitions: " err)
    | inl parts => inl {| Disks := getDiskInfo_range parts [] |}
    end.

(** The [for _, s := range stats] loop of [getNetworkInfo]. *)
Fixpoint getNetworkInfo_range (stats : list net.IOCountersStat) (iface : string)
    (out : list NetworkInfo) : list NetworkInfo :=
  match stats with
  | [] => out
  | s :: stats' =>
    if negb (String.eqb iface "") && negb (String.eqb (net.Name s) iface) then
      getNetworkInfo_range stats' iface out
    else
      getNetworkInfo_range stats' iface
        (out ++ [ {| Interface := net.Name s;
                     BytesSent := net.BytesSent s;
                     BytesRecv := net.BytesRecv s;
                     PacketsSent := net.PacketsSent s;
                     PacketsRecv := net.PacketsRecv s;
                     Errin := net.Errin s;
                     Errout := net.Errout s;
                     Dropin := net.Dropin s;
                     Dropout := net.Dropout s |} ])
  end.

Definition getNetworkInfo (iface : string) : result NetworkInfoResult :=
  match net_IOCountersWithContext true with
  | inr err => inr (wrapf "failed to get network stats: " err)
  | inl stats => inl {| Interfaces := getNetworkInfo_range stats iface [] |}
  end.

(** Every query's error is dropped ([name, _ := ...]); the error returned is
    always [nil]. *)
Definition getProcessDetails (proc : process.Process) : result ProcessInfo :=
  let name := fst (process.NameWithContext proc) in
  let statusSlice := fst (process.StatusWithContext proc) in
  let cpuPercent := fst (process.CPUPercentWithContext proc) in
  let memInfo := fst (process.MemoryInfoWithContext proc) in
  let memPercent := fst (process.MemoryPercentWithContext proc) in
  let createTime := fst (process.CreateTimeWithContext proc) in
  let numThreads := fst (process.NumThreadsWithContext proc) in
  let username := fst (process.UsernameWithContext proc) in
  let cmdlineStr := fst (process.CmdlineWithContext proc) in
  let (memoryRSS, memoryVMS) :=
    match memInfo with
    | Some mi => (process.RSS mi, process.VMS mi)
    | None => (0, 0)
    end in
  let statusStr :=
    match statusSlice with
    | s0 :: _ => s0
    | [] => ""
    end in
  let cmdlineSlice :=
    if negb (String.eqb cmdlineStr "") then strings_Fields cmdlineStr else [] in
  inl {| PID := process.Pid proc;
         Name := name;
         Status := statusStr;
         CPUPercent := cpuPercent;
         MemoryRSS := memoryRSS;
         MemoryVMS := memoryVMS;
         MemoryPercent := memPercent;
         CreateTime := createTime;
         NumThreads := numThreads;
         Username := username;
         Cmdline := cmdlineSlice |}.

Definition sortProcessesBy (processes : list ProcessInfo) (sortBy : string)
    : list ProcessInfo :=
  let key := strings.ToLower mapUnicodeLower sortBy in
  if String.eqb key "memory" then
    sort.SliceStable (fun pi pj => fgt (MemoryPercent pi) (MemoryPercent pj)) processes
  else if String.eqb key "pid" then
    sort.SliceStable (fun pi pj => PID pi <? PID pj) processes
  else if String.eqb key "name" then
    sort.SliceStable (fun pi pj => String.ltb (Name pi) (Name pj)) processes
  else
    sort.SliceStable (fun pi pj => fgt (CPUPercent pi) (CPUPercent pj)) processes.

(** The first two statements of [getProcessInfo]. *)
Definition getProcessInfo_limit (limit : Z) : Z :=
  let limit := if limit <=? 0 then 10 else limit in
  if limit >? 200 then 200 else limit.

(** The [for _, p := range procs] loop of [getProcessInfo]; [lst] is the
    slice the source calls [list]. *)
Fixpoint getProcessInfo_range (procs : list process.Process) (name : string)
    (limit : Z) (lst : list ProcessInfo) : list ProcessInfo :=
  match procs with
  | [] => lst
  | p :: procs' =>
    match getProcessDetails p with
    | inr _ => getProcessInfo_range procs' name limit lst
    | inl info =>
      if negb (String.eqb name "")
         && negb (strings.Contains (strings.ToLower mapUnicodeLower (Name info))
                                  (strings.ToLower mapUnicodeLower name))
      then getProcessInfo_range procs' name limit lst
      else
        let lst := (lst ++ [info])%list in
        if len lst >=? wrap64 (limit * 2) then lst
        else getProcessInfo_range procs' name limit lst
    end
  end.

Definition getProcessInfo (pid : Z) (name : string) (limit : Z) (sortBy : string)
    : result ProcessInfoResult :=
  let limit := getProcessInfo_limit limit in
  let listed : result (list ProcessInfo) :=
    if pid >? 0 then
      match process_NewProcess pid with
      | inr err => inr (wrapf ("failed to get process " ++ fmt_d pid ++ ": ") err)
      | inl proc =>
        match getProcessDetails proc with
        | inr err => inr (wrapf "failed to get process details: " err)
        | inl info => inl [info]
        end
      end
    else
      match process_ProcessesWithContext with
      | inr err => inr (wrapf "failed to list processes: " err)
      | inl procs =>
        let lst := getProcessInfo_range procs name limit [] in
        let lst := sortProcessesBy lst sortBy in
        inl (if len lst >? limit then firstn (Z.to_nat limit) lst else lst)
      end in
  match listed with
  | inr err => inr err
  | inl lst => inl {| Processes := lst; Count := len lst |}
  end.

End Collectors.

(** ** The HTTP adapter: data types *)

Definition ServerName : string := "posix-system-mcp".
Definition Version : string := "1.0.0".

(** The values an [interface{}] holds in the adapter; [Nil] is the nil
    interface, which [omitempty] leaves out of the encoded object. *)
#[local] Unset Elimination Schemes.

Inductive any : Type :=
| Nil
| Bool (b : bool)
| Int (n : Z)
| Float64 (f : float64)
| Str (s : string)
| Slice (elems : list any)
| Map (fields : list (string * any)).

#[local] Set Elimination Schemes.

Definition isNil (v : any) : bool :=
  match v with Nil => true | _ => false end.

Record ServerConfig : Type := {
  RefreshInterval : Z;
  EnableDebug : bool
}.

(** [config] is a pointer in the source; it is only ever replaced whole. *)
Record HTTPServer : Type := { config : ServerConfig }.

Module MCPRequest.

Record t : Type := {
  JsonRPC : string;
  ID : any;
  Method : string;
  Params : any
}.

End MCPRequest.

Module MCPResponse.

Record t : Type := {
  JsonRPC : string;
  ID : any;
  Result : any;
  Error : any
}.

End MCPResponse.

Module http.

Definition StatusOK : Z := 200.
Definition StatusBadRequest : Z := 400.
Definition StatusMethodNotAllowed : Z := 405.

(** What the handlers read of a [*http.Request]: the method, the [config]
    query parameter (empty when absent) and what [io.ReadAll(r.Body)] gives. *)
Record Request : Type := {
  Method : string;
  Query_config : string;
  Body : result string
}.

(** What a handler writes: [w.WriteHeader(code)] alone, [http.Error(w, msg,
    code)] (the status [code] and the body [msg] followed by a newline), or
    [json.NewEncoder(w).Encode(response)] (with the status 200). *)
Inductive Written : Type :=
| WriteHeader (code : Z)
| Error (msg : string) (code : Z)
| EncodeJSON (response : MCPResponse.t).

(** The type [http.Header] of the header map [w.Header()], held as the list
    of its entries in the order their keys were first set. *)
Definition Headers : Type := list (string * string).

(** [h.Set(key, value)] *)
Fixpoint Header_Set (key value : string) (h : Headers) : Headers :=
  match h with
  | [] => [(key, value)]
  | (k, v) :: h' =>
    if String.eqb k key then (key, value) :: h'
    else (k, v) :: Header_Set key value h'
  end.

(** [h.Del(key)] *)
Definition Header_Del (key : string) (h : Headers) : Headers :=
  filter (fun entry => negb (String.eqb (fst entry) key)) h.

(** The header part of [http.Error]: before it writes the status it drops
    [Content-Length] (from Go 1.23 on; the adapter never sets one), resets
    [Content-Type] to plain text and sets [X-Content-Type-Options]. *)
Definition Error_header (h : Headers) : Headers :=
  Header_Set "X-Content-Type-Options" "nosniff"
    (Header_Set "Content-Type" "text/plain; charset=utf-8"
       (Header_Del "Content-Length" h)).

Record Response : Type := {
  Header : Headers;
  Out : Written
}.

End http.

Definition NewHTTPServer : HTTPServer :=
  {| config := {| RefreshInterval := 1000; EnableDebug := false |} |}.

Definition describe (name description : string) (extra : list (string * any)) : any :=
  Map ([("name", Str name); ("description", Str description)] ++ extra).

Definition property (name type description : string) : string * any :=
  (name, Map [("type", Str type); ("description", Str description)]).

Definition inputSchema (properties : list (string * any)) : list (string * any) :=
  [("inputSchema", Map [("type", Str "object"); ("properties", Map properties)])].

(** The [initialize] result. *)
Definition initializeResult : any :=
  Map [("protocolVersion", Str "2024-11-05");
       ("capabilities", Map [("tools", Map [])]);
       ("serverInfo", Map [("name", Str ServerName); ("version", Str Version)])].

(** The [tools/list] result. *)
Definition toolsListResult : any :=
  Map [("tools", Slice [
    describe "get_system_info"
      "Get comprehensive system information including hostname, OS, platform, uptime, etc." [];
    describe "get_cpu_info" "Get detailed CPU usage statistics and information"
      (inputSchema [
         property "per_cpu" "boolean" "Get per-CPU usage if true";
         property "interval_ms" "integer" "Sampling window in ms (100..10000)" ]);
    describe "get_memory_info" "Get memory usage information including RAM and swap" [];
    describe "get_disk_info"
      "Get disk usage information for all partitions or a specific path"
      (inputSchema [
         property "path" "string" "Specific path to check; if empty, all mounts" ]);
    describe "get_network_info" "Get network interface statistics and information"
      (inputSchema [
         property "interface" "string" "Specific interface to include" ]);
    describe "get_process_info"
      "Get information about running processes with filtering and sorting options"
      (inputSchema [
         property "pid" "integer" "Specific PID";
         property "name" "string" "Filter by name substring";
         property "limit" "integer" "Max results (1..200, default 10)";
         property "sort_by" "string" "Sort by: cpu|memory|pid|name" ]);
    describe "get_load_average"
      "Get system load average (1, 5, and 15 minute averages)" [] ])].

(** ** The HTTP adapter: handlers *)

Section Adapter.

(** [base64.StdEncoding.DecodeString] and [json.Unmarshal] at the two types
    the adapter decodes into. *)
Variable base64_DecodeString : string -> result string.
Variable json_Unmarshal_ServerConfig : string -> result ServerConfig.
Variable json_Unmarshal_MCPRequest : string -> result MCPRequest.t.

(** [handleToolCall]: the tool's collector run on the host and its record
    rendered by [fmt.Sprintf] with [%+v]; it answers a result and an error. *)
Variable handleToolCall : HTTPServer -> any -> any * option error.

(** The log lines, written only when [EnableDebug] is set, are not part of
    the model. *)
Definition parseConfig (h : HTTPServer) (configParam : string)
    : HTTPServer * option error :=
  match base64_DecodeString configParam with
  | inr err => (h, Some (wrapf "failed to decode config: " err))
  | inl decoded =>
    match json_Unmarshal_ServerConfig decoded with
    | inr err => (h, Some (wrapf "failed to unmarshal config: " err))
    | inl config0 =>
      let config1 :=
        if (RefreshInterval config0 <? 100) || (RefreshInterval config0 >? 10000)
        then {| RefreshInterval := 1000; EnableDebug := EnableDebug config0 |}
        else config0 in
      ({| config := config1 |}, None)
    end
  end.

Definition handleMCPRequest (h : HTTPServer) (r : http.Request) : http.Written :=
  if negb (String.eqb (http.Method r) "POST") then
    http.Error "Method not allowed" http.StatusMethodNotAllowed
  else
    match http.Body r with
    | inr _ => http.Error "Failed to read request body" http.StatusBadRequest
    | inl body =>
      match json_Unmarshal_MCPRequest body with
      | inr _ => http.Error "Invalid JSON" http.StatusBadRequest
      | inl req =>
        let '(result, mcpError) :=
          let method := MCPRequest.Method req in
          if String.eqb method "initialize" then (initializeResult, None)
          else if String.eqb method "tools/list" then (toolsListResult, None)
          else if String.eqb method "tools/call" then
            handleToolCall h (MCPRequest.Params req)
          else (Nil, Some (Errorf ("unknown method: " ++ method))) in
        let response :=
          match mcpError with
          | Some err =>
            {| MCPResponse.JsonRPC := "2.0";
               MCPResponse.ID := MCPRequest.ID req;
               MCPResponse.Result := Nil;
               MCPResponse.Error :=
                 Map [("code", Int (-32601)); ("message", Str (Error err))] |}
          | None =>
            {| MCPResponse.JsonRPC := "2.0";
               MCPResponse.ID := MCPRequest.ID req;
               MCPResponse.Result := result;
               MCPResponse.Error := Nil |}
          end in
        http.EncodeJSON response
      end
    end.

(** What [handleMCPRequest] leaves in the header map beside what it writes:
    [http.Error] sets its two headers, and the encoded response is
    announced by [w.Header().Set("Content-Type", "application/json")]. *)
Definition handleMCPRequest_header (out : http.Written) (header : http.Headers)
    : http.Headers :=
  match out with
  | http.WriteHeader _ => header
  | http.Error _ _ => http.Error_header header
  | http.EncodeJSON _ => http.Header_Set "Content-Type" "application/json" header
  end.

(** The headers set before anything else. *)
Definition corsHeaders : http.Headers :=
  [("Access-Control-Allow-Origin", "*");
   ("Access-Control-Allow-Credentials", "true");
   ("Access-Control-Allow-Methods", "GET, POST, OPTIONS");
   ("Access-Control-Allow-Headers", "*");
   ("Access-Control-Expose-Headers", "mcp-session-id, mcp-protocol-version")].

Definition ServeHTTP (h : HTTPServer) (r : http.Request)
    : HTTPServer * http.Response :=
  if String.eqb (http.Method r) "OPTIONS" then
    (h, {| http.Header := corsHeaders; http.Out := http.WriteHeader http.StatusOK |})
  else
    let h :=
      if negb (String.eqb (http.Query_config r) "")
      then fst (parseConfig h (http.Query_config r))
      else h in
    let out := handleMCPRequest h r in
    (h, {| http.Header := handleMCPRequest_header out corsHeaders;
           http.Out := out |}).

End Adapter.

(** ** strconv and encoding/json: what [json.Unmarshal] makes of a request *)

Module strconv.

(** A decimal number as it is written: the number
    [(-1) ^ negative * coefficient * 10 ^ exponent]. *)
Record Decimal : Type := {
  negative : bool;
  coefficient : N;
  exponent : Z
}.

(** [strconv.ParseFloat(s, 64)] on a well-formed decimal: the nearest
    [float64], ties to even; [None] is [ErrRange], for a number that rounds
    beyond the largest [float64]. A negative exponent is taken by a division
    to 1075 binary places with a sticky bit, which is exact enough to decide
    every rounding to a [float64]. *)
Definition ParseFloat (d : Decimal) : option float64 :=
  let m := Z.of_N (coefficient d) in
  let signed := fun z : Z => if negative d then - z else z in
  let f :=
    if m =? 0 then S754_zero (negative d)
    else if 0 <=? exponent d then
      binary_normalize 53 1024 (signed (m * 10 ^ exponent d)) 0 false
    else
      let scaled := m * 2 ^ 1075 in
      let power := 10 ^ (- exponent d) in
      let sticky := if scaled mod power =? 0 then 0 else 1 in
      binary_normalize 53 1024 (signed (2 * (scaled / power) + sticky)) (-1076)
                       false in
  match f with
  | S754_infinity _ => None
  | _ => Some f
  end.

End strconv.

Module json.

(** A JSON text that passed the scanner, as the value it denotes: strings
    unquoted, numbers as they are written, the members of an object in the
    order of the text. *)
#[local] Unset Elimination Schemes.

Inductive Value : Type :=
| Null
| Boolean (b : bool)
| Number (d : strconv.Decimal)
| Text (s : string)
| Array (elems : list Value)
| Object (members : list (string * Value)).

#[local] Set Elimination Schemes.

(** [m[key] = value] on the [map[string]interface{}] being built: a repeated
    key keeps its place and takes the later value. *)
Fixpoint assign (key : string) (value : any) (m : list (string * any))
    : list (string * any) :=
  match m with
  | [] => [(key, value)]
  | (k, old) :: m' =>
    if String.eqb k key then (k, value) :: m' else (k, old) :: assign key value m'
  end.

(** Decoding into an [interface{}]: [nil], [bool], [float64], [string],
    [[]interface{}], [map[string]interface{}]. [None] is the error
    [json.Unmarshal] returns in the end when a number is out of the range of
    [float64]. *)
Fixpoint valueInterface (v : Value) : option any :=
  match v with
  | Null => Some Nil
  | Boolean b => Some (Bool b)
  | Number d => option_map Float64 (strconv.ParseFloat d)
  | Text s => Some (Str s)
  | Array elems =>
    (fix arrayInterface (elems : list Value) (out : list any) : option any :=
       match elems with
       | [] => Some (Slice out)
       | e :: elems' =>
         match valueInterface e with
         | Some x => arrayInterface elems' (out ++ [x])%list
         | None => None
         end
       end) elems []
  | Object members =>
    (fix objectInterface (members : list (string * Value))
         (m : list (string * any)) : option any :=
       match members with
       | [] => Some (Map m)
       | (key, e) :: members' =>
         match valueInterface e with
         | Some x => objectInterface members' (assign key x m)
         | None => None
         end
       end) members []
  end.

Definition isLower (c : ascii) : bool :=
  ((97 <=? N_of_ascii c) && (N_of_ascii c <=? 122))%N.

(** [foldName]: how a member's key is compared with the names of the struct
    fields. ASCII letters fold to upper case; of the runes outside ASCII only
    U+017F (bytes C5 BF) and U+212A (bytes E2 84 AA) fold to an ASCII letter,
    [S] and [K]; the bytes of any other rune are kept, they equal no letter
    of a field name. *)
Fixpoint foldName (key : string) : string :=
  match key with
  | EmptyString => EmptyString
  | String c rest =>
    if isLower c then String (ascii_of_N (N_of_ascii c - 32)) (foldName rest)
    else
      match N_of_ascii c, rest with
      | 197%N, String c1 rest1 =>
        if (N_of_ascii c1 =? 191)%N then String "S" (foldName rest1)
        else String c (foldName rest)
      | 226%N, String c1 (String c2 rest2) =>
        if ((N_of_ascii c1 =? 132) && (N_of_ascii c2 =? 170))%N
        then String "K" (foldName rest2)
        else String c (foldName rest)
      | _, _ => String c (foldName rest)
      end
  end.

(** Decoding into a [string] field: a JSON string is stored, [null] leaves
    the field as it is, anything else is an [*UnmarshalTypeError]. *)
Definition stringField (v : Value) (old : string) : option string :=
  match v with
  | Text s => Some s
  | Null => Some old
  | _ => None
  end.

(** One member of the object decoded into [req]: into the field whose name
    (the tags [jsonrpc], [id], [method], [params]) its key folds to, nowhere
    when there is none. *)
Definition member (key : string) (v : Value) (req : MCPRequest.t)
    : option MCPRequest.t :=
  let name := foldName key in
  if String.eqb name "JSONRPC" then
    option_map
      (fun s => {| MCPRequest.JsonRPC := s; MCPRequest.ID := MCPRequest.ID req;
                   MCPRequest.Method := MCPRequest.Method req;
                   MCPRequest.Params := MCPRequest.Params req |})
      (stringField v (MCPRequest.JsonRPC req))
  else if String.eqb name "ID" then
    option_map
      (fun x => {| MCPRequest.JsonRPC := MCPRequest.JsonRPC req; MCPRequest.ID := x;
                   MCPRequest.Method := MCPRequest.Method req;
                   MCPRequest.Params := MCPRequest.Params req |})
      (valueInterface v)
  else if String.eqb name "METHOD" then
    option_map
      (fun s => {| MCPRequest.JsonRPC := MCPRequest.JsonRPC req;
                   MCPRequest.ID := MCPRequest.ID req; MCPRequest.Method := s;
                   MCPRequest.Params := MCPRequest.Params req |})
      (stringField v (MCPRequest.Method req))
  else if String.eqb name "PARAMS" then
    option_map
      (fun x => {| MCPRequest.JsonRPC := MCPRequest.JsonRPC req;
                   MCPRequest.ID := MCPRequest.ID req;
                   MCPRequest.Method := MCPRequest.Method req;
                   MCPRequest.Params := x |})
      (valueInterface v)
  else Some req.

(** The members of an object, decoded one after the other. *)
Fixpoint object (members : list (string * Value)) (req : MCPRequest.t)
    : option MCPRequest.t :=
  match members with
  | [] => Some req
  | (key, v) :: members' =>
    match member key v req with
    | Some req' => object members' req'
    | None => None
    end
  end.

(** [var req MCPRequest] *)
Definition zeroRequest : MCPRequest.t :=
  {| MCPRequest.JsonRPC := ""; MCPRequest.ID := Nil;
     MCPRequest.Method := ""; MCPRequest.Params := Nil |}.

(** Decoding a value into [req]: an object by its members, [null] leaves
    [req] as it is, any other value is an [*UnmarshalTypeError]. *)
Definition decodeRequest (v : Value) : option MCPRequest.t :=
  match v with
  | Null => Some zeroRequest
  | Object members => object members zeroRequest
  | _ => None
  end.

(** The [*UnmarshalTypeError]; its message, which names the value and the Go
    type, is read nowhere in the adapter. *)
Definition UnmarshalTypeError : error := Errorf "json: cannot unmarshal".

Section Unmarshal.

(** The scanner: the value a text denotes, or the [*SyntaxError]. *)
Variable scan : string -> result Value.

(** [json.Unmarshal(body, &req)] with [req] an [MCPRequest]. *)
Definition Unmarshal (body : string) : result MCPRequest.t :=
  match scan body with
  | inr err => inr err
  | inl v =>
    match decodeRequest v with
    | Some req => inl req
    | None => inr UnmarshalTypeError
    end
  end.

End Unmarshal.

End json.

(** ** gopsutil: host, memory and load *)

Module host.

Record InfoStat : Type := {
  Hostname : string;
  OS : string;
  Platform : string;
  PlatformFamily : string;
  PlatformVersion : string;
  KernelVersion : string;
  KernelArch : string;
  Uptime : Z;
  BootTime : Z;
  Procs : Z;
  HostID : string;
  VirtualizationSystem : string;
  VirtualizationRole : string
}.

Record TemperatureStat : Type := {
  SensorKey : string;
  Temperature : float64
}.

End host.

Module mem.

Module VirtualMemoryStat.

Record t : Type := {
  Total : Z;
  Available : Z;
  Used : Z;
  UsedPercent : float64;
  Free : Z;
  Buffers : Z;
  Cached : Z
}.

End VirtualMemoryStat.

Module SwapMemoryStat.

Record t : Type := {
  Total : Z;
  Used : Z;
  Free : Z
}.

End SwapMemoryStat.

End mem.

Module load.

Record AvgStat : Type := {
  Load1 : float64;
  Load5 : float64;
  Load15 : float64
}.

End load.

(** ** main.go: the remaining data types *)

Module TemperatureStat.

Record t : Type := {
  SensorKey : string;
  Temperature : float64
}.

End TemperatureStat.

Module SystemInfo.

Record t : Type := {
  Hostname : string;
  OS : string;
  Platform : string;
  PlatformFamily : string;
  PlatformVersion : string;
  KernelVersion : string;
  KernelArch : string;
  Uptime : Z;
  BootTime : Z;
  Procs : Z;
  HostID : string;
  VirtualizationSystem : string;
  VirtualizationRole : string;
  Temperature : list TemperatureStat.t
}.

End SystemInfo.

Module MemoryInfo.

Record t : Type := {
  Total : Z;
  Available : Z;
  Used : Z;
  UsedPercent : float64;
  Free : Z;
  Buffers : Z;
  Cached : Z;
  SwapTotal : Z;
  SwapUsed : Z;
  SwapFree : Z
}.

End MemoryInfo.

Record LoadAvgResult : Type := {
  Load1 : float64;
  Load5 : float64;
  Load15 : float64
}.

(** The zero records, [T{}], that a collector returns beside an error. *)
Definition zeroSystemInfo : SystemInfo.t :=
  {| SystemInfo.Hostname := ""; SystemInfo.OS := ""; SystemInfo.Platform := "";
     SystemInfo.PlatformFamily := ""; SystemInfo.PlatformVersion := "";
     SystemInfo.KernelVersion := ""; SystemInfo.KernelArch := "";
     SystemInfo.Uptime := 0; SystemInfo.BootTime := 0; SystemInfo.Procs := 0;
     SystemInfo.HostID := ""; SystemInfo.VirtualizationSystem := "";
     SystemInfo.VirtualizationRole := ""; SystemInfo.Temperature := [] |}.

Definition zeroCPUInfo : CPUInfo.t :=
  {| CPUInfo.Usage := []; CPUInfo.Count := 0; CPUInfo.PhysicalCount := 0;
     CPUInfo.ModelName := ""; CPUInfo.Family := "";
     CPUInfo.Speed := S754_zero false; CPUInfo.CacheSize := 0;
     CPUInfo.Flags := [] |}.

Definition zeroMemoryInfo : MemoryInfo.t :=
  {| MemoryInfo.Total := 0; MemoryInfo.Available := 0; MemoryInfo.Used := 0;
     MemoryInfo.UsedPercent := S754_zero false; MemoryInfo.Free := 0;
     MemoryInfo.Buffers := 0; MemoryInfo.Cached := 0; MemoryInfo.SwapTotal := 0;
     MemoryInfo.SwapUsed := 0; MemoryInfo.SwapFree := 0 |}.

Definition zeroDiskInfoResult : DiskInfoResult := {| Disks := [] |}.

Definition zeroNetworkInfoResult : NetworkInfoResult := {| Interfaces := [] |}.

Definition zeroProcessInfoResult : ProcessInfoResult :=
  {| Processes := []; Count := 0 |}.

Definition zeroLoadAvgResult : LoadAvgResult :=
  {| Load1 := S754_zero false; Load5 := S754_zero false;
     Load15 := S754_zero false |}.

(** ** main.go: the collectors without arguments *)

Section PlainCollectors.

Variable host_InfoWithContext : result host.InfoStat.
(** [host.SensorsTemperatures()] answers a list beside a possible error. *)
Variable host_SensorsTemperatures : list host.TemperatureStat * option error.
Variable mem_VirtualMemoryWithContext : result mem.VirtualMemoryStat.t.
Variable mem_SwapMemoryWithContext : result mem.SwapMemoryStat.t.
Variable load_AvgWithContext : result load.AvgStat.

Definition getSystemInfo : result SystemInfo.t :=
  match host_InfoWithContext with
  | inr err => inr (wrapf "failed to get host info: " err)
  | inl hostInfo =>
    let temps := fst host_SensorsTemperatures in
    let tempStats :=
      map (fun t => {| TemperatureStat.SensorKey := host.SensorKey t;
                       TemperatureStat.Temperature := host.Temperature t |})
          temps in
    inl {| SystemInfo.Hostname := host.Hostname hostInfo;
           SystemInfo.OS := host.OS hostInfo;
           SystemInfo.Platform := host.Platform hostInfo;
           SystemInfo.PlatformFamily := host.PlatformFamily hostInfo;
           SystemInfo.PlatformVersion := host.PlatformVersion hostInfo;
           SystemInfo.KernelVersion := host.KernelVersion hostInfo;
           SystemInfo.KernelArch := host.KernelArch hostInfo;
           SystemInfo.Uptime := host.Uptime hostInfo;
           SystemInfo.BootTime := host.BootTime hostInfo;
           SystemInfo.Procs := host.Procs hostInfo;
           SystemInfo.HostID := host.HostID hostInfo;
           SystemInfo.VirtualizationSystem := host.VirtualizationSystem hostInfo;
           SystemInfo.VirtualizationRole := host.VirtualizationRole hostInfo;
           SystemInfo.Temperature := tempStats |}
  end.

Definition getMemoryInfo : result MemoryInfo.t :=
  match mem_VirtualMemoryWithContext with
  | inr err => inr (wrapf "failed to get virtual memory: " err)
  | inl vm =>
    match mem_SwapMemoryWithContext with
    | inr err => inr (wrapf "failed to get swap memory: " err)
    | inl sw =>
      inl {| MemoryInfo.Total := mem.VirtualMemoryStat.Total vm;
             MemoryInfo.Available := mem.VirtualMemoryStat.Available vm;
             MemoryInfo.Used := mem.VirtualMemoryStat.Used vm;
             MemoryInfo.UsedPercent := mem.VirtualMemoryStat.UsedPercent vm;
             MemoryInfo.Free := mem.VirtualMemoryStat.Free vm;
             MemoryInfo.Buffers := mem.VirtualMemoryStat.Buffers vm;
             MemoryInfo.Cached := mem.VirtualMemoryStat.Cached vm;
             MemoryInfo.SwapTotal := mem.SwapMemoryStat.Total sw;
             MemoryInfo.SwapUsed := mem.SwapMemoryStat.Used sw;
             MemoryInfo.SwapFree := mem.SwapMemoryStat.Free sw |}
    end
  end.

Definition getLoadAverage : result LoadAvgResult :=
  match load_AvgWithContext with
  | inr err => inr (wrapf "failed to get load average: " err)
  | inl l =>
    inl {| Load1 := load.Load1 l; Load5 := load.Load5 l; Load15 := load.Load15 l |}
  end.

End PlainCollectors.

(** ** The HTTP adapter: tool calls *)

(** Everything a tool call reaches outside the repository: the Go
    libraries, the host behind gopsutil, [fmt.Sprintf] with [%+v] at the
    seven result types, and what a conversion to an integer gives for a
    float that the integer type cannot hold (left to the platform by Go). *)
Module Host.

Record t : Type := {
  mapUnicodeLower : string -> string;
  strings_Fields : string -> list string;
  runtime_NumCPU : Z;
  cpu_PercentWithContext : time.Duration -> bool -> result (list float64);
  cpu_InfoWithContext : result (list cpu.InfoStat);
  cpu_Counts : bool -> result Z;
  disk_UsageWithContext : string -> result disk.UsageStat;
  disk_PartitionsWithContext : bool -> result (list disk.PartitionStat);
  net_IOCountersWithContext : bool -> result (list net.IOCountersStat);
  process_NewProcess : Z -> result process.Process;
  process_ProcessesWithContext : result (list process.Process);
  host_InfoWithContext : result host.InfoStat;
  host_SensorsTemperatures : list host.TemperatureStat * option error;
  mem_VirtualMemoryWithContext : result mem.VirtualMemoryStat.t;
  mem_SwapMemoryWithContext : result mem.SwapMemoryStat.t;
  load_AvgWithContext : result load.AvgStat;
  Sprintf_SystemInfo : SystemInfo.t -> string;
  Sprintf_CPUInfo : CPUInfo.t -> string;
  Sprintf_MemoryInfo : MemoryInfo.t -> string;
  Sprintf_DiskInfoResult : DiskInfoResult -> string;
  Sprintf_NetworkInfoResult : NetworkInfoResult -> string;
  Sprintf_ProcessInfoResult : ProcessInfoResult -> string;
  Sprintf_LoadAvgResult : LoadAvgResult -> string;
  int_unrepresentable : float64 -> Z;
  int32_unrepresentable : float64 -> Z
}.

End Host.

(** The integer part of a float that has one: the fraction is discarded. *)
Definition truncate (f : spec_float) : option Z :=
  match f with
  | S754_zero _ => Some 0
  | S754_finite s m e =>
    let magnitude := if 0 <=? e then Z.pos m * 2 ^ e else Z.pos m / 2 ^ (- e) in
    Some (if s then - magnitude else magnitude)
  | S754_infinity _ => None
  | S754_nan => None
  end.

(** [int(val)] of a [float64]. *)
Definition int_of_float64 (unrepresentable : float64 -> Z) (val : float64) : Z :=
  match truncate val with
  | Some z => if (- 2 ^ 63 <=? z) && (z <? 2 ^ 63) then z else unrepresentable val
  | None => unrepresentable val
  end.

(** [int32(val)] of a [float64]. *)
Definition int32_of_float64 (unrepresentable : float64 -> Z) (val : float64) : Z :=
  match truncate val with
  | Some z => if (- 2 ^ 31 <=? z) && (z <? 2 ^ 31) then z else unrepresentable val
  | None => unrepresentable val
  end.

(** [m[key]] on a [map[string]interface{}]: the nil interface when the key
    is missing. The map is held as its list of entries (a Go map has one
    entry per key; the first entry for a key is the one read). *)
Fixpoint index (m : list (string * any)) (key : string) : any :=
  match m with
  | [] => Nil
  | (k, v) :: m' => if String.eqb k key then v else index m' key
  end.

(** [map[string]interface{}{"content": []map[string]interface{}{{"type":
    "text", "text": text}}}] *)
Definition textContent (text : string) : any :=
  Map [("content", Slice [Map [("type", Str "text"); ("text", Str text)]])].

(** [return map...{... fmt.Sprintf("%+v", result) ...}, err], where [result]
    is the zero record whenever [err] is set. *)
Definition toolReturn {T : Type} (sprintf : T -> string) (zero : T)
    (collected : result T) : any * option error :=
  match collected with
  | inl result => (textContent (sprintf result), None)
  | inr err => (textContent (sprintf zero), Some err)
  end.

Section ToolCalls.

Variable w : Host.t.

(** The debug log line is not part of the model, so [h] is not read. *)
Definition handleToolCall (h : HTTPServer) (params : any) : any * option error :=
  match params with
  | Map paramsMap =>
    match index paramsMap "name" with
    | Str toolName =>
      let arguments : option (list (string * any)) :=
        match index paramsMap "arguments" with
        | Map argsMap => Some argsMap
        | _ => None
        end in
      if String.eqb toolName "get_system_info" then
        toolReturn (Host.Sprintf_SystemInfo w) zeroSystemInfo
          (getSystemInfo (Host.host_InfoWithContext w)
                         (Host.host_SensorsTemperatures w))
      else if String.eqb toolName "get_cpu_info" then
        let perCPU :=
          match arguments with
          | Some args =>
            match index args "per_cpu" with Bool val => val | _ => false end
          | None => false
          end in
        let intervalMs :=
          match arguments with
          | Some args =>
            match index args "interval_ms" with
            | Float64 val => int_of_float64 (Host.int_unrepresentable w) val
            | _ => 1000
            end
          | None => 1000
          end in
        toolReturn (Host.Sprintf_CPUInfo w) zeroCPUInfo
          (getCPUInfo (Host.runtime_NumCPU w) (Host.cpu_PercentWithContext w)
                      (Host.cpu_InfoWithContext w) (Host.cpu_Counts w)
                      perCPU intervalMs)
      else if String.eqb toolName "get_memory_info" then
        toolReturn (Host.Sprintf_MemoryInfo w) zeroMemoryInfo
          (getMemoryInfo (Host.mem_VirtualMemoryWithContext w)
                         (Host.mem_SwapMemoryWithContext w))
      else if String.eqb toolName "get_disk_info" then
        let path :=
          match arguments with
          | Some args =>
            match index args "path" with Str val => val | _ => "" end
          | None => ""
          end in
        toolReturn (Host.Sprintf_DiskInfoResult w) zeroDiskInfoResult
          (getDiskInfo (Host.disk_UsageWithContext w)
                       (Host.disk_PartitionsWithContext w) path)
      else if String.eqb toolName "get_network_info" then
        let iface :=
          match arguments with
          | Some args =>
            match index args "interface" with Str val => val | _ => "" end
          | None => ""
          end in
        toolReturn (Host.Sprintf_NetworkInfoResult w) zeroNetworkInfoResult
          (getNetworkInfo (Host.net_IOCountersWithContext w) iface)
      else if String.eqb toolName "get_process_info" then
        let pid :=
          match arguments with
          | Some args =>
            match index args "pid" with
            | Float64 val => int32_of_float64 (Host.int32_unrepresentable w) val
            | _ => 0
            end
          | None => 0
          end in
        let name :=
          match arguments with
          | Some args =>
            match index args "name" with Str val => val | _ => "" end
          | None => ""
          end in
        let limit :=
          match arguments with
          | Some args =>
            match index args "limit" with
            | Float64 val => int_of_float64 (Host.int_unrepresentable w) val
            | _ => 10
            end
          | None => 10
          end in
        let sortBy :=
          match arguments with
          | Some args =>
            match index args "sort_by" with Str val => val | _ => "" end
          | None => ""
          end in
        toolReturn (Host.Sprintf_ProcessInfoResult w) zeroProcessInfoResult
          (getProcessInfo (Host.mapUnicodeLower w) (Host.strings_Fields w)
                          (Host.process_NewProcess w)
                          (Host.process_ProcessesWithContext w)
                          pid name limit sortBy)
      else if String.eqb toolName "get_load_average" then
        toolReturn (Host.Sprintf_LoadAvgResult w) zeroLoadAvgResult
          (getLoadAverage (Host.load_AvgWithContext w))
      else (Nil, Some (Errorf ("unknown tool: " ++ toolName)))
    | _ => (Nil, Some (Errorf "missing tool name"))
    end
  | _ => (Nil, Some (Errorf "invalid params format"))
  end.

End ToolCalls.

(** ** main.go: the tools of the standard-stream transport *)

Module mcp.

Record TextContent : Type := { Text : string }.

Record CallToolResult : Type := { Content : list TextContent }.

End mcp.

Module CPUInfoArgs.

Record t : Type := { PerCPU : bool; IntervalMs : Z }.

End CPUInfoArgs.

Module DiskInfoArgs.

Record t : Type := { Path : string }.

End DiskInfoArgs.

Module NetworkInfoArgs.

Record t : Type := { Interface : string }.

End NetworkInfoArgs.

Module ProcessInfoArgs.

Record t : Type := { PID : Z; Name : string; Limit : Z; SortBy : string }.

End ProcessInfoArgs.

Definition textOK (msg : string) : mcp.CallToolResult :=
  {| mcp.Content := [ {| mcp.Text := msg |} ] |}.

Definition textErr (err : error) : mcp.CallToolResult :=
  {| mcp.Content := [ {| mcp.Text := "Error: " ++ Error err |} ] |}.

(** The name and description each [mcp.AddTool] of [registerTools] gives. *)
Definition registerTools : list (string * string) :=
  [ ("get_system_info",
     "Get comprehensive system information including hostname, OS, platform, uptime, etc.");
    ("get_cpu_info", "Get detailed CPU usage statistics and information");
    ("get_memory_info", "Get memory usage information including RAM and swap");
    ("get_disk_info",
     "Get disk usage information for all partitions or a specific path");
    ("get_network_info", "Get network interface statistics and information");
    ("get_process_info",
     "Get information about running processes with filtering and sorting options");
    ("get_load_average",
     "Get system load average (1, 5, and 15 minute averages)") ].

Section Tools.

Variable w : Host.t.

(** The handlers [registerTools] adds, one per tool: the status text, the
    structured output (nil beside an error) and the error. *)
Definition tool_get_system_info
    : mcp.CallToolResult * option SystemInfo.t * option error :=
  match getSystemInfo (Host.host_InfoWithContext w)
                      (Host.host_SensorsTemperatures w) with
  | inr err => (textErr err, None, Some err)
  | inl out => (textOK "System information retrieved", Some out, None)
  end.

Definition tool_get_cpu_info (a : CPUInfoArgs.t)
    : mcp.CallToolResult * option CPUInfo.t * option error :=
  match getCPUInfo (Host.runtime_NumCPU w) (Host.cpu_PercentWithContext w)
                   (Host.cpu_InfoWithContext w) (Host.cpu_Counts w)
                   (CPUInfoArgs.PerCPU a) (CPUInfoArgs.IntervalMs a) with
  | inr err => (textErr err, None, Some err)
  | inl out => (textOK "CPU information retrieved", Some out, None)
  end.

Definition tool_get_memory_info
    : mcp.CallToolResult * option MemoryInfo.t * option error :=
  match getMemoryInfo (Host.mem_VirtualMemoryWithContext w)
                      (Host.mem_SwapMemoryWithContext w) with
  | inr err => (textErr err, None, Some err)
  | inl out => (textOK "Memory information retrieved", Some out, None)
  end.

Definition tool_get_disk_info (a : DiskInfoArgs.t)
    : mcp.CallToolResult * option DiskInfoResult * option error :=
  match getDiskInfo (Host.disk_UsageWithContext w)
                    (Host.disk_PartitionsWithContext w) (DiskInfoArgs.Path a) with
  | inr err => (textErr err, None, Some err)
  | inl out => (textOK "Disk information retrieved", Some out, None)
  end.

Definition tool_get_network_info (a : NetworkInfoArgs.t)
    : mcp.CallToolResult * option NetworkInfoResult * option error :=
  match getNetworkInfo (Host.net_IOCountersWithContext w)
                       (NetworkInfoArgs.Interface a) with
  | inr err => (textErr err, None, Some err)
  | inl out => (textOK "Network information retrieved", Some out, None)
  end.

Definition tool_get_process_info (a : ProcessInfoArgs.t)
    : mcp.CallToolResult * option ProcessInfoResult * option error :=
  match getProcessInfo (Host.mapUnicodeLower w) (Host.strings_Fields w)
                       (Host.process_NewProcess w)
                       (Host.process_ProcessesWithContext w)
                       (ProcessInfoArgs.PID a) (ProcessInfoArgs.Name a)
                       (ProcessInfoArgs.Limit a) (ProcessInfoArgs.SortBy a) with
  | inr err => (textErr err, None, Some err)
  | inl out => (textOK "Process information retrieved", Some out, None)
  end.

Definition tool_get_load_average
    : mcp.CallToolResult * option LoadAvgResult * option error :=
  match getLoadAverage (Host.load_AvgWithContext w) with
  | inr err => (textErr err, None, Some err)
  | inl out => (textOK "Load average retrieved", Some out, None)
  end.

End Tools.

(** ** Vocabulary of the statements *)

(** [x] brought into [[lo, hi]]: a value outside goes to the nearest bound. *)
Definition clamp (lo hi x : Z) : Z := Z.max lo (Z.min hi x).

(** A call answered without error. *)
Definition succeeded {A : Type} (r : result A) : bool :=
  match r with inl _ => true | inr _ => false end.

(** The record [getDiskInfo] appends for partition [p] with usage [u]. *)
Definition partitionRecord (p : disk.PartitionStat) (u : disk.UsageStat) : DiskInfo :=
  {| Device := disk.Device p;
     Mountpoint := disk.Mountpoint p;
     Fstype := disk.PFstype p;
     Total := disk.Total u;
     Free := disk.Free u;
     Used := disk.Used u;
     UsedPercent := disk.UsedPercent u;
     InodesTotal := disk.InodesTotal u;
     InodesUsed := disk.InodesUsed u;
     InodesFree := disk.InodesFree u |}.

(** The record [getNetworkInfo] appends for the counters [s]. *)
Definition interfaceRecord (s : net.IOCountersStat) : NetworkInfo :=
  {| Interface := net.Name s;
     BytesSent := net.BytesSent s;
     BytesRecv := net.BytesRecv s;
     PacketsSent := net.PacketsSent s;
     PacketsRecv := net.PacketsRecv s;
     Errin := net.Errin s;
     Errout := net.Errout s;
     Dropin := net.Dropin s;
     Dropout := net.Dropout s |}.

(** The partitions whose usage query succeeds, each with the usage answered. *)
Fixpoint measured (usage : string -> result disk.UsageStat)
    (parts : list disk.PartitionStat) : list (disk.PartitionStat * disk.UsageStat) :=
  match parts with
  | [] => []
  | p :: parts' =>
    match usage (disk.Mountpoint p) with
    | inl u => (p, u) :: measured usage parts'
    | inr _ => measured usage parts'
    end
  end.

(** The errors the nine queries of [getProcessDetails] answer on [p]. *)
Definition queryErrors (p : process.Process) : list error :=
  let err {A : Type} (answer : A * option error) : list error :=
    match snd answer with Some e => [e] | None => [] end in
  (err (process.NameWithContext p) ++ err (process.StatusWithContext p)
   ++ err (process.CPUPercentWithContext p) ++ err (process.MemoryInfoWithContext p)
   ++ err (process.MemoryPercentWithContext p) ++ err (process.CreateTimeWithContext p)
   ++ err (process.NumThreadsWithContext p) ++ err (process.UsernameWithContext p)
   ++ err (process.CmdlineWithContext p))%list.

(** Some detail query of [p] errors. *)
Definition detailsFail (p : process.Process) : bool :=
  match queryErrors p with [] => false | _ :: _ => true end.

(** The records of the processes on which [getProcessDetails] reports no
    error, in enumeration order. *)
Definition collected (fields : string -> list string) (procs : list process.Process)
    : list ProcessInfo :=
  flat_map (fun p => match getProcessDetails fields p with
                     | inl info => [info]
                     | inr _ => []
                     end) procs.

(** The name filter of [getProcessInfo]: a record passes when no name is
    asked for or its lowered name contains the lowered name asked for. *)
Definition nameMatches (mapUnicodeLower : string -> string) (name : string)
    (info : ProcessInfo) : bool :=
  String.eqb name ""
  || strings.Contains (strings.ToLower mapUnicodeLower (Name info))
                      (strings.ToLower mapUnicodeLower name).

(** [R] merges the blocks [U] and [V]: it is in order and every class of
    tied elements stands in it as in [U ++ V]. *)
Definition merges {A : Type} (less : A -> A -> bool) (ok : A -> Prop)
    (U V R : list A) : Prop :=
  StronglySorted (fun a b => less b a = false) R /\
  forall z, ok z ->
    filter (sort.tied less z) R = filter (sort.tied less z) (U ++ V)%list.

(** Where a float that is not a NaN stands in the order of [SFcompare]:
    by sign class first, then by exponent, then by mantissa. *)
Definition SFrank (f : spec_float) : Z * Z * Z :=
  match f with
  | S754_zero _ => (0, 0, 0)
  | S754_infinity s => (if s then -2 else 2, 0, 0)
  | S754_nan => (0, 0, 0)
  | S754_finite s m e => if s then (-1, - e, Z.neg m) else (1, e, Z.pos m)
  end.

Definition lexcmp (p q : Z * Z * Z) : comparison :=
  let '(a, b, c) := p in
  let '(a', b', c') := q in
  match a ?= a' with
  | Eq => match b ?= b' with Eq => c ?= c' | r => r end
  | r => r
  end.

Definition lexlt (p q : Z * Z * Z) : Prop :=
  let '(a, b, c) := p in
  let '(a', b', c') := q in
  a < a' \/ (a = a' /\ (b < b' \/ (b = b' /\ c < c'))).

(** ** A concrete host, for the statements to be run on *)

Module Examples.

Definition f64 (m e : Z) : float64 := binary_normalize 53 1024 m e false.
Definition f32 (m e : Z) : float32 := binary_normalize 24 128 m e false.

Definition record (pid : Z) (name : string) (cpu : float64) (mem : float32)
    : ProcessInfo :=
  {| PID := pid; Name := name; Status := ""; CPUPercent := cpu;
     MemoryRSS := 0; MemoryVMS := 0; MemoryPercent := mem; CreateTime := 0;
     NumThreads := 0; Username := ""; Cmdline := [] |}.

(** The three records of [TestSortProcessesBy]. *)
Definition processes : list ProcessInfo :=
  [ record 100 "process_c" (f64 31 (-1)) (f32 10 0);
    record 50 "process_a" (f64 25 0) (f32 20 0);
    record 75 "process_b" (f64 11 (-1)) (f32 30 0) ].

Definition esrch : error := Errorf "no such process".

(** A process that exited after it was listed: every query errors. *)
Definition vanished : process.Process :=
  {| process.Pid := 4242;
     process.NameWithContext := ("", Some esrch);
     process.StatusWithContext := ([], Some esrch);
     process.CPUPercentWithContext := (S754_zero false, Some esrch);
     process.MemoryInfoWithContext := (None, Some esrch);
     process.MemoryPercentWithContext := (S754_zero false, Some esrch);
     process.CreateTimeWithContext := (0, Some esrch);
     process.NumThreadsWithContext := (0, Some esrch);
     process.UsernameWithContext := ("", Some esrch);
     process.CmdlineWithContext := ("", Some esrch) |}.

Definition running : process.Process :=
  {| process.Pid := 1;
     process.NameWithContext := ("init", None);
     process.StatusWithContext := (["S"], None);
     process.CPUPercentWithContext := (f64 1 (-1), None);
     process.MemoryInfoWithContext :=
       (Some {| process.RSS := 4096; process.VMS := 8192 |}, None);
     process.MemoryPercentWithContext := (f32 1 (-2), None);
     process.CreateTimeWithContext := (1700000000000, None);
     process.NumThreadsWithContext := (1, None);
     process.UsernameWithContext := ("root", None);
     process.CmdlineWithContext := ("/sbin/init", None) |}.

(** A stand-in for the Unicode path: ASCII letters lowered, other bytes kept. *)
Definition mapUnicodeLower (s : string) : string := strings.lowerASCII s.

(** [strings.Fields] on a text without white space. *)
Definition strings_Fields (s : string) : list string := [s].

Definition process_NewProcess (pid : Z) : result process.Process :=
  if pid =? 1 then inl running else inr esrch.

Definition process_ProcessesWithContext : result (list process.Process) :=
  inl [running; vanished].

Definition rootUsage : disk.UsageStat :=
  {| disk.Fstype := "ext4"; disk.Total := 1000; disk.Free := 400;
     disk.Used := 600; disk.UsedPercent := f64 60 0;
     disk.InodesTotal := 100; disk.InodesUsed := 10; disk.InodesFree := 90 |}.

Definition disk_UsageWithContext (path : string) : result disk.UsageStat :=
  if String.eqb path "/" then inl rootUsage
  else inr (Errorf "no such file or directory").

Definition partitions : list disk.PartitionStat :=
  [ {| disk.Device := "/dev/sda1"; disk.Mountpoint := "/"; disk.PFstype := "ext4" |};
    {| disk.Device := "/dev/sdb1"; disk.Mountpoint := "/mnt/gone";
       disk.PFstype := "ext4" |} ].

Definition disk_PartitionsWithContext (all : bool)
    : result (list disk.PartitionStat) := inl partitions.

Definition counters (name : string) (sent : Z) : net.IOCountersStat :=
  {| net.Name := name; net.BytesSent := sent; net.BytesRecv := 0;
     net.PacketsSent := 0; net.PacketsRecv := 0; net.Errin := 0;
     net.Errout := 0; net.Dropin := 0; net.Dropout := 0 |}.

Definition interfaces : list net.IOCountersStat :=
  [ counters "lo" 10; counters "eth0" 20; counters "Eth0" 30 ].

Definition net_IOCountersWithContext (pernic : bool)
    : result (list net.IOCountersStat) := inl interfaces.

Definition quote : string := String (ascii_of_nat 34) "".

(** A configuration object with the given refresh interval and debug on. *)
Definition configText (interval : string) : string :=
  ("{" ++ quote ++ "refreshInterval" ++ quote ++ ":" ++ interval ++ ","
   ++ quote ++ "enableDebug" ++ quote ++ ":true}")%string.

(** [configText "50"] and [configText "5000"] in base64. *)
Definition blob50 : string :=
  "eyJyZWZyZXNoSW50ZXJ2YWwiOjUwLCJlbmFibGVEZWJ1ZyI6dHJ1ZX0=".
Definition blob5000 : string :=
  "eyJyZWZyZXNoSW50ZXJ2YWwiOjUwMDAsImVuYWJsZURlYnVnIjp0cnVlfQ==".

(** The decoders on the texts above. *)
Definition base64_DecodeString (s : string) : result string :=
  if String.eqb s blob50 then inl (configText "50")
  else if String.eqb s blob5000 then inl (configText "5000")
  else inr (Errorf "illegal base64 data").

Definition json_Unmarshal_ServerConfig (s : string) : result ServerConfig :=
  if String.eqb s (configText "50")
  then inl {| RefreshInterval := 50; EnableDebug := true |}
  else if String.eqb s (configText "5000")
  then inl {| RefreshInterval := 5000; EnableDebug := true |}
  else inr (Errorf "unexpected end of JSON input").

(** A request object with id 7 and a method the adapter does not know. *)
Definition unknownBody : string :=
  ("{" ++ quote ++ "jsonrpc" ++ quote ++ ":" ++ quote ++ "2.0" ++ quote ++ ","
   ++ quote ++ "id" ++ quote ++ ":7,"
   ++ quote ++ "method" ++ quote ++ ":" ++ quote ++ "totally_unknown" ++ quote
   ++ "}")%string.

Definition unknownRequest : MCPRequest.t :=
  {| MCPRequest.JsonRPC := "2.0"; MCPRequest.ID := Float64 (f64 7 0);
     MCPRequest.Method := "totally_unknown"; MCPRequest.Params := Nil |}.

Definition json_Unmarshal_MCPRequest (s : string) : result MCPRequest.t :=
  if String.eqb s unknownBody then inl unknownRequest
  else inr (Errorf "unexpected end of JSON input").

Definition handleToolCall (h : HTTPServer) (params : any) : any * option error :=
  (Nil, Some (Errorf "invalid params format")).

Definition post : http.Request :=
  {| http.Method := "POST"; http.Query_config := blob50;
     http.Body := inl unknownBody |}.

(** Request objects for the unknown method, with the id as given: the text
    and the value the scanner makes of it. *)
Definition requestText (id : string) : string :=
  ("{" ++ quote ++ "jsonrpc" ++ quote ++ ":" ++ quote ++ "2.0" ++ quote ++ ","
   ++ quote ++ "id" ++ quote ++ ":" ++ id ++ ","
   ++ quote ++ "method" ++ quote ++ ":" ++ quote ++ "totally_unknown" ++ quote
   ++ "}")%string.

Definition integer (n : Z) : json.Value :=
  json.Number {| strconv.negative := n <? 0;
                 strconv.coefficient := Z.to_N (Z.abs n);
                 strconv.exponent := 0 |}.

Definition requestValue (id : json.Value) : json.Value :=
  json.Object [("jsonrpc", json.Text "2.0"); ("id", id);
               ("method", json.Text "totally_unknown")].

(** A request object without an id. *)
Definition notificationText : string :=
  ("{" ++ quote ++ "method" ++ quote ++ ":" ++ quote ++ "totally_unknown" ++ quote
   ++ "}")%string.

(** The scanner on the texts above. *)
Definition json_scan (s : string) : result json.Value :=
  if String.eqb s (requestText "7") then inl (requestValue (integer 7))
  else if String.eqb s (requestText "9007199254740993")
  then inl (requestValue (integer 9007199254740993))
  else if String.eqb s (requestText "9007199254740992")
  then inl (requestValue (integer 9007199254740992))
  else if String.eqb s notificationText
  then inl (json.Object [("method", json.Text "totally_unknown")])
  else inr (Errorf "unexpected end of JSON input").

Definition postBody (body : string) : http.Request :=
  {| http.Method := "POST"; http.Query_config := ""; http.Body := inl body |}.

(** A listing in which one CPU percent is not a number. *)
Definition withNaN : list ProcessInfo :=
  [ record 1 "a" (f64 1 0) (f32 1 0);
    record 2 "b" S754_nan (f32 1 0);
    record 3 "c" (f64 2 0) (f32 1 0) ].

(** Twenty-one records, one more than a block of the library's sort: the
    records 10, 15 and 20 carry the CPU percents 1, 5 and 5, the others
    carry none. *)
Definition reading (pid : Z) : float64 :=
  if pid =? 10 then f64 1 0
  else if (pid =? 15) || (pid =? 20) then f64 5 0
  else S754_nan.

Definition twentyOne : list ProcessInfo :=
  map (fun pid => record pid "p" (reading pid) (f32 1 0))
      [0; 1; 2; 3; 4; 5; 6; 7; 8; 9; 10; 11; 12; 13; 14; 15; 16; 17; 18; 19; 20].

End Examples.

(** The configuration's refresh interval is within its bounds. *)
Definition validConfig (h : HTTPServer) : Prop :=
  100 <= RefreshInterval (config h) <= 10000.

(** The server after it has served the requests [rs] in turn. *)
Fixpoint serveAll (base64_DecodeString : string -> result string)
    (json_Unmarshal_ServerConfig : string -> result ServerConfig)
    (json_Unmarshal_MCPRequest : string -> result MCPRequest.t)
    (handleToolCall : HTTPServer -> any -> any * option error)
    (h : HTTPServer) (rs : list http.Request) : HTTPServer :=
  match rs with
  | [] => h
  | r :: rs' =>
    serveAll base64_DecodeString json_Unmarshal_ServerConfig
      json_Unmarshal_MCPRequest handleToolCall
      (fst (ServeHTTP base64_DecodeString json_Unmarshal_ServerConfig
              json_Unmarshal_MCPRequest handleToolCall h r))
      rs'
  end.

(** The member of an object that decides a field: the last one whose key
    folds to the folded name of the field. *)
Fixpoint lastMember (name : string) (members : list (string * json.Value))
    : option json.Value :=
  match members with
  | [] => None
  | (key, v) :: rest =>
    match lastMember name rest with
    | Some w => Some w
    | None => if String.eqb (json.foldName key) name then Some v else None
    end
  end.

(** The id a request body gives, if it gives one. *)
Definition requestId (v : json.Value) : option json.Value :=
  match v with
  | json.Object members => lastMember "ID" members
  | _ => None
  end.

(** The error object of a response: [{"code": -32601, "message": msg}]. *)
Definition errorObject (msg : string) : any :=
  Map [("code", Int (-32601)); ("message", Str msg)].

(** The names a discovery catalogue lists, in order. *)
Definition toolNames (catalogue : any) : list string :=
  match catalogue with
  | Map fields =>
    match index fields "tools" with
    | Slice tools =>
      flat_map (fun tool =>
                  match tool with
                  | Map entry =>
                    match index entry "name" with Str n => [n] | _ => [] end
                  | _ => []
                  end) tools
    | _ => []
    end
  | _ => []
  end.

(** The inputs a discovery catalogue advertises: tool, property, type. *)
Definition advertisedInputs (catalogue : any) : list (string * string * string) :=
  match catalogue with
  | Map fields =>
    match index fields "tools" with
    | Slice tools =>
      flat_map
        (fun tool =>
           match tool with
           | Map entry =>
             match index entry "name", index entry "inputSchema" with
             | Str n, Map schema =>
               match index schema "properties" with
               | Map properties =>
                 flat_map (fun kv =>
                             match snd kv with
                             | Map property =>
                               match index property "type" with
                               | Str type => [(n, fst kv, type)]
                               | _ => []
                               end
                             | _ => []
                             end) properties
               | _ => []
               end
             | _, _ => []
             end
           | _ => []
           end) tools
    | _ => []
    end
  | _ => []
  end.

(** A decoded JSON value seen at an advertised type: itself when it has
    that type (a JSON number decodes to a [float64]), nil otherwise. *)
Definition seenAs (type : string) (v : any) : any :=
  match v with
  | Bool _ => if String.eqb type "boolean" then v else Nil
  | Float64 _ => if String.eqb type "integer" then v else Nil
  | Str _ => if String.eqb type "string" then v else Nil
  | _ => Nil
  end.

(** The decoded [params] of a [tools/call]. *)
Definition toolCall (name : string) (arguments : list (string * any)) : any :=
  Map [("name", Str name); ("arguments", Map arguments)].

(** The [arguments] object of decoded [tools/call] parameters; no entry
    when it is missing or is not an object. *)
Definition argumentsOf (paramsMap : list (string * any)) : list (string * any) :=
  match index paramsMap "arguments" with
  | Map argsMap => argsMap
  | _ => []
  end.

(** The name and description of each tool a discovery catalogue lists. *)
Definition toolDescriptions (catalogue : any) : list (string * string) :=
  match catalogue with
  | Map fields =>
    match index fields "tools" with
    | Slice tools =>
      flat_map (fun tool =>
                  match tool with
                  | Map entry =>
                    match index entry "name", index entry "description" with
                    | Str n, Str d => [(n, d)]
                    | _, _ => []
                    end
                  | _ => []
                  end) tools
    | _ => []
    end
  | _ => []
  end.

(** What a tool call over HTTP returns when the same call on the
    standard-stream transport returns [answer]: the rendering of the
    structured output (of the zero record beside an error), and the error. *)
Definition overHTTP {T : Type} (sprintf : T -> string) (zero : T)
    (answer : mcp.CallToolResult * option T * option error) : any * option error :=
  (textContent (sprintf (match snd (fst answer) with
                         | Some out => out
                         | None => zero
                         end)),
   snd answer).

(** ** A concrete host for the tool calls *)

Module ExampleHost.

Definition hostInfo : host.InfoStat :=
  {| host.Hostname := "box"; host.OS := "linux"; host.Platform := "debian";
     host.PlatformFamily := "debian"; host.PlatformVersion := "12";
     host.KernelVersion := "6.1.0"; host.KernelArch := "x86_64";
     host.Uptime := 3600; host.BootTime := 1700000000; host.Procs := 2;
     host.HostID := "0000"; host.VirtualizationSystem := "";
     host.VirtualizationRole := "" |}.

Definition sensors : list host.TemperatureStat :=
  [ {| host.SensorKey := "coretemp_core_0";
       host.Temperature := Examples.f64 45 0 |};
    {| host.SensorKey := "coretemp_core_1";
       host.Temperature := Examples.f64 47 0 |} ].

Definition cpuModel : cpu.InfoStat :=
  {| cpu.ModelName := "Example CPU"; cpu.Family := "6";
     cpu.Mhz := Examples.f64 2400 0; cpu.CacheSize := 8192;
     cpu.Flags := ["fpu"; "sse2"] |}.

(** The first line a rendering would start with; a stand-in for [%+v]. *)
Definition render {T : Type} (tag : string) (v : T) : string := tag.

(** Sensors answer a partial list beside an error; the physical core count
    is unavailable; [/] is the one readable mount. *)
Definition w : Host.t :=
  {| Host.mapUnicodeLower := Examples.mapUnicodeLower;
     Host.strings_Fields := Examples.strings_Fields;
     Host.runtime_NumCPU := 8;
     Host.cpu_PercentWithContext :=
       fun interval percpu =>
         inl (if percpu then [Examples.f64 10 0; Examples.f64 30 0]
              else [Examples.f64 20 0]);
     Host.cpu_InfoWithContext := inl [cpuModel];
     Host.cpu_Counts :=
       fun logical => if logical then inl 4 else inr (Errorf "not implemented");
     Host.disk_UsageWithContext := Examples.disk_UsageWithContext;
     Host.disk_PartitionsWithContext := Examples.disk_PartitionsWithContext;
     Host.net_IOCountersWithContext := Examples.net_IOCountersWithContext;
     Host.process_NewProcess := Examples.process_NewProcess;
     Host.process_ProcessesWithContext := Examples.process_ProcessesWithContext;
     Host.host_InfoWithContext := inl hostInfo;
     Host.host_SensorsTemperatures := (sensors, Some (Errorf "permission denied"));
     Host.mem_VirtualMemoryWithContext :=
       inl {| mem.VirtualMemoryStat.Total := 1000;
              mem.VirtualMemoryStat.Available := 600;
              mem.VirtualMemoryStat.Used := 400;
              mem.VirtualMemoryStat.UsedPercent := Examples.f64 40 0;
              mem.VirtualMemoryStat.Free := 500;
              mem.VirtualMemoryStat.Buffers := 50;
              mem.VirtualMemoryStat.Cached := 50 |};
     Host.mem_SwapMemoryWithContext := inr (Errorf "no swap");
     Host.load_AvgWithContext :=
       inl {| load.Load1 := Examples.f64 1 0; load.Load5 := Examples.f64 1 (-1);
              load.Load15 := Examples.f64 1 (-2) |};
     Host.Sprintf_SystemInfo := render "{Hostname:";
     Host.Sprintf_CPUInfo := render "{Usage:";
     Host.Sprintf_MemoryInfo := render "{Total:";
     Host.Sprintf_DiskInfoResult :=
       fun r => ("{Disks:" ++ fmt_d (len (Disks r)))%string;
     Host.Sprintf_NetworkInfoResult :=
       fun r => ("{Interfaces:" ++ fmt_d (len (Interfaces r)))%string;
     Host.Sprintf_ProcessInfoResult :=
       fun r => ("{Processes:" ++ fmt_d (Count r))%string;
     Host.Sprintf_LoadAvgResult := render "{Load1:";
     Host.int_unrepresentable := fun _ => - 2 ^ 63;
     Host.int32_unrepresentable := fun _ => - 2 ^ 31 |}.

Definition request (method : string) (cfg : string) (body : result string)
    : http.Request :=
  {| http.Method := method; http.Query_config := cfg; http.Body := body |}.

(** The decoder on three bodies: a [tools/call] of [get_disk_info] for a
    missing path, the same for [/], and the unknown method of [Examples]. *)
Definition diskCall (path : string) : MCPRequest.t :=
  {| MCPRequest.JsonRPC := "2.0"; MCPRequest.ID := Str "a1";
     MCPRequest.Method := "tools/call";
     MCPRequest.Params := toolCall "get_disk_info" [("path", Str path)] |}.

Definition json_Unmarshal_MCPRequest (s : string) : result MCPRequest.t :=
  if String.eqb s "disk /nowhere" then inl (diskCall "/nowhere")
  else if String.eqb s "disk /" then inl (diskCall "/")
  else Examples.json_Unmarshal_MCPRequest s.

End ExampleHost.

(** * Properties *)

(** ** Arithmetic of the two normalised arguments *)

Lemma wrap64_small (z : Z) : - 2 ^ 63 <= z < 2 ^ 63 -> wrap64 z = z.
Proof.
  intros Hz. unfold wrap64.
  rewrite Z.mod_small; lia.
Qed.

Lemma getProcessInfo_limit_range (limit : Z) :
  1 <= getProcessInfo_limit limit <= 200.
Proof.
  unfold getProcessInfo_limit.
  destruct (limit <=? 0) eqn:E0.
  - simpl. lia.
  - apply Z.leb_gt in E0.
    destruct (limit >? 200) eqn:E1; [lia|].
    rewrite Z.gtb_ltb in E1. apply Z.ltb_ge in E1. lia.
Qed.

Lemma getProcessInfo_limit_cases (limit : Z) :
  (limit <= 0 -> getProcessInfo_limit limit = 10) /\
  (200 < limit -> getProcessInfo_limit limit = 200) /\
  (0 < limit <= 200 -> getProcessInfo_limit limit = limit).
Proof.
  unfold getProcessInfo_limit.
  repeat split; intros H.
  - apply Z.leb_le in H. rewrite H. reflexivity.
  - destruct (limit <=? 0) eqn:E0; [apply Z.leb_le in E0; lia|].
    rewrite Z.gtb_ltb. apply Z.ltb_lt in H. now rewrite H.
  - destruct (limit <=? 0) eqn:E0; [apply Z.leb_le in E0; lia|].
    rewrite Z.gtb_ltb.
    destruct (200 <? limit) eqn:E1; [apply Z.ltb_lt in E1; lia|reflexivity].
Qed.

Lemma len_nonneg {A : Type} (l : list A) : 0 <= len l.
Proof. unfold len. lia. Qed.

Lemma len_firstn {A : Type} (n : Z) (l : list A) :
  0 <= n -> n < len l -> len (firstn (Z.to_nat n) l) = n.
Proof.
  unfold len. intros H0 H1.
  rewrite length_firstn. lia.
Qed.

(** ** getCPUInfo: the sampling window *)

(** C5. For every [interval_ms], the window [getCPUInfo] samples over is a
    whole number [ms] of milliseconds with [100 <= ms <= 10000]: a positive
    value below 100 gives 100, a value above 10000 gives 10000 (so 1 gives
    100 and 1000000 gives 10000), a value in between is kept, a value that is
    not positive gives the default 1000; and the sampler is asked at that
    window only: two samplers that agree there give the same [getCPUInfo]. *)
Theorem getCPUInfo_interval_clamped (intervalMs : Z) :
  exists ms : Z,
    getCPUInfo_interval intervalMs = ms * time.Millisecond /\
    100 <= ms <= 10000 /\
    (0 < intervalMs < 100 -> ms = 100) /\
    (10000 < intervalMs -> ms = 10000) /\
    (100 <= intervalMs <= 10000 -> ms = intervalMs) /\
    (intervalMs <= 0 -> ms = 1000) /\
    getCPUInfo_interval 1 = 100 * time.Millisecond /\
    getCPUInfo_interval 1000000 = 10000 * time.Millisecond /\
    forall numCPU sample sample' info counts perCPU,
      (forall per, sample (ms * time.Millisecond) per
                   = sample' (ms * time.Millisecond) per) ->
      getCPUInfo numCPU sample info counts perCPU intervalMs
      = getCPUInfo numCPU sample' info counts perCPU intervalMs.
Proof.
  assert (Hsame : forall ms,
    getCPUInfo_interval intervalMs = ms * time.Millisecond ->
    forall numCPU sample sample' info counts perCPU,
      (forall per, sample (ms * time.Millisecond) per
                   = sample' (ms * time.Millisecond) per) ->
      getCPUInfo numCPU sample info counts perCPU intervalMs
      = getCPUInfo numCPU sample' info counts perCPU intervalMs).
  { intros ms Hms numCPU sample sample' info counts perCPU Hagree.
    unfold getCPUInfo. rewrite Hms.
    destruct perCPU; rewrite Hagree; reflexivity. }
  unfold getCPUInfo_interval in *.
  destruct (intervalMs >? 0) eqn:Epos.
  - rewrite Z.gtb_ltb in Epos. apply Z.ltb_lt in Epos.
    destruct (intervalMs <? 100) eqn:Elo.
    + apply Z.ltb_lt in Elo. exists 100.
      split; [reflexivity|].
      repeat split; try lia; try reflexivity.
      apply Hsame. reflexivity.
    + apply Z.ltb_ge in Elo.
      destruct (intervalMs >? 10000) eqn:Ehi.
      * rewrite Z.gtb_ltb in Ehi. apply Z.ltb_lt in Ehi. exists 10000.
        split; [reflexivity|].
        repeat split; try lia; try reflexivity.
        apply Hsame. reflexivity.
      * rewrite Z.gtb_ltb in Ehi. apply Z.ltb_ge in Ehi. exists intervalMs.
        assert (Hw : wrap64 (intervalMs * time.Millisecond)
                     = intervalMs * time.Millisecond).
        { apply wrap64_small. unfold time.Millisecond. lia. }
        split; [exact Hw|].
        repeat split; try lia; try reflexivity.
        apply Hsame. exact Hw.
  - rewrite Z.gtb_ltb in Epos. apply Z.ltb_ge in Epos. exists 1000.
    split; [reflexivity|].
    repeat split; try lia; try reflexivity.
    apply Hsame. reflexivity.
Qed.

(** ** getDiskInfo and getNetworkInfo *)

Section HostFacts.

Variable mapUnicodeLower : string -> string.
Variable strings_Fields : string -> list string.
Variable disk_UsageWithContext : string -> result disk.UsageStat.
Variable disk_PartitionsWithContext : bool -> result (list disk.PartitionStat).
Variable net_IOCountersWithContext : bool -> result (list net.IOCountersStat).
Variable process_NewProcess : Z -> result process.Process.
Variable process_ProcessesWithContext : result (list process.Process).

Lemma getDiskInfo_range_measured parts : forall disks,
  getDiskInfo_range disk_UsageWithContext parts disks
  = (disks ++ map (fun pu => partitionRecord (fst pu) (snd pu))
                  (measured disk_UsageWithContext parts))%list.
Proof.
  induction parts as [|p parts IH]; intros disks; simpl.
  - now rewrite app_nil_r.
  - destruct (disk_UsageWithContext (disk.Mountpoint p)) as [u|e].
    + rewrite IH, <- app_assoc. reflexivity.
    + apply IH.
Qed.

Lemma measured_fst parts :
  map fst (measured disk_UsageWithContext parts)
  = filter (fun p => succeeded (disk_UsageWithContext (disk.Mountpoint p))) parts.
Proof.
  induction parts as [|p parts IH]; simpl; [reflexivity|].
  destruct (disk_UsageWithContext (disk.Mountpoint p)); simpl; now rewrite IH.
Qed.

Lemma measured_usage parts :
  Forall (fun pu => disk_UsageWithContext (disk.Mountpoint (fst pu)) = inl (snd pu))
         (measured disk_UsageWithContext parts).
Proof.
  induction parts as [|p parts IH]; simpl; [constructor|].
  destruct (disk_UsageWithContext (disk.Mountpoint p)) eqn:E; auto.
Qed.

(** C6. With a non-empty path whose usage query succeeds, [getDiskInfo]
    returns exactly one record; its mountpoint is the path given, its device
    is "N/A", and the other fields are those of the usage answered. *)
Theorem getDiskInfo_path_single_record (path : string) (u : disk.UsageStat) :
  path <> "" ->
  disk_UsageWithContext path = inl u ->
  exists d : DiskInfo,
    getDiskInfo disk_UsageWithContext disk_PartitionsWithContext path
      = inl {| Disks := [d] |} /\
    Mountpoint d = path /\
    Device d = "N/A" /\
    Fstype d = disk.Fstype u /\
    (Total d, Free d, Used d, UsedPercent d)
      = (disk.Total u, disk.Free u, disk.Used u, disk.UsedPercent u) /\
    (InodesTotal d, InodesUsed d, InodesFree d)
      = (disk.InodesTotal u, disk.InodesUsed u, disk.InodesFree u).
Proof.
  intros Hpath Hu. unfold getDiskInfo.
  apply String.eqb_neq in Hpath. rewrite Hpath, Hu. simpl.
  eexists. split; [reflexivity|]. simpl. repeat split.
Qed.

(** C7. With an empty path and a partition listing that succeeds,
    [getDiskInfo] succeeds; its records are, in the listing's order, one for
    each partition whose usage query succeeds, built from that partition and
    that usage; a partition whose usage query errors contributes nothing and
    does not fail the call. *)
Theorem getDiskInfo_all_skips_failed_partitions (parts : list disk.PartitionStat) :
  disk_PartitionsWithContext false = inl parts ->
  exists kept : list (disk.PartitionStat * disk.UsageStat),
    getDiskInfo disk_UsageWithContext disk_PartitionsWithContext ""
      = inl {| Disks := map (fun pu => partitionRecord (fst pu) (snd pu)) kept |} /\
    map fst kept
      = filter (fun p => succeeded (disk_UsageWithContext (disk.Mountpoint p))) parts /\
    Forall (fun pu => disk_UsageWithContext (disk.Mountpoint (fst pu)) = inl (snd pu))
           kept /\
    forall p, In p parts ->
      succeeded (disk_UsageWithContext (disk.Mountpoint p)) = false ->
      ~ In p (map fst kept).
Proof.
  intros Hparts. exists (measured disk_UsageWithContext parts).
  unfold getDiskInfo. simpl. rewrite Hparts.
  rewrite getDiskInfo_range_measured. simpl.
  split; [reflexivity|].
  split; [apply measured_fst|].
  split; [apply measured_usage|].
  intros p _ Hfail Hin.
  rewrite measured_fst in Hin. apply filter_In in Hin.
  destruct Hin as [_ Hok]. congruence.
Qed.

Lemma getNetworkInfo_range_filter stats iface : forall out,
  getNetworkInfo_range stats iface out
  = (out ++ map interfaceRecord
       (filter (fun s => String.eqb iface "" || String.eqb (net.Name s) iface) stats))%list.
Proof.
  induction stats as [|s stats IH]; intros out; simpl.
  - now rewrite app_nil_r.
  - destruct (String.eqb iface ""); simpl.
    + rewrite IH, <- app_assoc. reflexivity.
    + destruct (String.eqb (net.Name s) iface); simpl.
      * rewrite IH, <- app_assoc. reflexivity.
      * apply IH.
Qed.

(** C8. When the counter query succeeds, [getNetworkInfo] succeeds. With an
    empty filter it returns the record of every interface, in order. With a
    non-empty filter it returns the records of exactly those interfaces whose
    name is the filter, byte for byte (so a name differing in case only is
    left out); every record returned then carries the requested name; and if
    no interface has that name the result is the empty list, still a
    success. *)
Theorem getNetworkInfo_filter_exact (stats : list net.IOCountersStat) (iface : string) :
  net_IOCountersWithContext true = inl stats ->
  exists out : list NetworkInfo,
    getNetworkInfo net_IOCountersWithContext iface = inl {| Interfaces := out |} /\
    (iface = "" -> out = map interfaceRecord stats) /\
    (iface <> "" ->
       out = map interfaceRecord
               (filter (fun s => String.eqb (net.Name s) iface) stats) /\
       Forall (fun r => Interface r = iface) out /\
       (forall s, In s stats ->
          (In (interfaceRecord s) out <-> net.Name s = iface)) /\
       ((forall s, In s stats -> net.Name s <> iface) -> out = [])).
Proof.
  intros Hstats. unfold getNetworkInfo. rewrite Hstats.
  rewrite getNetworkInfo_range_filter. simpl.
  eexists. split; [reflexivity|]. split.
  - intros ->. simpl. clear Hstats.
    do 2 f_equal. induction stats as [|s l IH]; simpl; [reflexivity|].
    now rewrite IH.
  - intros Hne. apply String.eqb_neq in Hne. rewrite Hne. simpl.
    split; [reflexivity|]. split; [|split].
    + apply Forall_forall. intros r Hr.
      apply in_map_iff in Hr. destruct Hr as [s [<- Hs]].
      apply filter_In in Hs. destruct Hs as [_ Hs].
      apply String.eqb_eq in Hs. exact Hs.
    + intros s Hs. split.
      * intros Hin. apply in_map_iff in Hin. destruct Hin as [s' [Heq Hs']].
        apply filter_In in Hs'. destruct Hs' as [_ Hs'].
        apply String.eqb_eq in Hs'.
        assert (Interface (interfaceRecord s') = Interface (interfaceRecord s))
          by now rewrite Heq.
        simpl in H. congruence.
      * intros Hname. apply in_map. apply filter_In. split; [exact Hs|].
        now apply String.eqb_eq.
    + intros Hnone. clear Hstats.
      induction stats as [|s l IH]; simpl; [reflexivity|].
      destruct (String.eqb (net.Name s) iface) eqn:E.
      * apply String.eqb_eq in E. exfalso. apply (Hnone s); [now left|exact E].
      * apply IH. intros s' Hs'. apply Hnone. now right.
Qed.

(** ** getProcessInfo: limit and enumeration *)

Lemma getProcessDetails_total (p : process.Process) :
  exists info : ProcessInfo,
    getProcessDetails strings_Fields p = inl info /\
    PID info = process.Pid p /\
    Name info = fst (process.NameWithContext p) /\
    CPUPercent info = fst (process.CPUPercentWithContext p) /\
    MemoryPercent info = fst (process.MemoryPercentWithContext p).
Proof.
  unfold getProcessDetails.
  destruct (fst (process.MemoryInfoWithContext p)); eexists; split;
    try reflexivity; simpl; repeat split.
Qed.

Lemma collected_everyone (procs : list process.Process) :
  Forall2 (fun p info => getProcessDetails strings_Fields p = inl info)
          procs (collected strings_Fields procs).
Proof.
  induction procs as [|p procs IH]; simpl; [constructor|].
  destruct (getProcessDetails_total p) as [info [Hinfo _]].
  rewrite Hinfo. simpl. constructor; assumption.
Qed.

Lemma collected_pids (procs : list process.Process) :
  map PID (collected strings_Fields procs) = map process.Pid procs.
Proof.
  induction procs as [|p procs IH]; simpl; [reflexivity|].
  destruct (getProcessDetails_total p) as [info [Hinfo [Hpid _]]].
  rewrite Hinfo. simpl. now rewrite Hpid, IH.
Qed.

Lemma firstn_exact {A : Type} (l r : list A) : firstn (List.length l) (l ++ r) = l.
Proof.
  rewrite firstn_app, Nat.sub_diag, firstn_all. simpl. apply app_nil_r.
Qed.

Lemma collected_cons (p : process.Process) (procs : list process.Process) :
  collected strings_Fields (p :: procs)
  = (match getProcessDetails strings_Fields p with
     | inl info => [info]
     | inr _ => []
     end ++ collected strings_Fields procs)%list.
Proof. reflexivity. Qed.

Lemma nameMatches_negb (name : string) (info : ProcessInfo) :
  negb (String.eqb name "")
  && negb (strings.Contains (strings.ToLower mapUnicodeLower (Name info))
                            (strings.ToLower mapUnicodeLower name))
  = negb (nameMatches mapUnicodeLower name info).
Proof. unfold nameMatches. now rewrite negb_orb. Qed.

Lemma getProcessInfo_range_firstn (name : string) (limit : Z) :
  1 <= limit <= 200 ->
  forall procs lst,
    len lst < 2 * limit ->
    getProcessInfo_range mapUnicodeLower strings_Fields procs name limit lst
    = firstn (Z.to_nat (2 * limit))
        (lst ++ filter (nameMatches mapUnicodeLower name)
                       (collected strings_Fields procs)).
Proof.
  intros Hlimit.
  assert (Hw : wrap64 (limit * 2) = 2 * limit)
    by (rewrite wrap64_small; lia).
  remember (2 * limit) as cap eqn:Hcap.
  induction procs as [|p procs IH]; intros lst Hlen.
  - cbn [getProcessInfo_range collected flat_map filter].
    rewrite app_nil_r, firstn_all2; [reflexivity|]. unfold len in Hlen. lia.
  - cbn [getProcessInfo_range]. rewrite collected_cons.
    destruct (getProcessDetails strings_Fields p) as [info|e].
    + rewrite nameMatches_negb. cbn [app filter].
      destruct (nameMatches mapUnicodeLower name info); cbn [negb].
      * rewrite Hw.
        assert (Hsplit : forall r, (lst ++ info :: r = (lst ++ [info]) ++ r)%list)
          by (intros r; now rewrite <- app_assoc).
        set (rest := filter _ (collected strings_Fields procs)).
        rewrite (Hsplit rest). subst rest.
        destruct (len (lst ++ [info]) >=? cap) eqn:Efull;
          rewrite Z.geb_leb in Efull.
        -- apply Z.leb_le in Efull.
           unfold len in *. rewrite length_app in Efull. simpl in Efull.
           replace (Z.to_nat cap) with (List.length (lst ++ [info]))
             by (rewrite length_app; simpl; lia).
           now rewrite firstn_exact.
        -- apply Z.leb_gt in Efull. apply IH. exact Efull.
      * apply IH. exact Hlen.
    + apply IH. exact Hlen.
Qed.

(** C3. The limit [getProcessInfo] works with is 10 when the limit given is
    not positive (not the lower bound 1), 200 when it exceeds 200, and the
    limit given otherwise; whenever the call succeeds, with or without a
    pid, it returns at most that many records, hence at most 200, and
    [Count] is their number. *)
Theorem getProcessInfo_limit_bound (pid : Z) (name : string) (limit : Z)
    (sortBy : string) :
  (limit <= 0 -> getProcessInfo_limit limit = 10) /\
  (200 < limit -> getProcessInfo_limit limit = 200) /\
  (0 < limit <= 200 -> getProcessInfo_limit limit = limit) /\
  forall res : ProcessInfoResult,
    getProcessInfo mapUnicodeLower strings_Fields process_NewProcess
      process_ProcessesWithContext pid name limit sortBy = inl res ->
    len (Processes res) <= getProcessInfo_limit limit /\
    len (Processes res) <= 200 /\
    Count res = len (Processes res).
Proof.
  destruct (getProcessInfo_limit_cases limit) as [H0 [H1 H2]].
  repeat split; try assumption;
    pose proof (getProcessInfo_limit_range limit) as Hrange;
    revert H; unfold getProcessInfo;
    set (eff := getProcessInfo_limit limit) in *.
  1, 2: destruct (pid >? 0);
    [ destruct (process_NewProcess pid) as [proc|e]; [|discriminate];
      destruct (getProcessDetails strings_Fields proc) as [info|e]; [|discriminate];
      intros H; injection H as <-; simpl; unfold len; simpl; lia
    | destruct process_ProcessesWithContext as [procs|e]; [|discriminate];
      match goal with
      | |- context [sortProcessesBy ?m ?l ?s] => set (sorted := sortProcessesBy m l s)
      end;
      destruct (len sorted >? eff) eqn:Ecut;
      intros H; injection H as <-; simpl;
      rewrite Z.gtb_ltb in Ecut;
      [ apply Z.ltb_lt in Ecut; rewrite len_firstn; lia
      | apply Z.ltb_ge in Ecut; lia ] ].
  destruct (pid >? 0).
  - destruct (process_NewProcess pid) as [proc|e]; [|discriminate].
    destruct (getProcessDetails strings_Fields proc) as [info|e]; [|discriminate].
    intros H; injection H as <-. reflexivity.
  - destruct process_ProcessesWithContext as [procs|e]; [|discriminate].
    intros H; injection H as <-. reflexivity.
Qed.

End HostFacts.

(** ** sort.SliceStable *)

Section SliceStableFacts.

Local Open Scope nat_scope.
Local Open Scope list_scope.

Context {A : Type}.
Variable less : A -> A -> bool.

Lemma sink_Permutation (x : A) (rprefix : list A) :
  Permutation (x :: rprefix) (sort.sink less x rprefix).
Proof.
  induction rprefix as [|y r IH]; simpl; [reflexivity|].
  destruct (less x y); [|reflexivity].
  rewrite perm_swap. now apply perm_skip.
Qed.

Lemma fold_sink_Permutation (data : list A) : forall rprefix,
  Permutation (rev data ++ rprefix)
              (fold_left (fun r x => sort.sink less x r) data rprefix).
Proof.
  induction data as [|x data IH]; intros rprefix; simpl; [reflexivity|].
  rewrite <- IH, <- app_assoc. simpl.
  apply Permutation_app_head, sink_Permutation.
Qed.

Lemma insertionSort_Permutation (data : list A) :
  Permutation data (sort.insertionSort less data).
Proof.
  unfold sort.insertionSort.
  rewrite <- Permutation_rev, <- fold_sink_Permutation, app_nil_r.
  apply Permutation_rev.
Qed.

(** *** The binary searches *)

Lemma search_range (p : nat -> bool) (fuel : nat) : forall i j,
  i <= j -> i <= sort.search p fuel i j <= j.
Proof.
  induction fuel as [|fuel IH]; intros i j Hij; cbn [sort.search]; [lia|].
  destruct (Nat.ltb_spec i j) as [Hlt|Hge]; [|lia].
  assert (Hh : i <= (i + j) / 2 < j).
  { pose proof (Nat.div_mod_eq (i + j) 2).
    pose proof (Nat.mod_upper_bound (i + j) 2). lia. }
  destruct (p ((i + j) / 2)).
  - specialize (IH ((i + j) / 2 + 1) j). lia.
  - specialize (IH i ((i + j) / 2)). lia.
Qed.

Lemma search_found (p : nat -> bool) (fuel : nat) : forall i j,
  i <= j -> j - i <= fuel ->
  (sort.search p fuel i j = i \/ p (sort.search p fuel i j - 1) = true) /\
  (sort.search p fuel i j = j \/ p (sort.search p fuel i j) = false).
Proof.
  induction fuel as [|fuel IH]; intros i j Hij Hfuel; cbn [sort.search].
  - split; left; lia.
  - destruct (Nat.ltb_spec i j) as [Hlt|Hge]; [|split; left; lia].
    assert (Hh : i <= (i + j) / 2 < j).
    { pose proof (Nat.div_mod_eq (i + j) 2).
      pose proof (Nat.mod_upper_bound (i + j) 2). lia. }
    destruct (p ((i + j) / 2)) eqn:Eh.
    + destruct (IH ((i + j) / 2 + 1) j) as [[Hlo|Hlo] Hhi]; try lia.
      * split; [right|exact Hhi]. rewrite Hlo.
        now replace ((i + j) / 2 + 1 - 1) with ((i + j) / 2) by lia.
      * split; [now right|exact Hhi].
    + destruct (IH i ((i + j) / 2)) as [Hlo [Hhi|Hhi]]; try lia.
      * split; [exact Hlo|right]. now rewrite Hhi.
      * split; [exact Hlo|now right].
Qed.

(** *** Slices *)

Lemma slice_0 (data : list A) (j : nat) : sort.slice data 0 j = firstn j data.
Proof. unfold sort.slice. now rewrite Nat.sub_0_r. Qed.

Lemma slice_app_left (U V : list A) (i : nat) :
  i <= List.length U -> sort.slice (U ++ V) i (List.length U) = skipn i U.
Proof.
  intros Hi. unfold sort.slice.
  rewrite skipn_app, firstn_app, length_skipn.
  replace (i - List.length U) with 0 by lia.
  replace (List.length U - i - (List.length U - i)) with 0 by lia.
  cbn [skipn firstn]. rewrite app_nil_r.
  apply firstn_all2. rewrite length_skipn. lia.
Qed.

Lemma slice_app_right (U V : list A) (j : nat) :
  List.length U <= j -> sort.slice (U ++ V) (List.length U) j = firstn (j - List.length U) V.
Proof.
  intros Hj. unfold sort.slice.
  rewrite skipn_app, Nat.sub_diag, skipn_all. reflexivity.
Qed.

Lemma skipn_app_right (U V : list A) (j : nat) :
  List.length U <= j -> skipn j (U ++ V) = skipn (j - List.length U) V.
Proof.
  intros Hj. rewrite skipn_app, skipn_all2 by exact Hj. reflexivity.
Qed.

Lemma firstn_app_left (U V : list A) (i : nat) :
  i <= List.length U -> firstn i (U ++ V) = firstn i U.
Proof.
  intros Hi. rewrite firstn_app.
  replace (i - List.length U) with 0 by lia. cbn [firstn]. apply app_nil_r.
Qed.


Lemma nth_error_firstn_last (l l' : list A) (k : nat) (x : A) :
  k <= List.length l -> firstn k l = l' ++ [x] -> nth_error l (k - 1) = Some x.
Proof.
  intros Hk E.
  assert (Hlen : List.length l' + 1 = k).
  { apply (f_equal (@List.length A)) in E.
    rewrite length_firstn, length_app in E. cbn [List.length] in E. lia. }
  rewrite <- (firstn_skipn k l), E, <- app_assoc.
  replace (k - 1) with (List.length l' + 0) by lia.
  now rewrite nth_error_app2, Nat.add_comm, Nat.add_sub by lia.
Qed.

Lemma nth_error_skipn_head (l l' : list A) (k : nat) (x : A) :
  skipn k l = x :: l' -> nth_error l k = Some x.
Proof.
  revert l. induction k as [|k IH]; intros l E.
  - cbn [skipn] in E. now subst l.
  - destruct l as [|y l]; [discriminate|]. cbn [skipn] in E. now apply IH.
Qed.

Lemma Less_true (data : list A) (i j : nat) :
  sort.Less less data i j = true ->
  exists x y, nth_error data i = Some x /\ nth_error data j = Some y
              /\ less x y = true.
Proof.
  unfold sort.Less. destruct (nth_error data i) as [x|]; [|discriminate].
  destruct (nth_error data j) as [y|]; [|discriminate].
  intros E. now exists x, y.
Qed.

Lemma Less_false (data : list A) (i j : nat) (x y : A) :
  nth_error data i = Some x -> nth_error data j = Some y ->
  sort.Less less data i j = false -> less x y = false.
Proof. unfold sort.Less. now intros -> ->. Qed.

(** *** What one call of [symMerge_func] does *)

(** [m - a == 1]: [data[a]] is inserted into [data[m:b]]. *)
Lemma symMerge_insert_left (fuel : nat) (u : A) (V : list A) :
  exists V1 V2,
    V = V1 ++ V2 /\
    sort.symMerge less (S fuel) (u :: V) 1 = V1 ++ u :: V2 /\
    (forall v V1', V1 = V1' ++ [v] -> less v u = true) /\
    (forall v V2', V2 = v :: V2' -> less v u = false).
Proof.
  cbn [sort.symMerge Nat.eqb List.length].
  set (data := u :: V).
  set (i := sort.search (fun h => sort.Less less data h 0) (S (List.length V) - 1)
                        1 (S (List.length V))).
  assert (Hrange : 1 <= i <= S (List.length V)) by (apply search_range; lia).
  destruct (search_found (fun h => sort.Less less data h 0)
              (S (List.length V) - 1) 1 (S (List.length V))) as [Hlo Hhi];
    try lia.
  fold i in Hlo, Hhi.
  exists (firstn (i - 1) V), (skipn (i - 1) V).
  split; [now rewrite firstn_skipn|].
  split; [|split].
  - unfold sort.slice, data. cbn [skipn].
    replace (1 - 0) with 1 by lia. cbn [firstn].
    destruct i as [|k]; [lia|]. cbn [skipn].
    now replace (S k - 1) with k by lia.
  - intros v V1' E.
    assert (Hk : i - 1 <> 0).
    { intros H0. rewrite H0 in E. cbn [firstn] in E. now destruct V1'. }
    destruct Hlo as [Hlo|Hlo]; [lia|].
    apply Less_true in Hlo. destruct Hlo as (x & y & Hx & Hy & Hless).
    unfold data in Hx, Hy. cbn [nth_error] in Hy. injection Hy as <-.
    destruct (i - 1) as [|k] eqn:Ek; [lia|]. cbn [nth_error] in Hx.
    apply nth_error_firstn_last in E; [|lia].
    replace (S k - 1) with k in E by lia. congruence.
  - intros v V2' E.
    assert (Hk : i - 1 < List.length V).
    { destruct (Nat.lt_ge_cases (i - 1) (List.length V)) as [H|H]; [exact H|].
      rewrite skipn_all2 in E by exact H. discriminate. }
    destruct Hhi as [Hhi|Hhi]; [lia|].
    apply nth_error_skipn_head in E.
    apply (Less_false data i 0 v u); [|reflexivity|exact Hhi].
    unfold data. destruct i as [|k]; [lia|]. cbn [nth_error].
    now replace (S k - 1) with k in E by lia.
Qed.

(** [b - m == 1]: [data[m]] is inserted into [data[a:m]]. *)
Lemma symMerge_insert_right (fuel : nat) (U : list A) (v : A) :
  List.length U <> 1 ->
  exists U1 U2,
    U = U1 ++ U2 /\
    sort.symMerge less (S fuel) (U ++ [v]) (List.length U) = U1 ++ v :: U2 /\
    (forall u U1', U1 = U1' ++ [u] -> less v u = false) /\
    (forall u U2', U2 = u :: U2' -> less v u = true).
Proof.
  intros Hm. cbn [sort.symMerge].
  apply Nat.eqb_neq in Hm. rewrite Hm.
  rewrite length_app. cbn [List.length].
  replace (List.length U + 1 - List.length U =? 1) with true
    by (symmetry; apply Nat.eqb_eq; lia).
  set (data := (U ++ [v])%list).
  set (m := List.length U).
  set (i := sort.search (fun h => negb (sort.Less less data m h)) m 0 m).
  assert (Hrange : 0 <= i <= m) by (apply search_range; lia).
  destruct (search_found (fun h => negb (sort.Less less data m h)) m 0 m)
    as [Hlo Hhi]; try lia.
  fold i in Hlo, Hhi.
  assert (Hv : nth_error data m = Some v).
  { unfold data, m. rewrite nth_error_app2, Nat.sub_diag by lia. reflexivity. }
  exists (firstn i U), (skipn i U).
  split; [now rewrite firstn_skipn|].
  split; [|split].
  - unfold data. rewrite firstn_app_left by (fold m; lia).
    rewrite slice_app_right by (fold m; lia). fold m.
    replace (m + 1 - m) with 1 by lia. cbn [firstn].
    unfold m. rewrite slice_app_left by (fold m; lia). reflexivity.
  - intros u U1' E.
    assert (Hk : i <> 0).
    { intros H0. rewrite H0 in E. cbn [firstn] in E. now destruct U1'. }
    destruct Hlo as [Hlo|Hlo]; [lia|].
    apply negb_true_iff in Hlo.
    apply nth_error_firstn_last in E; [|fold m; lia].
    apply (Less_false data m (i - 1) v u); [exact Hv| |exact Hlo].
    unfold data. rewrite nth_error_app1; [exact E|fold m; lia].
  - intros u U2' E.
    assert (Hk : i < m).
    { destruct (Nat.lt_ge_cases i m) as [H|H]; [exact H|].
      rewrite skipn_all2 in E by exact H. discriminate. }
    destruct Hhi as [Hhi|Hhi]; [lia|].
    apply negb_false_iff in Hhi.
    apply Less_true in Hhi. destruct Hhi as (x & y & Hx & Hy & Hless).
    apply nth_error_skipn_head in E.
    unfold data in Hy. rewrite nth_error_app1 in Hy by (fold m; lia).
    congruence.
Qed.


Lemma rotate_blocks (U V : list A) (start end_ : nat) :
  start <= List.length U -> List.length U <= end_ ->
  end_ <= List.length U + List.length V ->
  (if (start <? List.length U) && (List.length U <? end_)
   then sort.rotate (U ++ V) start (List.length U) end_ else U ++ V)
  = (firstn start U ++ firstn (end_ - List.length U) V)
    ++ skipn start U ++ skipn (end_ - List.length U) V.
Proof.
  intros Hs He Hb.
  assert (Hrot : sort.rotate (U ++ V) start (List.length U) end_
                 = (firstn start U ++ firstn (end_ - List.length U) V)
                   ++ skipn start U ++ skipn (end_ - List.length U) V).
  { unfold sort.rotate.
    rewrite firstn_app_left, slice_app_right, slice_app_left, skipn_app_right
      by lia.
    now rewrite <- app_assoc. }
  destruct (Nat.ltb_spec start (List.length U)) as [Hlt|Hge];
    [destruct (Nat.ltb_spec (List.length U) end_) as [Hlt'|Hge']|];
    cbn [andb]; [exact Hrot| |].
  - replace (end_ - List.length U) with 0 by lia. cbn [firstn skipn].
    now rewrite app_nil_r, app_assoc, firstn_skipn.
  - rewrite (firstn_all2 U), (skipn_all2 U) by lia. cbn [app].
    now rewrite <- app_assoc, firstn_skipn.
Qed.

(** Neither block is a single element: a binary search cuts both blocks so
    that the first and the second half of [data[a:b]] can be merged apart. *)
Lemma symMerge_halves (fuel : nat) (U V : list A) :
  List.length U <> 1 -> List.length V <> 1 ->
  exists U1 U2 V1 V2,
    U = U1 ++ U2 /\ V = V1 ++ V2 /\
    List.length U1 + List.length V1 = (List.length U + List.length V) / 2 /\
    sort.symMerge less (S fuel) (U ++ V) (List.length U)
    = (if (0 <? List.length U1) && (0 <? List.length V1)
       then sort.symMerge less fuel (U1 ++ V1) (List.length U1)
       else U1 ++ V1)
      ++ (if (0 <? List.length U2) && (0 <? List.length V2)
          then sort.symMerge less fuel (U2 ++ V2) (List.length U2)
          else U2 ++ V2) /\
    (forall u U2' v V1', U2 = u :: U2' -> V1 = V1' ++ [v] -> less v u = true) /\
    (forall u U1' v V2', U1 = U1' ++ [u] -> V2 = v :: V2' -> less v u = false).
Proof.
  intros Hm Hv. cbn [sort.symMerge].
  apply Nat.eqb_neq in Hm. rewrite Hm. apply Nat.eqb_neq in Hm.
  rewrite length_app.
  replace (List.length U + List.length V - List.length U =? 1) with false
    by (symmetry; apply Nat.eqb_neq; lia).
  set (m := List.length U) in *. set (b := m + List.length V).
  assert (Hb : b = m + List.length V) by reflexivity.
  set (mid := b / 2).
  assert (Hmid : 2 * mid <= b <= 2 * mid + 1).
  { unfold mid. pose proof (Nat.div_mod_eq b 2).
    pose proof (Nat.mod_upper_bound b 2). lia. }
  set (n := mid + m).
  assert (Hn : n = mid + m) by reflexivity.
  set (data := U ++ V).
  assert (Hcut : exists start0 r0,
    (if mid <? m then (n - b, mid) else (0, m)) = (start0, r0) /\
    start0 <= r0 /\ r0 <= m /\ m + r0 <= n /\ n <= b + start0 /\
    (start0 = 0 \/ n = b + start0) /\ (r0 = m \/ n = m + r0)).
  { destruct (Nat.ltb_spec mid m).
    - exists (n - b), mid. repeat split; lia.
    - exists 0, m. repeat split; lia. }
  destruct Hcut as (start0 & r0 & -> & Hle & Hr0 & Hm0 & Hb0 & Hstart0 & Hr0').
  set (p := fun c => negb (sort.Less less data (n - 1 - c) c)).
  set (start := sort.search p (r0 - start0) start0 r0).
  pose proof (search_range p (r0 - start0) start0 r0 Hle) as Hrange.
  destruct (search_found p (r0 - start0) start0 r0 Hle (Nat.le_refl _))
    as [Hlo Hhi].
  fold start in Hrange, Hlo, Hhi.
  set (end_ := n - start).
  assert (Hend : end_ + start = n) by (unfold end_; lia).
  set (e := end_ - m).
  assert (He : e + m = end_) by (unfold e; lia).
  assert (Hlo' : start = start0 \/
                 sort.Less less data end_ (start - 1) = false).
  { destruct Hlo as [Hlo|Hlo]; [now left|].
    destruct (Nat.eq_dec start 0) as [H0|H0]; [left; lia|right].
    apply negb_true_iff in Hlo.
    now replace (n - 1 - (start - 1)) with end_ in Hlo by lia. }
  assert (Hhi' : start = r0 \/
                 sort.Less less data (end_ - 1) start = true).
  { destruct Hhi as [Hhi|Hhi]; [now left|right].
    apply negb_false_iff in Hhi.
    now replace (n - 1 - start) with (end_ - 1) in Hhi by lia. }
  clear Hlo Hhi.
  exists (firstn start U), (skipn start U), (firstn e V), (skipn e V).
  assert (HU1 : List.length (firstn start U) = start)
    by (rewrite length_firstn; fold m; lia).
  assert (HV1 : List.length (firstn e V) = e)
    by (rewrite length_firstn; lia).
  assert (HU2 : List.length (skipn start U) + start = m)
    by (rewrite length_skipn; fold m; lia).
  assert (HV2 : List.length (skipn e V) + end_ = b)
    by (rewrite length_skipn; lia).
  split; [now rewrite firstn_skipn|].
  split; [now rewrite firstn_skipn|].
  split; [rewrite HU1, HV1; lia|].
  split; [|split].
  - unfold data, m. rewrite rotate_blocks by (fold m; lia).
    fold m. fold e.
    rewrite firstn_app_left, skipn_app_right
      by (rewrite length_app, HU1, HV1; lia).
    rewrite length_app, HU1, HV1.
    replace (mid - (start + e)) with 0 by lia.
    cbn [skipn].
    rewrite firstn_all2 by (rewrite length_app, HU1, HV1; lia).
    replace (start <? mid) with (0 <? e)
      by (destruct (Nat.ltb_spec 0 e), (Nat.ltb_spec start mid);
          try reflexivity; lia).
    replace (mid <? end_) with (0 <? List.length (skipn start U))
      by (destruct (Nat.ltb_spec 0 (List.length (skipn start U))),
                   (Nat.ltb_spec mid end_); try reflexivity; lia).
    replace (end_ <? b) with (0 <? List.length (skipn e V))
      by (destruct (Nat.ltb_spec 0 (List.length (skipn e V))),
                   (Nat.ltb_spec end_ b); try reflexivity; lia).
    replace (end_ - mid) with (List.length (skipn start U)) by lia.
    reflexivity.
  - intros u U2' v V1' EU EV.
    assert (Hs : start < m).
    { destruct (Nat.lt_ge_cases start m) as [H|H]; [exact H|].
      rewrite skipn_all2 in EU by exact H. discriminate. }
    assert (He0 : e <> 0).
    { intros H0. rewrite H0 in EV. cbn [firstn] in EV. now destruct V1'. }
    destruct Hhi' as [Hhi|Hhi]; [lia|].
    apply Less_true in Hhi.
    destruct Hhi as (x & y & Hx & Hy & Hless).
    apply nth_error_skipn_head in EU.
    apply nth_error_firstn_last in EV; [|lia].
    unfold data in Hx, Hy.
    rewrite nth_error_app1 in Hy by (fold m; lia).
    rewrite nth_error_app2 in Hx by (fold m; lia).
    fold m in Hx.
    replace (end_ - 1 - m) with (e - 1) in Hx by lia.
    congruence.
  - intros u U1' v V2' EU EV.
    assert (Hs : start <> 0).
    { intros H0. rewrite H0 in EU. cbn [firstn] in EU. now destruct U1'. }
    assert (He0 : e < List.length V).
    { destruct (Nat.lt_ge_cases e (List.length V)) as [H|H]; [exact H|].
      rewrite skipn_all2 in EV by exact H. discriminate. }
    destruct Hlo' as [Hlo|Hlo]; [lia|].
    apply nth_error_firstn_last in EU; [|fold m; lia].
    apply nth_error_skipn_head in EV.
    apply (Less_false data end_ (start - 1) v u); [| |exact Hlo]; unfold data.
    + rewrite nth_error_app2 by (fold m; lia).
      fold m. now replace (end_ - m) with e by lia.
    + rewrite nth_error_app1 by (fold m; lia). exact EU.
Qed.


(** *** The library's sort permutes, whatever [less] is *)

Lemma symMerge_Permutation (fuel : nat) : forall U V : list A,
  Permutation (U ++ V) (sort.symMerge less fuel (U ++ V) (List.length U)).
Proof.
  induction fuel as [|fuel IH]; intros U V; [reflexivity|].
  destruct (Nat.eq_dec (List.length U) 1) as [HU|HU].
  - destruct U as [|u [|? ?]]; try discriminate.
    destruct (symMerge_insert_left fuel u V) as (V1 & V2 & -> & E & _).
    cbn [app List.length]. rewrite E. apply Permutation_middle.
  - destruct (Nat.eq_dec (List.length V) 1) as [HV|HV].
    + destruct V as [|v [|? ?]]; try discriminate.
      destruct (symMerge_insert_right fuel U v HU) as (U1 & U2 & EU & E & _).
      rewrite E, EU, <- app_assoc.
      apply Permutation_app_head. symmetry. apply Permutation_cons_append.
    + destruct (symMerge_halves fuel U V HU HV)
        as (U1 & U2 & V1 & V2 & EU & EV & _ & E & _).
      rewrite E.
      transitivity ((U1 ++ V1) ++ (U2 ++ V2)).
      * rewrite EU, EV, <- !app_assoc. apply Permutation_app_head.
        rewrite !app_assoc. apply Permutation_app_tail, Permutation_app_comm.
      * apply Permutation_app;
          match goal with |- context [if ?c then _ else _] => destruct c end;
          try reflexivity; apply IH.
Qed.

Lemma symMerge_func_Permutation (data : list A) (m : nat) :
  m <= List.length data -> Permutation data (sort.symMerge_func less data m).
Proof.
  intros Hm. unfold sort.symMerge_func.
  rewrite <- (firstn_skipn m data) at 1 3.
  replace m with (List.length (firstn m data)) at 5
    by (rewrite length_firstn; lia).
  apply symMerge_Permutation.
Qed.

Lemma insertionSortBlocks_Permutation (fuel blockSize : nat) : forall data,
  Permutation data (sort.insertionSortBlocks less fuel blockSize data).
Proof.
  induction fuel as [|fuel IH]; intros data; cbn [sort.insertionSortBlocks];
    [apply insertionSort_Permutation|].
  destruct (blockSize <=? List.length data); [|apply insertionSort_Permutation].
  rewrite <- (firstn_skipn blockSize data) at 1.
  apply Permutation_app; [apply insertionSort_Permutation|apply IH].
Qed.

Lemma mergeBlocks_Permutation (fuel blockSize : nat) : forall data,
  Permutation data (sort.mergeBlocks less fuel blockSize data).
Proof.
  induction fuel as [|fuel IH]; intros data; cbn [sort.mergeBlocks];
    [reflexivity|].
  destruct (Nat.leb_spec (2 * blockSize) (List.length data)).
  - rewrite <- (firstn_skipn (2 * blockSize) data) at 1.
    apply Permutation_app; [|apply IH].
    apply symMerge_func_Permutation. rewrite length_firstn. lia.
  - destruct (Nat.ltb_spec blockSize (List.length data)); [|reflexivity].
    apply symMerge_func_Permutation. lia.
Qed.

Lemma mergePasses_Permutation (fuel : nat) : forall blockSize data,
  Permutation data (sort.mergePasses less fuel blockSize data).
Proof.
  induction fuel as [|fuel IH]; intros blockSize data; cbn [sort.mergePasses];
    [reflexivity|].
  destruct (blockSize <? List.length data); [|reflexivity].
  rewrite <- IH. apply mergeBlocks_Permutation.
Qed.

Lemma SliceStable_Permutation (data : list A) :
  Permutation data (sort.SliceStable less data).
Proof.
  unfold sort.SliceStable, sort.stable_func.
  rewrite <- mergePasses_Permutation. apply insertionSortBlocks_Permutation.
Qed.

(** A slice of at most one block is sorted by the insertion sort alone,
    whatever [less] is. *)
Lemma SliceStable_short (data : list A) :
  List.length data <= 20 ->
  sort.SliceStable less data = sort.insertionSort less data.
Proof.
  intros Hlen. unfold sort.SliceStable, sort.stable_func.
  assert (E : sort.insertionSortBlocks less (List.length data) 20 data
              = sort.insertionSort less data).
  { destruct (List.length data) as [|n] eqn:En; [reflexivity|].
    cbn [sort.insertionSortBlocks]. rewrite En.
    destruct (Nat.leb_spec 20 (S n)) as [H20|H20]; [|reflexivity].
    rewrite firstn_all2, skipn_all2 by lia.
    replace (sort.insertionSortBlocks less n 20 []) with (@nil A);
      [apply app_nil_r|].
    destruct n as [|n']; reflexivity. }
  rewrite E.
  assert (Hsorted : List.length (sort.insertionSort less data) = List.length data)
    by (symmetry; apply Permutation_length, insertionSort_Permutation).
  destruct (List.length data) as [|n] eqn:En; [reflexivity|].
  cbn [sort.mergePasses]. rewrite Hsorted.
  destruct (Nat.ltb_spec 20 (S n)) as [H20|H20]; [lia|reflexivity].
Qed.

(** *** Stability: a class of elements none of which is [less] than another
    keeps its order. *)

Section Stable.

Variable ok : A -> Prop.
Variable class : A -> bool.
Hypothesis class_ties :
  forall x y, ok x -> ok y -> class x = true -> class y = true -> less x y = false.

Lemma sink_filter (x : A) (rprefix : list A) :
  ok x -> Forall ok rprefix ->
  filter class (sort.sink less x rprefix) = filter class (x :: rprefix).
Proof.
  intros Hx Hok. induction Hok as [|y r Hy Hr IH]; [reflexivity|].
  cbn [sort.sink]. destruct (less x y) eqn:Exy; [|reflexivity].
  cbn [filter] in *. rewrite IH.
  destruct (class x) eqn:Ex, (class y) eqn:Ey; try reflexivity.
  rewrite (class_ties x y Hx Hy Ex Ey) in Exy. discriminate.
Qed.

Lemma fold_sink_filter (data : list A) : forall rprefix,
  Forall ok data -> Forall ok rprefix ->
  filter class (fold_left (fun r x => sort.sink less x r) data rprefix)
  = filter class (rev data ++ rprefix).
Proof.
  induction data as [|x data IH]; intros rprefix Hdata Hok; simpl; [reflexivity|].
  inversion Hdata as [|? ? Hx Hdata']; subst.
  rewrite IH; [|exact Hdata'|].
  - rewrite <- app_assoc, !filter_app, sink_filter by assumption.
    change (x :: rprefix) with ([x] ++ rprefix)%list.
    now rewrite filter_app.
  - apply Forall_forall. intros z Hz.
    apply (Permutation_in z (Permutation_sym (sink_Permutation x rprefix))) in Hz.
    destruct Hz as [<-|Hz]; [exact Hx|].
    rewrite Forall_forall in Hok. now apply Hok.
Qed.

Lemma insertionSort_filter (data : list A) :
  Forall ok data ->
  filter class (sort.insertionSort less data) = filter class data.
Proof.
  intros Hok. unfold sort.insertionSort.
  rewrite filter_rev, fold_sink_filter, app_nil_r, filter_rev by auto.
  apply rev_involutive.
Qed.

End Stable.

(** *** Order: on elements where [less] is a strict weak order, no element
    of the result is [less] than an earlier one. *)

Section Ordered.

Variable ok : A -> Prop.
Hypothesis less_asym :
  forall x y, ok x -> ok y -> less x y = true -> less y x = false.
Hypothesis less_negtrans :
  forall x y z, ok x -> ok y -> ok z ->
    less x y = false -> less y z = false -> less x z = false.

Lemma sink_sorted (x : A) (rprefix : list A) :
  ok x -> Forall ok rprefix ->
  StronglySorted (fun a b => less a b = false) rprefix ->
  StronglySorted (fun a b => less a b = false) (sort.sink less x rprefix).
Proof.
  intros Hx. induction rprefix as [|y r IH]; intros Hok Hsorted; simpl.
  - repeat constructor.
  - inversion Hok as [|? ? Hy Hr]; subst.
    apply StronglySorted_inv in Hsorted. destruct Hsorted as [Hsorted Hy_r].
    destruct (less x y) eqn:Exy.
    + constructor; [now apply IH|].
      apply Forall_forall. intros z Hz.
      apply (Permutation_in z (Permutation_sym (sink_Permutation x r))) in Hz.
      destruct Hz as [<-|Hz].
      * now apply less_asym.
      * rewrite Forall_forall in Hy_r. now apply Hy_r.
    + constructor; [now constructor|].
      constructor; [exact Exy|].
      rewrite Forall_forall in *. intros z Hz.
      apply (less_negtrans x y z); auto.
Qed.

Lemma fold_sink_sorted (data : list A) : forall rprefix,
  Forall ok data -> Forall ok rprefix ->
  StronglySorted (fun a b => less a b = false) rprefix ->
  StronglySorted (fun a b => less a b = false)
                 (fold_left (fun r x => sort.sink less x r) data rprefix).
Proof.
  induction data as [|x data IH]; intros rprefix Hdata Hok Hsorted; simpl;
    [exact Hsorted|].
  inversion Hdata as [|? ? Hx Hdata']; subst.
  apply IH; [exact Hdata'| |now apply sink_sorted].
  apply Forall_forall. intros z Hz.
  apply (Permutation_in z (Permutation_sym (sink_Permutation x rprefix))) in Hz.
  destruct Hz as [<-|Hz]; [exact Hx|].
  rewrite Forall_forall in Hok. now apply Hok.
Qed.

Lemma StronglySorted_snoc (R : A -> A -> Prop) (l : list A) (a : A) :
  StronglySorted R l -> Forall (fun b => R b a) l -> StronglySorted R (l ++ [a]).
Proof.
  induction l as [|b l IH]; intros Hs Hall; simpl.
  - repeat constructor.
  - apply StronglySorted_inv in Hs. destruct Hs as [Hs Hb].
    inversion Hall; subst.
    constructor; [now apply IH|].
    apply Forall_app. split; [exact Hb|now constructor].
Qed.

Lemma StronglySorted_rev (R : A -> A -> Prop) (l : list A) :
  StronglySorted R l -> StronglySorted (fun a b => R b a) (rev l).
Proof.
  induction l as [|a l IH]; intros Hs; simpl; [constructor|].
  apply StronglySorted_inv in Hs. destruct Hs as [Hs Ha].
  apply StronglySorted_snoc; [now apply IH|].
  now apply Forall_rev.
Qed.

Lemma insertionSort_sorted (data : list A) :
  Forall ok data ->
  StronglySorted (fun a b => less b a = false) (sort.insertionSort less data).
Proof.
  intros Hok. unfold sort.insertionSort.
  apply (StronglySorted_rev (fun a b => less a b = false)).
  apply fold_sink_sorted; [exact Hok|constructor|constructor].
Qed.

Lemma less_irrefl (x : A) : ok x -> less x x = false.
Proof.
  intros Hx. destruct (less x x) eqn:E; [|reflexivity].
  now rewrite (less_asym x x Hx Hx E) in E.
Qed.

Lemma tied_class (x y z : A) :
  ok x -> ok y -> ok z ->
  sort.tied less x y = true -> sort.tied less x z = true -> less y z = false.
Proof.
  unfold sort.tied. intros Hx Hy Hz Hxy Hxz.
  apply andb_true_iff in Hxy, Hxz.
  destruct Hxy as [_ Hyx], Hxz as [Hxz _].
  apply negb_true_iff in Hyx, Hxz.
  exact (less_negtrans y x z Hy Hx Hz Hyx Hxz).
Qed.

(** Two arrangements of the same elements that are both in order and keep
    tied elements in the same relative order are the same list. *)
Lemma stable_sorted_unique (r1 : list A) : forall r2,
  Forall ok r1 ->
  Permutation r1 r2 ->
  StronglySorted (fun a b => less b a = false) r1 ->
  StronglySorted (fun a b => less b a = false) r2 ->
  (forall x, ok x ->
     filter (sort.tied less x) r1 = filter (sort.tied less x) r2) ->
  r1 = r2.
Proof.
  induction r1 as [|a r1 IH]; intros r2 Hok Hperm Hs1 Hs2 Hst.
  - now apply Permutation_nil in Hperm.
  - destruct r2 as [|b r2];
      [apply Permutation_sym, Permutation_nil in Hperm; discriminate|].
    inversion Hok as [|? ? Ha Hok1]; subst.
    apply StronglySorted_inv in Hs1. destruct Hs1 as [Hs1 Hmin1].
    apply StronglySorted_inv in Hs2. destruct Hs2 as [Hs2 Hmin2].
    rewrite Forall_forall in Hmin1, Hmin2.
    assert (Hb : ok b).
    { rewrite Forall_forall in Hok. apply Hok.
      apply (Permutation_in b (Permutation_sym Hperm)). now left. }
    assert (Hba : less b a = false).
    { destruct (Permutation_in b (Permutation_sym Hperm) (or_introl eq_refl))
        as [<-|Hin]; [now apply less_irrefl|now apply Hmin1]. }
    assert (Hab : less a b = false).
    { destruct (Permutation_in a Hperm (or_introl eq_refl))
        as [<-|Hin]; [now apply less_irrefl|now apply Hmin2]. }
    pose proof (Hst a Ha) as Hclass. cbn [filter] in Hclass.
    assert (Haa : sort.tied less a a = true)
      by (unfold sort.tied; now rewrite (less_irrefl a Ha)).
    assert (Htie : sort.tied less a b = true)
      by (unfold sort.tied; now rewrite Hab, Hba).
    rewrite Haa, Htie in Hclass.
    injection Hclass as <- _.
    f_equal. apply IH; auto.
    + now apply Permutation_cons_inv in Hperm.
    + intros x Hx. pose proof (Hst x Hx) as Hx'. cbn [filter] in Hx'.
      destruct (sort.tied less x a); [now injection Hx'|exact Hx'].
Qed.

(** Hence whatever stable sort the library runs returns what the insertion
    sort returns. *)
Lemma insertionSort_canonical (data r : list A) :
  Forall ok data ->
  Permutation data r ->
  StronglySorted (fun a b => less b a = false) r ->
  (forall x, ok x ->
     filter (sort.tied less x) r = filter (sort.tied less x) data) ->
  r = sort.insertionSort less data.
Proof.
  intros Hok Hperm Hsorted Hstable.
  assert (Hr : Forall ok r).
  { rewrite Forall_forall in *. intros z Hz. apply Hok.
    now apply (Permutation_in z (Permutation_sym Hperm)). }
  apply stable_sorted_unique; auto.
  - rewrite <- Hperm. apply insertionSort_Permutation.
  - now apply insertionSort_sorted.
  - intros x Hx. rewrite Hstable by exact Hx. symmetry.
    apply (insertionSort_filter ok); [|exact Hok].
    intros y z Hy Hz. now apply tied_class.
Qed.

(** *** Merging two blocks that are in order *)

Lemma inOrder_app (l1 l2 : list A) :
  StronglySorted (fun a b => less b a = false) (l1 ++ l2) <->
  StronglySorted (fun a b => less b a = false) l1 /\
  StronglySorted (fun a b => less b a = false) l2 /\
  (forall x y, In x l1 -> In y l2 -> less y x = false).
Proof.
  induction l1 as [|a l1 IH]; cbn [app].
  - split; [intros H; repeat split; [constructor|exact H|contradiction]|].
    now intros (_ & H & _).
  - split.
    + intros H. apply StronglySorted_inv in H. destruct H as [H Ha].
      apply IH in H. destruct H as (H1 & H2 & Hx).
      rewrite Forall_app in Ha. destruct Ha as [Ha1 Ha2].
      repeat split; [now constructor|exact H2|].
      intros x y [<-|Hin] Hy; [|now apply Hx].
      rewrite Forall_forall in Ha2. now apply Ha2.
    + intros (H1 & H2 & Hx).
      apply StronglySorted_inv in H1. destruct H1 as [H1 Ha].
      constructor.
      * apply IH. repeat split; [exact H1|exact H2|].
        intros x y Hin. apply Hx. now right.
      * apply Forall_app. split; [exact Ha|].
        apply Forall_forall. intros y Hy. apply Hx; [now left|exact Hy].
Qed.

Lemma less_before (x y z : A) :
  ok x -> ok y -> ok z ->
  less y x = false -> less y z = true -> less x z = true.
Proof.
  intros Hx Hy Hz Hyx Hyz. destruct (less x z) eqn:E; [reflexivity|].
  now rewrite (less_negtrans y x z Hy Hx Hz Hyx E) in Hyz.
Qed.

Lemma less_after (x y z : A) :
  ok x -> ok y -> ok z ->
  less x y = true -> less z y = false -> less x z = true.
Proof.
  intros Hx Hy Hz Hxy Hzy. destruct (less x z) eqn:E; [reflexivity|].
  now rewrite (less_negtrans x z y Hx Hz Hy E Hzy) in Hxy.
Qed.

Lemma inOrder_last (l : list A) (v x : A) :
  Forall ok (l ++ [v]) ->
  StronglySorted (fun a b => less b a = false) (l ++ [v]) ->
  In x (l ++ [v]) -> less v x = false.
Proof.
  intros Hok Hs Hin. apply inOrder_app in Hs. destruct Hs as (_ & _ & Hs).
  apply in_app_or in Hin. destruct Hin as [Hin|[<-|[]]].
  - apply Hs; [exact Hin|now left].
  - apply less_irrefl. rewrite Forall_forall in Hok. apply Hok.
    apply in_or_app. right. now left.
Qed.

Lemma inOrder_head (l : list A) (u y : A) :
  ok u ->
  StronglySorted (fun a b => less b a = false) (u :: l) ->
  In y (u :: l) -> less y u = false.
Proof.
  intros Hu Hs [<-|Hin]; [now apply less_irrefl|].
  apply StronglySorted_inv in Hs. destruct Hs as [_ Hs].
  rewrite Forall_forall in Hs. now apply Hs.
Qed.

(** Every element of [V1] is [less] than every element of [U2], given that
    the last of [V1] is [less] than the first of [U2]. *)
Lemma blocks_less (U2 V1 : list A) :
  Forall ok U2 -> Forall ok V1 ->
  StronglySorted (fun a b => less b a = false) U2 ->
  StronglySorted (fun a b => less b a = false) V1 ->
  (forall u U2' v V1', U2 = u :: U2' -> V1 = V1' ++ [v] -> less v u = true) ->
  forall v u, In v V1 -> In u U2 -> less v u = true.
Proof.
  intros HU HV HsU HsV Hcut v' u' Hv' Hu'.
  destruct U2 as [|u U2']; [contradiction|].
  destruct (exists_last (l := V1)) as (V1' & v & ->);
    [intros ->; contradiction|].
  specialize (Hcut u U2' v V1' eq_refl eq_refl).
  rewrite Forall_forall in HU, HV.
  assert (Hu : ok u) by (apply HU; now left).
  assert (Hv : ok v) by (apply HV, in_or_app; right; now left).
  rewrite <- Forall_forall in HU, HV.
  pose proof (inOrder_last V1' v v' HV HsV Hv') as H1.
  pose proof (inOrder_head U2' u u' Hu HsU Hu') as H2.
  rewrite Forall_forall in HU, HV.
  apply (less_after v' u u'); auto.
  apply (less_before v' v u); auto.
Qed.

(** No element of [V2] is [less] than an element of [U1], given that the
    first of [V2] is not [less] than the last of [U1]. *)
Lemma blocks_not_less (U1 V2 : list A) :
  Forall ok U1 -> Forall ok V2 ->
  StronglySorted (fun a b => less b a = false) U1 ->
  StronglySorted (fun a b => less b a = false) V2 ->
  (forall u U1' v V2', U1 = U1' ++ [u] -> V2 = v :: V2' -> less v u = false) ->
  forall u v, In u U1 -> In v V2 -> less v u = false.
Proof.
  intros HU HV HsU HsV Hcut u' v' Hu' Hv'.
  destruct V2 as [|v V2']; [contradiction|].
  destruct (exists_last (l := U1)) as (U1' & u & ->);
    [intros ->; contradiction|].
  specialize (Hcut u U1' v V2' eq_refl eq_refl).
  rewrite Forall_forall in HU, HV.
  assert (Hu : ok u) by (apply HU, in_or_app; right; now left).
  assert (Hv : ok v) by (apply HV; now left).
  rewrite <- Forall_forall in HU, HV.
  pose proof (inOrder_last U1' u u' HU HsU Hu') as H1.
  pose proof (inOrder_head V2' v v' Hv HsV Hv') as H2.
  rewrite Forall_forall in HU, HV.
  apply (less_negtrans v' u u'); auto.
  apply (less_negtrans v' v u); auto.
Qed.

Lemma merges_nil_l (V : list A) :
  StronglySorted (fun a b => less b a = false) V -> merges less ok [] V V.
Proof. intros H. now split. Qed.

Lemma merges_nil_r (U : list A) :
  StronglySorted (fun a b => less b a = false) U -> merges less ok U [] (U ++ []).
Proof. intros H. rewrite app_nil_r. split; [exact H|]. now rewrite app_nil_r. Qed.

Lemma merges_halves (U1 U2 V1 V2 R1 R2 : list A) :
  Forall ok (U1 ++ U2) -> Forall ok (V1 ++ V2) ->
  StronglySorted (fun a b => less b a = false) (U1 ++ U2) ->
  StronglySorted (fun a b => less b a = false) (V1 ++ V2) ->
  (forall v u, In v V1 -> In u U2 -> less v u = true) ->
  (forall u v, In u U1 -> In v V2 -> less v u = false) ->
  Permutation (U1 ++ V1) R1 -> merges less ok U1 V1 R1 ->
  Permutation (U2 ++ V2) R2 -> merges less ok U2 V2 R2 ->
  merges less ok (U1 ++ U2) (V1 ++ V2) (R1 ++ R2).
Proof.
  intros HokU HokV HsU HsV Hless Hnot Hp1 [Hs1 Hf1] Hp2 [Hs2 Hf2].
  apply inOrder_app in HsU, HsV.
  destruct HsU as (HsU1 & HsU2 & HU), HsV as (HsV1 & HsV2 & HV).
  rewrite Forall_app in HokU, HokV.
  destruct HokU as [HokU1 HokU2], HokV as [HokV1 HokV2].
  rewrite Forall_forall in HokU1, HokU2, HokV1, HokV2.
  split.
  - apply inOrder_app. repeat split; [exact Hs1|exact Hs2|].
    intros x y Hx Hy.
    apply (Permutation_in x (Permutation_sym Hp1)) in Hx.
    apply (Permutation_in y (Permutation_sym Hp2)) in Hy.
    apply in_app_or in Hx, Hy.
    destruct Hx as [Hx|Hx], Hy as [Hy|Hy]; auto.
  - intros z Hz.
    rewrite filter_app, Hf1, Hf2, !filter_app by exact Hz.
    rewrite <- !app_assoc. f_equal.
    destruct (filter (sort.tied less z) V1) as [|v fV1] eqn:EV;
      [reflexivity|].
    destruct (filter (sort.tied less z) U2) as [|u fU2] eqn:EU;
      [reflexivity|].
    assert (Hv : In v (filter (sort.tied less z) V1)) by (rewrite EV; now left).
    assert (Hu : In u (filter (sort.tied less z) U2)) by (rewrite EU; now left).
    apply filter_In in Hv, Hu. destruct Hv as [Hv Hzv], Hu as [Hu Hzu].
    pose proof (tied_class z v u Hz (HokV1 v Hv) (HokU2 u Hu) Hzv Hzu) as E.
    now rewrite (Hless v u Hv Hu) in E.
Qed.

Lemma symMerge_merges (fuel : nat) : forall U V : list A,
  List.length U + List.length V <= fuel ->
  Forall ok U -> Forall ok V ->
  StronglySorted (fun a b => less b a = false) U ->
  StronglySorted (fun a b => less b a = false) V ->
  merges less ok U V (sort.symMerge less fuel (U ++ V) (List.length U)).
Proof.
  induction fuel as [|fuel IH]; intros U V Hfuel HokU HokV HsU HsV.
  - destruct U, V; cbn [List.length] in Hfuel; try lia.
    split; [constructor|reflexivity].
  - destruct (Nat.eq_dec (List.length U) 1) as [HU|HU].
    + destruct U as [|u [|? ?]]; try discriminate.
      destruct (symMerge_insert_left fuel u V)
        as (V1 & V2 & -> & E & Hless & Hnot).
      cbn [app List.length]. rewrite E.
      assert (HsV' := HsV). apply inOrder_app in HsV'.
      destruct HsV' as (HsV1 & HsV2 & _).
      assert (HokV' := HokV). rewrite Forall_app in HokV'.
      destruct HokV' as [HokV1 HokV2].
      apply (merges_halves [] [u] V1 V2 V1 (u :: V2));
        [exact HokU|exact HokV|exact HsU|exact HsV| | |reflexivity|
         now apply merges_nil_l|reflexivity|].
      * apply blocks_less; auto.
        intros u0 U2' v V1' Eu EV1. injection Eu as <- <-.
        now apply (Hless v V1').
      * intros ? ? [].
      * split; [|reflexivity].
        constructor; [exact HsV2|].
        apply Forall_forall. intros v Hv.
        apply (blocks_not_less [u] V2); auto; [|now left].
        intros u0 U1' v0 V2' Eu EV2.
        destruct U1' as [|? [|? ?]]; try discriminate.
        injection Eu as <-. now apply (Hnot v0 V2').
    + destruct (Nat.eq_dec (List.length V) 1) as [HV|HV].
      * destruct V as [|v [|? ?]]; try discriminate.
        destruct (symMerge_insert_right fuel U v HU)
          as (U1 & U2 & EU & E & Hnot & Hless).
        rewrite E. subst U.
        replace (U1 ++ v :: U2) with ((U1 ++ [v]) ++ U2)
          by (now rewrite <- app_assoc).
        assert (HsU' := HsU). apply inOrder_app in HsU'.
        destruct HsU' as (HsU1 & HsU2 & _).
        assert (HokU' := HokU). rewrite Forall_app in HokU'.
        destruct HokU' as [HokU1 HokU2].
        apply (merges_halves U1 U2 [v] [] (U1 ++ [v]) U2);
          [exact HokU|exact HokV|exact HsU|exact HsV| | |reflexivity|
           |now rewrite app_nil_r|].
        -- apply blocks_less; auto.
           intros u U2' v0 V1' EU2 Ev.
           destruct V1' as [|? [|? ?]]; try discriminate.
           injection Ev as <-. now apply (Hless u U2').
        -- intros ? ? _ [].
        -- split; [|reflexivity].
           apply inOrder_app. repeat split; auto.
           intros x y Hx [<-|[]].
           apply (blocks_not_less U1 [v]); auto; [|now left].
           intros u U1' v0 V2' EU1 Ev. injection Ev as <- <-.
           now apply (Hnot u U1').
        -- rewrite <- (app_nil_r U2) at 2. now apply merges_nil_r.
      * destruct (symMerge_halves fuel U V HU HV)
          as (U1 & U2 & V1 & V2 & EU & EV & Hmid & E & Hless & Hnot).
        rewrite E. subst U V.
        rewrite !length_app in Hfuel.
        assert (Hhalf : 2 * (List.length U1 + List.length V1)
                        <= List.length U1 + List.length U2
                           + (List.length V1 + List.length V2)
                        <= 2 * (List.length U1 + List.length V1) + 1).
        { rewrite Hmid, !length_app.
          pose proof (Nat.div_mod_eq
                        (List.length U1 + List.length U2
                         + (List.length V1 + List.length V2)) 2).
          pose proof (Nat.mod_upper_bound
                        (List.length U1 + List.length U2
                         + (List.length V1 + List.length V2)) 2).
          lia. }
        clear Hmid E.
        assert (HsU' := HsU). apply inOrder_app in HsU'.
        destruct HsU' as (HsU1 & HsU2 & _).
        assert (HsV' := HsV). apply inOrder_app in HsV'.
        destruct HsV' as (HsV1 & HsV2 & _).
        assert (HokU' := HokU). rewrite Forall_app in HokU'.
        destruct HokU' as [HokU1 HokU2].
        assert (HokV' := HokV). rewrite Forall_app in HokV'.
        destruct HokV' as [HokV1 HokV2].
        apply merges_halves;
          [exact HokU|exact HokV|exact HsU|exact HsV| | | | | |].
        -- now apply blocks_less.
        -- now apply blocks_not_less.
        -- destruct (Nat.ltb_spec 0 (List.length U1)),
                    (Nat.ltb_spec 0 (List.length V1));
             cbn [andb]; try reflexivity.
           apply symMerge_Permutation.
        -- destruct (Nat.ltb_spec 0 (List.length U1)) as [H1|H1],
                    (Nat.ltb_spec 0 (List.length V1)) as [H2|H2];
             cbn [andb].
           ++ apply IH; auto. lia.
           ++ destruct V1; [|cbn [List.length] in H2; lia].
              now apply merges_nil_r.
           ++ destruct U1; [|cbn [List.length] in H1; lia].
              now apply merges_nil_l.
           ++ destruct U1; [|cbn [List.length] in H1; lia].
              now apply merges_nil_l.
        -- destruct (Nat.ltb_spec 0 (List.length U2)),
                    (Nat.ltb_spec 0 (List.length V2));
             cbn [andb]; try reflexivity.
           apply symMerge_Permutation.
        -- destruct (Nat.ltb_spec 0 (List.length U2)) as [H1|H1],
                    (Nat.ltb_spec 0 (List.length V2)) as [H2|H2];
             cbn [andb].
           ++ apply IH; auto. lia.
           ++ destruct V2; [|cbn [List.length] in H2; lia].
              now apply merges_nil_r.
           ++ destruct U2; [|cbn [List.length] in H1; lia].
              now apply merges_nil_l.
           ++ destruct U2; [|cbn [List.length] in H1; lia].
              now apply merges_nil_l.
Qed.

(** *** The block and merge passes build what the insertion sort builds *)

Lemma insertionSort_length (data : list A) :
  List.length (sort.insertionSort less data) = List.length data.
Proof. symmetry. apply Permutation_length, insertionSort_Permutation. Qed.

Lemma symMerge_func_insertionSort (X Y : list A) :
  Forall ok X -> Forall ok Y ->
  sort.symMerge_func less
    (sort.insertionSort less X ++ sort.insertionSort less Y) (List.length X)
  = sort.insertionSort less (X ++ Y).
Proof.
  intros HX HY. unfold sort.symMerge_func.
  set (U := sort.insertionSort less X). set (V := sort.insertionSort less Y).
  assert (HpU : Permutation X U) by apply insertionSort_Permutation.
  assert (HpV : Permutation Y V) by apply insertionSort_Permutation.
  assert (HU : Forall ok U).
  { rewrite Forall_forall in *. intros z Hz. apply HX.
    now apply (Permutation_in z (Permutation_sym HpU)). }
  assert (HV : Forall ok V).
  { rewrite Forall_forall in *. intros z Hz. apply HY.
    now apply (Permutation_in z (Permutation_sym HpV)). }
  rewrite (Permutation_length HpU).
  destruct (symMerge_merges (List.length (U ++ V)) U V) as [Hsorted Hstable];
    [rewrite length_app; lia|exact HU|exact HV| | |].
  - now apply insertionSort_sorted.
  - now apply insertionSort_sorted.
  - apply insertionSort_canonical.
    + apply Forall_app. now split.
    + rewrite <- symMerge_Permutation. now apply Permutation_app.
    + exact Hsorted.
    + intros z Hz. rewrite Hstable, !filter_app by exact Hz.
      unfold U, V. f_equal;
        apply (insertionSort_filter ok); auto;
        intros x y Hx Hy; now apply tied_class.
Qed.

Lemma insertionSortBlocks_length (fuel blockSize : nat) (data : list A) :
  List.length (sort.insertionSortBlocks less fuel blockSize data)
  = List.length data.
Proof. symmetry. apply Permutation_length, insertionSortBlocks_Permutation. Qed.

Lemma insertionSortBlocks_small (fuel blockSize : nat) (data : list A) :
  0 < blockSize -> List.length data <= blockSize ->
  sort.insertionSortBlocks less fuel blockSize data
  = sort.insertionSort less data.
Proof.
  intros Hpos Hlen. destruct fuel as [|fuel]; [reflexivity|].
  cbn [sort.insertionSortBlocks].
  destruct (Nat.leb_spec blockSize (List.length data)); [|reflexivity].
  rewrite firstn_all2, skipn_all2 by lia.
  replace (sort.insertionSortBlocks less fuel blockSize [])
    with (@nil A); [apply app_nil_r|].
  destruct fuel as [|fuel]; [reflexivity|]. cbn [sort.insertionSortBlocks].
  destruct (Nat.leb_spec blockSize (List.length (@nil A))) as [H0|H0];
    [cbn [List.length] in H0; lia|reflexivity].
Qed.

Lemma firstn_add (n k : nat) : forall l : list A,
  firstn (n + k) l = firstn n l ++ firstn k (skipn n l).
Proof.
  induction n as [|n IH]; intros l; [reflexivity|].
  destruct l as [|x l]; [now rewrite skipn_nil, !firstn_nil|].
  cbn [firstn skipn Nat.add app]. f_equal. apply IH.
Qed.

Lemma firstn_twice (n : nat) (l : list A) :
  firstn n l ++ firstn n (skipn n l) = firstn (2 * n) l.
Proof. replace (2 * n) with (n + n) by lia. symmetry. apply firstn_add. Qed.

Lemma mergeBlocks_doubles (blockSize : nat) :
  0 < blockSize ->
  forall fuel data fuel1 fuel2,
    List.length data <= fuel -> List.length data <= fuel1 ->
    List.length data <= fuel2 -> Forall ok data ->
    sort.mergeBlocks less fuel blockSize
      (sort.insertionSortBlocks less fuel1 blockSize data)
    = sort.insertionSortBlocks less fuel2 (2 * blockSize) data.
Proof.
  intros Hpos. induction fuel as [|fuel IH];
    intros data fuel1 fuel2 Hfuel Hfuel1 Hfuel2 Hok.
  - rewrite !insertionSortBlocks_small by lia. reflexivity.
  - cbn [sort.mergeBlocks]. rewrite insertionSortBlocks_length.
    destruct (Nat.leb_spec (2 * blockSize) (List.length data)) as [H2|H2].
    + destruct fuel1 as [|[|fuel1]]; try lia.
      destruct fuel2 as [|fuel2]; try lia.
      cbn [sort.insertionSortBlocks].
      rewrite length_skipn.
      replace (blockSize <=? List.length data) with true
        by (symmetry; apply Nat.leb_le; lia).
      replace (blockSize <=? List.length data - blockSize) with true
        by (symmetry; apply Nat.leb_le; lia).
      replace (2 * blockSize <=? List.length data) with true
        by (symmetry; apply Nat.leb_le; lia).
      set (d1 := firstn blockSize data).
      set (d2 := firstn blockSize (skipn blockSize data)).
      assert (Hd1 : List.length d1 = blockSize)
        by (unfold d1; rewrite length_firstn; lia).
      assert (Hd2 : List.length d2 = blockSize)
        by (unfold d2; rewrite length_firstn, length_skipn; lia).
      rewrite skipn_skipn.
      replace (blockSize + blockSize) with (2 * blockSize) by lia.
      rewrite app_assoc.
      rewrite firstn_app_left, skipn_app_right
        by (rewrite length_app, !insertionSort_length; lia).
      rewrite firstn_all2 by (rewrite length_app, !insertionSort_length; lia).
      rewrite length_app, !insertionSort_length.
      replace (2 * blockSize - (List.length d1 + List.length d2)) with 0 by lia.
      cbn [skipn].
      rewrite <- Hd1 at 1.
      assert (Hrest : Forall ok (skipn (2 * blockSize) data)).
      { rewrite Forall_forall in *. intros z Hz. apply Hok.
        rewrite <- (firstn_skipn (2 * blockSize) data).
        apply in_or_app. now right. }
      assert (Hfirst : Forall ok (firstn (2 * blockSize) data)).
      { rewrite Forall_forall in *. intros z Hz. apply Hok.
        rewrite <- (firstn_skipn (2 * blockSize) data).
        apply in_or_app. now left. }
      assert (E12 : d1 ++ d2 = firstn (2 * blockSize) data)
        by apply firstn_twice.
      rewrite symMerge_func_insertionSort.
      * rewrite E12. f_equal.
        apply IH; auto; rewrite length_skipn; lia.
      * rewrite <- E12 in Hfirst. now apply Forall_app in Hfirst.
      * rewrite <- E12 in Hfirst. now apply Forall_app in Hfirst.
    + rewrite (insertionSortBlocks_small fuel2) by lia.
      destruct (Nat.ltb_spec blockSize (List.length data)) as [H1|H1].
      * destruct fuel1 as [|fuel1]; try lia.
        cbn [sort.insertionSortBlocks].
        replace (blockSize <=? List.length data) with true
          by (symmetry; apply Nat.leb_le; lia).
        rewrite insertionSortBlocks_small by (rewrite ?length_skipn; lia).
        assert (Hd1 : List.length (firstn blockSize data) = blockSize)
          by (rewrite length_firstn; lia).
        rewrite <- Hd1 at 3.
        assert (Hok' : Forall ok (firstn blockSize data ++ skipn blockSize data))
          by now rewrite firstn_skipn.
        apply Forall_app in Hok'.
        rewrite symMerge_func_insertionSort by tauto.
        now rewrite firstn_skipn.
      * now rewrite insertionSortBlocks_small by lia.
Qed.

Lemma mergePasses_sorts (fuel : nat) : forall blockSize data fuel1,
  0 < blockSize ->
  List.length data - blockSize <= fuel -> List.length data <= fuel1 ->
  Forall ok data ->
  sort.mergePasses less fuel blockSize
    (sort.insertionSortBlocks less fuel1 blockSize data)
  = sort.insertionSort less data.
Proof.
  induction fuel as [|fuel IH]; intros blockSize data fuel1 Hpos Hfuel Hfuel1 Hok.
  - cbn [sort.mergePasses]. apply insertionSortBlocks_small; lia.
  - cbn [sort.mergePasses]. rewrite insertionSortBlocks_length.
    destruct (Nat.ltb_spec blockSize (List.length data)) as [H|H].
    + rewrite (mergeBlocks_doubles blockSize Hpos _ _ _ (List.length data))
        by auto.
      apply IH; auto; lia.
    + apply insertionSortBlocks_small; lia.
Qed.

(** On elements that [less] orders strictly and weakly, the library's stable
    sort returns what one insertion sort over the whole slice returns. *)
Lemma SliceStable_insertionSort (data : list A) :
  Forall ok data -> sort.SliceStable less data = sort.insertionSort less data.
Proof.
  intros Hok. unfold sort.SliceStable, sort.stable_func.
  apply mergePasses_sorts; auto; lia.
Qed.

Lemma SliceStable_sorted (data : list A) :
  Forall ok data ->
  StronglySorted (fun a b => less b a = false) (sort.SliceStable less data).
Proof.
  intros Hok. rewrite SliceStable_insertionSort by exact Hok.
  now apply insertionSort_sorted.
Qed.

Lemma SliceStable_canonical (data r : list A) :
  Forall ok data ->
  Permutation data r ->
  StronglySorted (fun a b => less b a = false) r ->
  (forall x, ok x ->
     filter (sort.tied less x) r = filter (sort.tied less x) data) ->
  r = sort.SliceStable less data.
Proof.
  intros Hok Hperm Hsorted Hstable.
  rewrite SliceStable_insertionSort by exact Hok.
  now apply insertionSort_canonical.
Qed.

(** Stability: a class of elements none of which is [less] than another
    keeps its order. *)
Lemma SliceStable_filter (class : A -> bool) (data : list A) :
  (forall x y, ok x -> ok y -> class x = true -> class y = true ->
     less x y = false) ->
  Forall ok data ->
  filter class (sort.SliceStable less data) = filter class data.
Proof.
  intros Hclass Hok. rewrite SliceStable_insertionSort by exact Hok.
  now apply (insertionSort_filter ok).
Qed.


End Ordered.

Lemma StronglySorted_weaken (R R' : A -> A -> Prop) (l : list A) :
  (forall a b, In a l -> In b l -> R a b -> R' a b) ->
  StronglySorted R l -> StronglySorted R' l.
Proof.
  induction l as [|a l IH]; intros Himp Hs; [constructor|].
  apply StronglySorted_inv in Hs. destruct Hs as [Hs Ha].
  constructor.
  - apply IH; [|exact Hs]. intros x y Hx Hy. apply Himp; now right.
  - rewrite Forall_forall in *. intros b Hb.
    apply Himp; [now left|now right|now apply Ha].
Qed.


End SliceStableFacts.

(** ** The orders the sort keys are compared in *)

Lemma lexcmp_Lt (p q : Z * Z * Z) : lexcmp p q = Lt <-> lexlt p q.
Proof.
  destruct p as [[a b] c], q as [[a' b'] c']. unfold lexcmp, lexlt.
  destruct (Z.compare_spec a a'), (Z.compare_spec b b'), (Z.compare_spec c c');
    split; intros Hgoal; try discriminate; try reflexivity; lia.
Qed.

Lemma lexcmp_Eq (p q : Z * Z * Z) : lexcmp p q = Eq <-> p = q.
Proof.
  destruct p as [[a b] c], q as [[a' b'] c']. unfold lexcmp.
  destruct (Z.compare_spec a a'), (Z.compare_spec b b'), (Z.compare_spec c c');
    split; intros Hgoal; try discriminate; try reflexivity;
    try (injection Hgoal as -> -> ->); subst; try lia; reflexivity.
Qed.

Lemma lexcmp_Gt (p q : Z * Z * Z) : lexcmp p q = Gt <-> lexlt q p.
Proof.
  destruct p as [[a b] c], q as [[a' b'] c']. unfold lexcmp, lexlt.
  destruct (Z.compare_spec a a'), (Z.compare_spec b b'), (Z.compare_spec c c');
    split; intros Hgoal; try discriminate; try reflexivity; lia.
Qed.

Lemma lexlt_trans (p q r : Z * Z * Z) : lexlt p q -> lexlt q r -> lexlt p r.
Proof.
  destruct p as [[a b] c], q as [[a' b'] c'], r as [[a'' b''] c''].
  unfold lexlt. lia.
Qed.

Lemma lexlt_irrefl (p : Z * Z * Z) : ~ lexlt p p.
Proof. destruct p as [[a b] c]. unfold lexlt. lia. Qed.

Lemma SFcompare_rank (x y : spec_float) :
  x <> S754_nan -> y <> S754_nan ->
  SFcompare x y = Some (lexcmp (SFrank x) (SFrank y)).
Proof.
  intros Hx Hy.
  destruct x as [sx|sx| |sx mx ex], y as [sy|sy| |sy my ey];
    try contradiction; try (destruct sx); try (destruct sy); try reflexivity.
  cbn [SFcompare SFrank lexcmp]. rewrite Z.compare_opp.
  rewrite (Z.compare_antisym ex ey).
  destruct (ex ?= ey); reflexivity.
Qed.

Lemma SFeqb_not_nan (x y : spec_float) :
  SFeqb x y = true -> x <> S754_nan /\ y <> S754_nan.
Proof.
  unfold SFeqb. destruct x, y; simpl; intros H; split; congruence.
Qed.

Lemma fgt_not_nan (x y : spec_float) :
  fgt x y = true -> x <> S754_nan /\ y <> S754_nan.
Proof.
  unfold fgt, SFltb. destruct x, y; simpl; intros H; split; congruence.
Qed.

Lemma fgt_asym (x y : spec_float) : fgt x y = true -> fgt y x = false.
Proof.
  intros Hxy. destruct (fgt_not_nan _ _ Hxy) as [Hx Hy].
  revert Hxy. unfold fgt, SFltb.
  rewrite !SFcompare_rank by assumption.
  destruct (lexcmp (SFrank y) (SFrank x)) eqn:E1; try discriminate; intros _.
  destruct (lexcmp (SFrank x) (SFrank y)) eqn:E2; try reflexivity.
  apply lexcmp_Lt in E1, E2. exfalso.
  exact (lexlt_irrefl _ (lexlt_trans _ _ _ E1 E2)).
Qed.

Lemma fgt_negtrans (x y z : spec_float) :
  x <> S754_nan -> y <> S754_nan -> z <> S754_nan ->
  fgt x y = false -> fgt y z = false -> fgt x z = false.
Proof.
  intros Hx Hy Hz. unfold fgt, SFltb.
  rewrite !SFcompare_rank by assumption.
  destruct (lexcmp (SFrank y) (SFrank x)) eqn:E1; try discriminate; intros _;
    (destruct (lexcmp (SFrank z) (SFrank y)) eqn:E2; try discriminate; intros _);
    destruct (lexcmp (SFrank z) (SFrank x)) eqn:E3; try reflexivity; exfalso;
    apply lexcmp_Lt in E3;
    try apply lexcmp_Eq in E1; try apply lexcmp_Eq in E2;
    try apply lexcmp_Gt in E1; try apply lexcmp_Gt in E2.
  - rewrite E2, E1 in E3. exact (lexlt_irrefl _ E3).
  - rewrite <- E1 in E3. exact (lexlt_irrefl _ (lexlt_trans _ _ _ E2 E3)).
  - rewrite E2 in E3. exact (lexlt_irrefl _ (lexlt_trans _ _ _ E1 E3)).
  - exact (lexlt_irrefl _ (lexlt_trans _ _ _ E1 (lexlt_trans _ _ _ E2 E3))).
Qed.

(** Between numbers, "not greater" is "less or equal". *)
Lemma fgt_false_SFleb (x y : spec_float) :
  x <> S754_nan -> y <> S754_nan -> fgt x y = false -> SFleb x y = true.
Proof.
  intros Hx Hy. unfold fgt, SFltb, SFleb.
  rewrite (SFcompare_rank y x), (SFcompare_rank x y) by assumption.
  destruct (lexcmp (SFrank y) (SFrank x)) eqn:E1; try discriminate; intros _.
  - apply lexcmp_Eq in E1. rewrite E1.
    now rewrite (proj2 (lexcmp_Eq _ _) eq_refl).
  - apply lexcmp_Gt in E1. apply lexcmp_Lt in E1. now rewrite E1.
Qed.

(** Two floats equal to a third are not greater than one another. *)
Lemma SFeqb_ties (x y v : spec_float) :
  SFeqb x v = true -> SFeqb y v = true -> fgt x y = false.
Proof.
  intros Ex Ey.
  destruct (SFeqb_not_nan _ _ Ex) as [Hx Hv], (SFeqb_not_nan _ _ Ey) as [Hy _].
  unfold SFeqb in Ex, Ey. unfold fgt, SFltb.
  rewrite SFcompare_rank in Ex, Ey |- * by assumption.
  destruct (lexcmp (SFrank x) (SFrank v)) eqn:E1; try discriminate.
  destruct (lexcmp (SFrank y) (SFrank v)) eqn:E2; try discriminate.
  apply lexcmp_Eq in E1, E2. rewrite E1, E2.
  now rewrite (proj2 (lexcmp_Eq _ _) eq_refl).
Qed.

Lemma ascii_compare_refl (a : ascii) : Ascii.compare a a = Eq.
Proof. unfold Ascii.compare. apply N.compare_refl. Qed.

Lemma ascii_compare_trans (a b c : ascii) :
  Ascii.compare a b = Lt -> Ascii.compare b c = Lt -> Ascii.compare a c = Lt.
Proof.
  unfold Ascii.compare. rewrite !N.compare_lt_iff. apply N.lt_trans.
Qed.

Lemma string_compare_refl (s : string) : String.compare s s = Eq.
Proof.
  induction s as [|a s IH]; simpl; [reflexivity|].
  now rewrite ascii_compare_refl.
Qed.

Lemma string_compare_trans (s1 : string) : forall s2 s3,
  String.compare s1 s2 = Lt -> String.compare s2 s3 = Lt ->
  String.compare s1 s3 = Lt.
Proof.
  induction s1 as [|a s1 IH]; intros [|b s2] [|c s3]; simpl;
    try discriminate; try reflexivity.
  destruct (Ascii.compare a b) eqn:Eab; try discriminate;
    destruct (Ascii.compare b c) eqn:Ebc; try discriminate; intros H12 H23.
  - apply Ascii.compare_eq_iff in Eab, Ebc. subst.
    rewrite ascii_compare_refl. now apply (IH s2).
  - apply Ascii.compare_eq_iff in Eab. subst. now rewrite Ebc.
  - apply Ascii.compare_eq_iff in Ebc. subst. now rewrite Eab.
  - now rewrite (ascii_compare_trans a b c).
Qed.

Lemma string_ltb_asym (x y : string) :
  String.ltb x y = true -> String.ltb y x = false.
Proof.
  unfold String.ltb. rewrite (String.compare_antisym y x).
  destruct (String.compare x y); simpl; congruence.
Qed.

Lemma string_ltb_negtrans (x y z : string) :
  String.ltb x y = false -> String.ltb y z = false -> String.ltb x z = false.
Proof.
  unfold String.ltb.
  destruct (String.compare x y) eqn:Exy; try discriminate; intros _;
    (destruct (String.compare y z) eqn:Eyz; try discriminate; intros _).
  - apply String.compare_eq_iff in Exy, Eyz. subst.
    now rewrite string_compare_refl.
  - apply String.compare_eq_iff in Exy. subst. now rewrite Eyz.
  - apply String.compare_eq_iff in Eyz. subst. now rewrite Exy.
  - rewrite String.compare_antisym in Exy, Eyz.
    assert (Hyx : String.compare y x = Lt)
      by (destruct (String.compare y x); simpl in Exy; congruence).
    assert (Hzy : String.compare z y = Lt)
      by (destruct (String.compare z y); simpl in Eyz; congruence).
    rewrite String.compare_antisym.
    now rewrite (string_compare_trans z y x Hzy Hyx).
Qed.

(** "the later name is not before the earlier one" is "earlier <= later". *)
Lemma string_ltb_false_leb (x y : string) :
  String.ltb y x = false -> String.leb x y = true.
Proof.
  unfold String.ltb, String.leb. rewrite (String.compare_antisym y x).
  destruct (String.compare x y); simpl; congruence.
Qed.

Lemma string_ltb_irrefl (x : string) : String.ltb x x = false.
Proof. unfold String.ltb. now rewrite string_compare_refl. Qed.

(** ** strings.ToLower *)

Lemma lowerByte_ascii (c : ascii) :
  (N_of_ascii (strings.lowerByte c) <? 128)%N = (N_of_ascii c <? 128)%N.
Proof.
  destruct c as [[] [] [] [] [] [] [] []]; reflexivity.
Qed.

Lemma lowerByte_idempotent (c : ascii) :
  strings.lowerByte (strings.lowerByte c) = strings.lowerByte c.
Proof.
  destruct c as [[] [] [] [] [] [] [] []]; reflexivity.
Qed.

Lemma isASCII_lowerASCII (s : string) :
  strings.isASCII (strings.lowerASCII s) = strings.isASCII s.
Proof.
  induction s as [|c s IH]; simpl; [reflexivity|].
  now rewrite lowerByte_ascii, IH.
Qed.

Lemma lowerASCII_idempotent (s : string) :
  strings.lowerASCII (strings.lowerASCII s) = strings.lowerASCII s.
Proof.
  induction s as [|c s IH]; simpl; [reflexivity|].
  now rewrite lowerByte_idempotent, IH.
Qed.

(** ** sortProcessesBy *)

Section SortProcessesFacts.

Variable mapUnicodeLower : string -> string.

Lemma sortProcessesBy_Permutation (processes : list ProcessInfo) (sortBy : string) :
  Permutation processes (sortProcessesBy mapUnicodeLower processes sortBy).
Proof.
  unfold sortProcessesBy.
  repeat match goal with |- context [if ?b then _ else _] => destruct b end;
    apply SliceStable_Permutation.
Qed.

Lemma sortProcessesBy_pid (processes : list ProcessInfo) :
  let sorted := sort.SliceStable (fun pi pj => PID pi <? PID pj) processes in
  StronglySorted (fun a b => PID a <= PID b) sorted /\
  forall k, filter (fun p => PID p =? k) sorted
            = filter (fun p => PID p =? k) processes.
Proof.
  split.
  - apply (StronglySorted_weaken (fun a b => (PID b <? PID a) = false)).
    + intros a b _ _ H. now apply Z.ltb_ge in H.
    + apply (SliceStable_sorted _ (fun _ => True)).
      * intros x y _ _ H. apply Z.ltb_lt in H. apply Z.ltb_ge. lia.
      * intros x y z _ _ _ H1 H2.
        apply Z.ltb_ge in H1, H2. apply Z.ltb_ge. lia.
      * apply Forall_forall. trivial.
  - intros k. apply (SliceStable_filter _ (fun _ => True)).
    + intros x y _ _ H. apply Z.ltb_lt in H. apply Z.ltb_ge. lia.
    + intros x y z _ _ _ H1 H2.
      apply Z.ltb_ge in H1, H2. apply Z.ltb_ge. lia.
    + intros x y _ _ Hx Hy. apply Z.eqb_eq in Hx, Hy. apply Z.ltb_ge. lia.
    + apply Forall_forall. trivial.
Qed.

Lemma sortProcessesBy_name (processes : list ProcessInfo) :
  let sorted :=
    sort.SliceStable (fun pi pj => String.ltb (Name pi) (Name pj)) processes in
  StronglySorted (fun a b => String.leb (Name a) (Name b) = true) sorted /\
  forall k, filter (fun p => String.eqb (Name p) k) sorted
            = filter (fun p => String.eqb (Name p) k) processes.
Proof.
  split.
  - apply (StronglySorted_weaken
             (fun a b => String.ltb (Name b) (Name a) = false)).
    + intros a b _ _ H. now apply string_ltb_false_leb.
    + apply (SliceStable_sorted _ (fun _ => True)).
      * intros x y _ _. apply string_ltb_asym.
      * intros x y z _ _ _. apply string_ltb_negtrans.
      * apply Forall_forall. trivial.
  - intros k. apply (SliceStable_filter _ (fun _ => True)).
    + intros x y _ _. apply string_ltb_asym.
    + intros x y z _ _ _. apply string_ltb_negtrans.
    + intros x y _ _ Hx Hy. apply String.eqb_eq in Hx, Hy.
      rewrite Hx, Hy. apply string_ltb_irrefl.
    + apply Forall_forall. trivial.
Qed.

(** The descending float orders, over any float field whose values are
    numbers: on them [>] is a strict weak order. *)
Lemma sortProcessesBy_descending (field : ProcessInfo -> spec_float)
    (processes : list ProcessInfo) :
  let sorted :=
    sort.SliceStable (fun pi pj => fgt (field pi) (field pj)) processes in
  Forall (fun p => field p <> S754_nan) processes ->
  StronglySorted (fun a b => SFleb (field b) (field a) = true) sorted /\
  forall v, filter (fun p => SFeqb (field p) v) sorted
            = filter (fun p => SFeqb (field p) v) processes.
Proof.
  intros sorted Hnum. subst sorted. split.
  - assert (Hnum' : Forall (fun p => field p <> S754_nan)
              (sort.SliceStable (fun pi pj => fgt (field pi) (field pj)) processes)).
    { rewrite Forall_forall in *. intros p Hp. apply Hnum.
      eapply Permutation_in; [|exact Hp].
      apply Permutation_sym, SliceStable_Permutation. }
    apply (StronglySorted_weaken
             (fun a b => fgt (field b) (field a) = false)).
    + rewrite Forall_forall in Hnum'. intros a b Ha Hb H.
      apply fgt_false_SFleb; auto.
    + apply (SliceStable_sorted _ (fun p => field p <> S754_nan)).
      * intros x y _ _. apply fgt_asym.
      * intros x y z. apply fgt_negtrans.
      * exact Hnum.
  - intros v. apply (SliceStable_filter _ (fun p => field p <> S754_nan)).
    + intros x y _ _. apply fgt_asym.
    + intros x y z. apply fgt_negtrans.
    + intros x y _ _. apply SFeqb_ties.
    + exact Hnum.
Qed.

(** On at most twenty records the descending sorts keep the records of
    equal percent in their order, NaNs or not. *)
Lemma sortProcessesBy_descending_short (field : ProcessInfo -> spec_float)
    (processes : list ProcessInfo) :
  (List.length processes <= 20)%nat ->
  forall v,
    filter (fun p => SFeqb (field p) v)
           (sort.SliceStable (fun pi pj => fgt (field pi) (field pj)) processes)
    = filter (fun p => SFeqb (field p) v) processes.
Proof.
  intros Hlen v. rewrite SliceStable_short by exact Hlen.
  apply (insertionSort_filter _ (fun _ => True)).
  - intros x y _ _. apply SFeqb_ties.
  - apply Forall_forall. trivial.
Qed.

(** C4, as the code has it. [sortProcessesBy] permutes the records and, by
    the lowered key:
    - "pid": every earlier record has a pid <= every later one;
    - "name": every earlier name is <= every later one, byte-wise;
    - "memory": every earlier memory percent is >= every later one;
    - anything else ("cpu", the empty key, an unrecognised key): every
      earlier CPU percent is >= every later one;
    and the sort is stable: for each key value, the records carrying it
    stand in the result in their original order. For the two percent keys
    the order is that of a list whose percents are numbers, and so is the
    stability on more than twenty records: a NaN compares false both ways,
    [>] is then no ordering and the library's sort promises nothing (on at
    most twenty records it is one insertion sort, which keeps ties in
    place all the same). *)
Theorem sortProcessesBy_ordered_stable (processes : list ProcessInfo)
    (sortBy : string) :
  let key := strings.ToLower mapUnicodeLower sortBy in
  let sorted := sortProcessesBy mapUnicodeLower processes sortBy in
  Permutation processes sorted /\
  (key = "pid" ->
     StronglySorted (fun a b => PID a <= PID b) sorted /\
     forall k, filter (fun p => PID p =? k) sorted
               = filter (fun p => PID p =? k) processes) /\
  (key = "name" ->
     StronglySorted (fun a b => String.leb (Name a) (Name b) = true) sorted /\
     forall k, filter (fun p => String.eqb (Name p) k) sorted
               = filter (fun p => String.eqb (Name p) k) processes) /\
  (key = "memory" ->
     (Forall (fun p => MemoryPercent p <> S754_nan) processes ->
      StronglySorted
        (fun a b => SFleb (MemoryPercent b) (MemoryPercent a) = true) sorted /\
      forall v, filter (fun p => SFeqb (MemoryPercent p) v) sorted
                = filter (fun p => SFeqb (MemoryPercent p) v) processes) /\
     ((List.length processes <= 20)%nat ->
      forall v, filter (fun p => SFeqb (MemoryPercent p) v) sorted
                = filter (fun p => SFeqb (MemoryPercent p) v) processes)) /\
  (key <> "pid" -> key <> "name" -> key <> "memory" ->
     (Forall (fun p => CPUPercent p <> S754_nan) processes ->
      StronglySorted
        (fun a b => SFleb (CPUPercent b) (CPUPercent a) = true) sorted /\
      forall v, filter (fun p => SFeqb (CPUPercent p) v) sorted
                = filter (fun p => SFeqb (CPUPercent p) v) processes) /\
     ((List.length processes <= 20)%nat ->
      forall v, filter (fun p => SFeqb (CPUPercent p) v) sorted
                = filter (fun p => SFeqb (CPUPercent p) v) processes)) /\
  (strings.ToLower mapUnicodeLower "pid" = "pid" /\
   strings.ToLower mapUnicodeLower "name" = "name" /\
   strings.ToLower mapUnicodeLower "memory" = "memory" /\
   strings.ToLower mapUnicodeLower "cpu" = "cpu" /\
   strings.ToLower mapUnicodeLower "" = "").
Proof.
  intros key sorted.
  split; [apply sortProcessesBy_Permutation|].
  subst sorted. unfold sortProcessesBy. fold key.
  split; [|split; [|split; [|split]]].
  - intros ->. apply sortProcessesBy_pid.
  - intros ->. apply sortProcessesBy_name.
  - intros ->. split.
    + apply (sortProcessesBy_descending MemoryPercent).
    + apply (sortProcessesBy_descending_short MemoryPercent).
  - intros Hpid Hname Hmem.
    apply String.eqb_neq in Hpid, Hname, Hmem. rewrite Hpid, Hname, Hmem.
    split.
    + apply (sortProcessesBy_descending CPUPercent).
    + apply (sortProcessesBy_descending_short CPUPercent).
  - repeat split.
Qed.

Lemma ToLower_idempotent_ascii (s : string) :
  strings.isASCII s = true ->
  strings.ToLower mapUnicodeLower (strings.ToLower mapUnicodeLower s)
  = strings.ToLower mapUnicodeLower s.
Proof.
  intros E. unfold strings.ToLower. rewrite E.
  now rewrite isASCII_lowerASCII, E, lowerASCII_idempotent.
Qed.

Lemma ToLower_idempotent :
  (forall s, strings.isASCII s = false ->
     strings.ToLower mapUnicodeLower (mapUnicodeLower s) = mapUnicodeLower s) ->
  forall s, strings.ToLower mapUnicodeLower (strings.ToLower mapUnicodeLower s)
            = strings.ToLower mapUnicodeLower s.
Proof.
  intros Hmap s. destruct (strings.isASCII s) eqn:E.
  - now apply ToLower_idempotent_ascii.
  - unfold strings.ToLower at 2 3. rewrite E. now apply Hmap.
Qed.

(** C10. Sorting with key [s] and sorting with the lowercase of [s] give
    the same list: for every ASCII key outright, and for every key provided
    the library's Unicode path yields lowered strings (what
    [strings.ToLower] returns for a string with a byte outside ASCII is
    left unchanged by [strings.ToLower]). So "PID" and "Memory" select the
    pid and the memory ordering, not the cpu default. *)
Theorem sortProcessesBy_case_insensitive (processes : list ProcessInfo)
    (sortBy : string) :
  (strings.isASCII sortBy = true ->
   sortProcessesBy mapUnicodeLower processes sortBy
   = sortProcessesBy mapUnicodeLower processes
       (strings.ToLower mapUnicodeLower sortBy)) /\
  ((forall s, strings.isASCII s = false ->
      strings.ToLower mapUnicodeLower (mapUnicodeLower s) = mapUnicodeLower s) ->
   sortProcessesBy mapUnicodeLower processes sortBy
   = sortProcessesBy mapUnicodeLower processes
       (strings.ToLower mapUnicodeLower sortBy)) /\
  sortProcessesBy mapUnicodeLower processes "PID"
  = sort.SliceStable (fun pi pj => PID pi <? PID pj) processes /\
  sortProcessesBy mapUnicodeLower processes "PID"
  = sortProcessesBy mapUnicodeLower processes "pid" /\
  sortProcessesBy mapUnicodeLower processes "Memory"
  = sort.SliceStable
      (fun pi pj => fgt (MemoryPercent pi) (MemoryPercent pj)) processes /\
  sortProcessesBy mapUnicodeLower processes "Memory"
  = sortProcessesBy mapUnicodeLower processes "memory".
Proof.
  split; [|split; [|repeat split]].
  - intros E. unfold sortProcessesBy. now rewrite (ToLower_idempotent_ascii _ E).
  - intros Hmap. unfold sortProcessesBy. now rewrite (ToLower_idempotent Hmap).
Qed.

End SortProcessesFacts.

(** C4, counterexample to the order and to the stability on every list.
    Sorted by "cpu", three records with the percents 1, NaN, 2 stay as they
    are, the 1 before the 2: the NaN compares false with both. Of
    twenty-one records the last is merged into the block of the first
    twenty by a binary search that the NaNs mislead: the record 20 ends up
    before the record 15, which carries the same percent. *)
Lemma sortProcessesBy_nan_not_ordered :
  let sorted := sortProcessesBy Examples.mapUnicodeLower Examples.withNaN "cpu" in
  let five := fun p => SFeqb (CPUPercent p) (Examples.f64 5 0) in
  map PID sorted = [1; 2; 3] /\
  map CPUPercent sorted = [Examples.f64 1 0; S754_nan; Examples.f64 2 0] /\
  SFltb (Examples.f64 1 0) (Examples.f64 2 0) = true /\
  ~ StronglySorted (fun a b => SFleb (CPUPercent b) (CPUPercent a) = true) sorted /\
  map PID (sortProcessesBy Examples.mapUnicodeLower Examples.twentyOne "cpu")
  = [0; 1; 2; 3; 4; 5; 6; 7; 8; 9; 20; 10; 11; 12; 13; 14; 15; 16; 17; 18; 19] /\
  map PID (filter five Examples.twentyOne) = [15; 20] /\
  map PID (filter five
             (sortProcessesBy Examples.mapUnicodeLower Examples.twentyOne "cpu"))
  = [20; 15].
Proof.
  intros sorted five.
  assert (E : sorted = Examples.withNaN) by (vm_compute; reflexivity).
  split; [vm_compute; reflexivity|]. split; [vm_compute; reflexivity|].
  split; [vm_compute; reflexivity|]. split.
  - rewrite E. intros H. apply StronglySorted_inv in H. destruct H as [_ H].
    inversion H as [|? ? _ Hrest]. inversion Hrest as [|? ? Hfirst _].
    vm_compute in Hfirst. discriminate.
  - split; [vm_compute; reflexivity|].
    split; vm_compute; reflexivity.
Qed.

(** ** getProcessInfo: processes whose detail queries error *)

Section EnumerationFacts.

Variable mapUnicodeLower : string -> string.
Variable strings_Fields : string -> list string.
Variable process_NewProcess : Z -> result process.Process.
Variable process_ProcessesWithContext : result (list process.Process).

Lemma filter_all {A : Type} (f : A -> bool) (l : list A) :
  (forall x, f x = true) -> filter f l = l.
Proof.
  intros Hf. induction l as [|x l IH]; simpl; [reflexivity|].
  now rewrite Hf, IH.
Qed.

(** The enumeration path of [getProcessInfo], whatever the per-process
    queries answer: [getProcessDetails] drops every query error and reports
    none, so the [continue] after it is never taken and every listed
    process, one whose queries error included, yields a candidate record
    (holding the values answered beside the errors). The result is the
    candidates that pass the name filter, cut at twice the limit, sorted,
    and cut at the limit; with no name asked for and no more processes than
    the limit, every listed pid is in the result. *)
Theorem getProcessInfo_keeps_failed_details (pid : Z) (name : string) (limit : Z)
    (sortBy : string) (procs : list process.Process) :
  pid <= 0 ->
  process_ProcessesWithContext = inl procs ->
  let eff := getProcessInfo_limit limit in
  let candidates := collected strings_Fields procs in
  let gathered :=
    firstn (Z.to_nat (2 * eff))
           (filter (nameMatches mapUnicodeLower name) candidates) in
  Forall2 (fun p info => getProcessDetails strings_Fields p = inl info)
          procs candidates /\
  map PID candidates = map process.Pid procs /\
  exists res : ProcessInfoResult,
    getProcessInfo mapUnicodeLower strings_Fields process_NewProcess
      process_ProcessesWithContext pid name limit sortBy = inl res /\
    Processes res
      = firstn (Z.to_nat eff) (sortProcessesBy mapUnicodeLower gathered sortBy) /\
    (name = "" -> len procs <= eff ->
       Permutation (map process.Pid procs) (map PID (Processes res))).
Proof.
  intros Hpid Hprocs eff candidates gathered.
  pose proof (getProcessInfo_limit_range limit) as Hrange. fold eff in Hrange.
  split; [apply collected_everyone|].
  split; [apply collected_pids|].
  assert (Hscan :
    getProcessInfo_range mapUnicodeLower strings_Fields procs name eff [] = gathered).
  { rewrite (getProcessInfo_range_firstn mapUnicodeLower strings_Fields name eff Hrange)
      by (change (len (@nil ProcessInfo)) with 0; lia).
    reflexivity. }
  set (sorted := sortProcessesBy mapUnicodeLower gathered sortBy).
  assert (Hcut :
    (if len sorted >? eff then firstn (Z.to_nat eff) sorted else sorted)
    = firstn (Z.to_nat eff) sorted).
  { destruct (len sorted >? eff) eqn:E; [reflexivity|].
    rewrite Z.gtb_ltb in E. apply Z.ltb_ge in E.
    rewrite firstn_all2; [reflexivity|]. unfold len in E. lia. }
  exists {| Processes := firstn (Z.to_nat eff) sorted;
            Count := len (firstn (Z.to_nat eff) sorted) |}.
  split; [|split; [reflexivity|]].
  - unfold getProcessInfo. fold eff.
    assert (Hnot : (pid >? 0) = false)
      by (rewrite Z.gtb_ltb; apply Z.ltb_ge; lia).
    rewrite Hnot, Hprocs, Hscan. fold sorted. now rewrite Hcut.
  - intros -> Hfew. simpl.
    assert (Hlen : List.length candidates = List.length procs)
      by (unfold candidates;
          rewrite <- (length_map PID), collected_pids; apply length_map).
    assert (Hgathered : gathered = candidates).
    { unfold gathered. rewrite filter_all by reflexivity.
      apply firstn_all2. unfold len in Hfew. lia. }
    assert (Hperm : Permutation candidates sorted).
    { unfold sorted. rewrite Hgathered. apply sortProcessesBy_Permutation. }
    rewrite firstn_all2.
    + rewrite <- (collected_pids strings_Fields procs).
      now apply Permutation_map.
    + rewrite <- (Permutation_length Hperm). unfold len in Hfew. lia.
Qed.

End EnumerationFacts.

(** C2, the code at a failing input. The listing holds a process on which
    all nine queries error (it exited after the listing was taken). The
    specification, and the [if err != nil { continue }] of [getProcessInfo],
    would have it skipped; the call returns it, as a record with its pid
    and the zero values the failed queries left, because
    [getProcessDetails] never returns an error. *)
Lemma getProcessInfo_failed_details_included :
  In Examples.vanished [Examples.running; Examples.vanished] /\
  detailsFail Examples.vanished = true /\
  exists res : ProcessInfoResult,
    getProcessInfo Examples.mapUnicodeLower Examples.strings_Fields
      Examples.process_NewProcess (inl [Examples.running; Examples.vanished])
      0 "" 10 "" = inl res /\
    Count res = 2 /\
    In (Examples.record 4242 "" (S754_zero false) (S754_zero false))
       (Processes res) /\
    In (process.Pid Examples.vanished) (map PID (Processes res)).
Proof.
  split; [right; left; reflexivity|].
  split; [reflexivity|].
  eexists. split; [reflexivity|].
  split; [reflexivity|].
  split; [right; left; reflexivity|right; left; reflexivity].
Qed.

(** ** The HTTP adapter *)

Section AdapterFacts.

Variable base64_DecodeString : string -> result string.
Variable json_Unmarshal_ServerConfig : string -> result ServerConfig.
Variable json_Unmarshal_MCPRequest : string -> result MCPRequest.t.
Variable handleToolCall : HTTPServer -> any -> any * option error.

(** C1, as the code has it. For a blob that decodes and unmarshals into a
    configuration, [parseConfig] reports no error and replaces the server's
    configuration by one whose refresh interval is the blob's when it lies
    in [[100, 10000]] and the default 1000 otherwise, and whose debug flag is
    the blob's. *)
Theorem parseConfig_default_fallback (h : HTTPServer) (configParam decoded : string)
    (c : ServerConfig) :
  base64_DecodeString configParam = inl decoded ->
  json_Unmarshal_ServerConfig decoded = inl c ->
  parseConfig base64_DecodeString json_Unmarshal_ServerConfig h configParam
  = ({| config :=
          {| RefreshInterval :=
               if (100 <=? RefreshInterval c) && (RefreshInterval c <=? 10000)
               then RefreshInterval c else 1000;
             EnableDebug := EnableDebug c |} |},
     None).
Proof.
  intros Hdec Hjson. unfold parseConfig. rewrite Hdec, Hjson.
  destruct c as [interval debug]. simpl.
  rewrite Z.gtb_ltb.
  destruct (Z.ltb_spec interval 100), (Z.ltb_spec 10000 interval),
           (Z.leb_spec 100 interval), (Z.leb_spec interval 10000);
    simpl; try reflexivity; lia.
Qed.

Lemma prefix_refl (s : string) : String.prefix s s = true.
Proof.
  induction s as [|c s IH]; simpl; [reflexivity|].
  destruct (ascii_dec c c); [exact IH|congruence].
Qed.

Lemma Contains_refl (s : string) : strings.Contains s s = true.
Proof.
  destruct s; [reflexivity|].
  cbn [strings.Contains]. now rewrite prefix_refl.
Qed.

Lemma Contains_append (pre s : string) :
  strings.Contains (pre ++ s) s = true.
Proof.
  induction pre as [|c pre IH].
  - apply Contains_refl.
  - change (String c pre ++ s)%string with (String c (pre ++ s)).
    cbn [strings.Contains]. rewrite IH. apply orb_true_r.
Qed.

(** Every response encoded by [handleMCPRequest] carries "2.0" and the id of
    the request it answers. *)
Lemma handleMCPRequest_envelope (h : HTTPServer) (r : http.Request)
    (response : MCPResponse.t) :
  handleMCPRequest json_Unmarshal_MCPRequest handleToolCall h r
    = http.EncodeJSON response ->
  exists body req,
    http.Body r = inl body /\
    json_Unmarshal_MCPRequest body = inl req /\
    MCPResponse.JsonRPC response = "2.0" /\
    MCPResponse.ID response = MCPRequest.ID req.
Proof.
  unfold handleMCPRequest.
  destruct (negb (String.eqb (http.Method r) "POST")); [discriminate|].
  destruct (http.Body r) as [body|e]; [|discriminate].
  destruct (json_Unmarshal_MCPRequest body) as [req|e] eqn:Hreq; [|discriminate].
  intros H. exists body, req. split; [reflexivity|]. split; [exact Hreq|].
  match type of H with
  | context [let '(_, _) := ?e in _] => destruct e as [res [err|]]
  end;
    injection H as <-; split; reflexivity.
Qed.

End AdapterFacts.

(** ** The id of a request and the id of its response *)

Lemma member_ID (key : string) (v : json.Value) (req req' : MCPRequest.t) :
  json.member key v req = Some req' ->
  if String.eqb (json.foldName key) "ID"
  then json.valueInterface v = Some (MCPRequest.ID req')
  else MCPRequest.ID req' = MCPRequest.ID req.
Proof.
  unfold json.member.
  destruct (String.eqb (json.foldName key) "JSONRPC") eqn:Ejsonrpc.
  { apply String.eqb_eq in Ejsonrpc. rewrite Ejsonrpc.
    cbn [String.eqb Ascii.eqb Bool.eqb].
    destruct (json.stringField v (MCPRequest.JsonRPC req)); [|discriminate].
    intros H. injection H as <-. reflexivity. }
  destruct (String.eqb (json.foldName key) "ID") eqn:Eid.
  { destruct (json.valueInterface v); [|discriminate].
    intros H. injection H as <-. reflexivity. }
  destruct (String.eqb (json.foldName key) "METHOD").
  { destruct (json.stringField v (MCPRequest.Method req)); [|discriminate].
    intros H. injection H as <-. reflexivity. }
  destruct (String.eqb (json.foldName key) "PARAMS").
  { destruct (json.valueInterface v); [|discriminate].
    intros H. injection H as <-. reflexivity. }
  intros H. injection H as <-. reflexivity.
Qed.

(** The id of the decoded request is what the last [id] member of the
    object decodes to, and the id before decoding when there is none. *)
Lemma object_ID (members : list (string * json.Value)) :
  forall req req' : MCPRequest.t,
  json.object members req = Some req' ->
  match lastMember "ID" members with
  | Some w => json.valueInterface w = Some (MCPRequest.ID req')
  | None => MCPRequest.ID req' = MCPRequest.ID req
  end.
Proof.
  induction members as [|[key v] members IH]; intros req req' H.
  - cbn [json.object] in H. injection H as <-. reflexivity.
  - cbn [json.object] in H.
    destruct (json.member key v req) as [req1|] eqn:E1; [|discriminate].
    specialize (IH req1 req' H). cbn [lastMember].
    destruct (lastMember "ID" members) as [w|]; [exact IH|].
    apply member_ID in E1.
    destruct (String.eqb (json.foldName key) "ID").
    + now rewrite IH.
    + now rewrite IH.
Qed.

Lemma decodeRequest_ID (v : json.Value) (req : MCPRequest.t) :
  json.decodeRequest v = Some req ->
  match requestId v with
  | Some w => json.valueInterface w = Some (MCPRequest.ID req)
  | None => MCPRequest.ID req = Nil
  end.
Proof.
  destruct v as [| | | | |members]; try discriminate.
  - intros H. injection H as <-. reflexivity.
  - intros H. apply object_ID in H. exact H.
Qed.

Section UnknownMethods.

Variable base64_DecodeString : string -> result string.
Variable json_Unmarshal_ServerConfig : string -> result ServerConfig.
Variable json_scan : string -> result json.Value.
Variable handleToolCall : HTTPServer -> any -> any * option error.


End UnknownMethods.


(** C1, counterexample to the clamping: a blob asking for a refresh interval
    of 50 gives 1000, where clamping into [[100, 10000]] would give 100. *)
Lemma parseConfig_does_not_clamp :
  Examples.base64_DecodeString Examples.blob50 = inl (Examples.configText "50") /\
  Examples.json_Unmarshal_ServerConfig (Examples.configText "50")
    = inl {| RefreshInterval := 50; EnableDebug := true |} /\
  parseConfig Examples.base64_DecodeString Examples.json_Unmarshal_ServerConfig
    NewHTTPServer Examples.blob50
    = ({| config := {| RefreshInterval := 1000; EnableDebug := true |} |}, None) /\
  clamp 100 10000 50 = 100 /\
  RefreshInterval
    (config (fst (parseConfig Examples.base64_DecodeString
                    Examples.json_Unmarshal_ServerConfig NewHTTPServer
                    Examples.blob50)))
  <> clamp 100 10000 50.
Proof.
  repeat split; try reflexivity. vm_compute. discriminate.
Qed.

(** * The statements on the concrete host *)

(** The orders [TestSortProcessesBy] expects. *)
Example sortProcessesBy_test_orders :
  map PID (sortProcessesBy Examples.mapUnicodeLower Examples.processes "cpu")
    = [50; 100; 75] /\
  map PID (sortProcessesBy Examples.mapUnicodeLower Examples.processes "memory")
    = [75; 50; 100] /\
  map PID (sortProcessesBy Examples.mapUnicodeLower Examples.processes "pid")
    = [50; 75; 100] /\
  map Name (sortProcessesBy Examples.mapUnicodeLower Examples.processes "name")
    = ["process_a"; "process_b"; "process_c"] /\
  map PID (sortProcessesBy Examples.mapUnicodeLower Examples.processes "")
    = [50; 100; 75].
Proof. repeat split. Qed.

(** The example host answers as a Linux host would. *)
Example getProcessInfo_on_example_host :
  getProcessInfo Examples.mapUnicodeLower Examples.strings_Fields
    Examples.process_NewProcess Examples.process_ProcessesWithContext
    99 "" 0 ""
  = inr (Errorf "failed to get process 99: no such process") /\
  (exists res,
     getProcessInfo Examples.mapUnicodeLower Examples.strings_Fields
       Examples.process_NewProcess Examples.process_ProcessesWithContext
       0 "INI" 0 "" = inl res /\
     map Name (Processes res) = ["init"] /\ Count res = 1) /\
  (exists res,
     getProcessInfo Examples.mapUnicodeLower Examples.strings_Fields
       Examples.process_NewProcess Examples.process_ProcessesWithContext
       0 "" 1 "pid" = inl res /\
     map PID (Processes res) = [1] /\ Count res = 1).
Proof.
  split; [reflexivity|].
  split; eexists; (split; [reflexivity|]); split; reflexivity.
Qed.

Lemma parseConfig_default_fallback_witness :
  Examples.base64_DecodeString Examples.blob5000 = inl (Examples.configText "5000") /\
  Examples.json_Unmarshal_ServerConfig (Examples.configText "5000")
    = inl {| RefreshInterval := 5000; EnableDebug := true |} /\
  parseConfig Examples.base64_DecodeString Examples.json_Unmarshal_ServerConfig
    NewHTTPServer Examples.blob5000
  = ({| config := {| RefreshInterval := 5000; EnableDebug := true |} |}, None).
Proof.
  split; [reflexivity|]. split; [reflexivity|].
  exact (parseConfig_default_fallback
           Examples.base64_DecodeString Examples.json_Unmarshal_ServerConfig
           NewHTTPServer Examples.blob5000 (Examples.configText "5000")
           {| RefreshInterval := 5000; EnableDebug := true |} eq_refl eq_refl).
Defined.

Lemma getProcessInfo_keeps_failed_details_witness :
  0 <= 0 /\
  Examples.process_ProcessesWithContext = inl [Examples.running; Examples.vanished] /\
  exists res : ProcessInfoResult,
    getProcessInfo Examples.mapUnicodeLower Examples.strings_Fields
      Examples.process_NewProcess Examples.process_ProcessesWithContext
      0 "" 10 "cpu" = inl res /\
    Permutation [1; 4242] (map PID (Processes res)).
Proof.
  split; [lia|]. split; [reflexivity|].
  destruct (getProcessInfo_keeps_failed_details
              Examples.mapUnicodeLower Examples.strings_Fields
              Examples.process_NewProcess Examples.process_ProcessesWithContext
              0 "" 10 "cpu" [Examples.running; Examples.vanished]
              ltac:(lia) eq_refl)
    as [_ [_ [res [Hres [_ Hall]]]]].
  exists res. split; [exact Hres|].
  apply Hall; [reflexivity|]. vm_compute. discriminate.
Defined.

Lemma getProcessInfo_limit_bound_witness :
  getProcessInfo_limit (-5) = 10 /\
  getProcessInfo_limit 300 = 200 /\
  getProcessInfo_limit 5 = 5 /\
  forall res : ProcessInfoResult,
    getProcessInfo Examples.mapUnicodeLower Examples.strings_Fields
      Examples.process_NewProcess Examples.process_ProcessesWithContext
      0 "" 300 "" = inl res ->
    len (Processes res) <= 200.
Proof.
  split; [|split; [|split]].
  - apply (getProcessInfo_limit_bound
             Examples.mapUnicodeLower Examples.strings_Fields
             Examples.process_NewProcess Examples.process_ProcessesWithContext
             0 "" (-5) ""). lia.
  - apply (getProcessInfo_limit_bound
             Examples.mapUnicodeLower Examples.strings_Fields
             Examples.process_NewProcess Examples.process_ProcessesWithContext
             0 "" 300 ""). lia.
  - apply (getProcessInfo_limit_bound
             Examples.mapUnicodeLower Examples.strings_Fields
             Examples.process_NewProcess Examples.process_ProcessesWithContext
             0 "" 5 ""). lia.
  - intros res Hres.
    apply (getProcessInfo_limit_bound
             Examples.mapUnicodeLower Examples.strings_Fields
             Examples.process_NewProcess Examples.process_ProcessesWithContext
             0 "" 300 ""). exact Hres.
Defined.

Lemma sortProcessesBy_ordered_stable_witness :
  Forall (fun p => MemoryPercent p <> S754_nan) Examples.processes /\
  Forall (fun p => CPUPercent p <> S754_nan) Examples.processes /\
  StronglySorted (fun a b => SFleb (MemoryPercent b) (MemoryPercent a) = true)
    (sortProcessesBy Examples.mapUnicodeLower Examples.processes "memory") /\
  StronglySorted (fun a b => SFleb (CPUPercent b) (CPUPercent a) = true)
    (sortProcessesBy Examples.mapUnicodeLower Examples.processes "bogus") /\
  StronglySorted (fun a b => PID a <= PID b)
    (sortProcessesBy Examples.mapUnicodeLower Examples.processes "pid") /\
  StronglySorted (fun a b => String.leb (Name a) (Name b) = true)
    (sortProcessesBy Examples.mapUnicodeLower Examples.processes "name").
Proof.
  assert (Hmem : Forall (fun p => MemoryPercent p <> S754_nan) Examples.processes)
    by (repeat constructor; discriminate).
  assert (Hcpu : Forall (fun p => CPUPercent p <> S754_nan) Examples.processes)
    by (repeat constructor; discriminate).
  split; [exact Hmem|]. split; [exact Hcpu|].
  split; [|split; [|split]].
  - destruct (sortProcessesBy_ordered_stable
                Examples.mapUnicodeLower Examples.processes "memory")
      as [_ [_ [_ [H _]]]].
    apply (H eq_refl). exact Hmem.
  - destruct (sortProcessesBy_ordered_stable
                Examples.mapUnicodeLower Examples.processes "bogus")
      as [_ [_ [_ [_ [H _]]]]].
    refine (proj1 (proj1 (H _ _ _) Hcpu)); discriminate.
  - destruct (sortProcessesBy_ordered_stable
                Examples.mapUnicodeLower Examples.processes "pid")
      as [_ [H _]].
    apply H. reflexivity.
  - destruct (sortProcessesBy_ordered_stable
                Examples.mapUnicodeLower Examples.processes "name")
      as [_ [_ [H _]]].
    apply H. reflexivity.
Defined.

Lemma getCPUInfo_interval_clamped_witness :
  0 < 50 < 100 /\ 10000 < 20000 /\
  getCPUInfo_interval 50 = 100 * time.Millisecond /\
  getCPUInfo_interval 20000 = 10000 * time.Millisecond.
Proof.
  split; [lia|]. split; [lia|]. split.
  - destruct (getCPUInfo_interval_clamped 50) as [ms [Heq [_ [Hlow _]]]].
    rewrite Heq, Hlow by lia. reflexivity.
  - destruct (getCPUInfo_interval_clamped 20000) as [ms [Heq [_ [_ [Hhigh _]]]]].
    rewrite Heq, Hhigh by lia. reflexivity.
Defined.

Lemma getDiskInfo_path_single_record_witness :
  "/" <> "" /\
  Examples.disk_UsageWithContext "/" = inl Examples.rootUsage /\
  exists d : DiskInfo,
    getDiskInfo Examples.disk_UsageWithContext Examples.disk_PartitionsWithContext "/"
      = inl {| Disks := [d] |} /\
    Mountpoint d = "/" /\ Device d = "N/A".
Proof.
  split; [discriminate|]. split; [reflexivity|].
  destruct (getDiskInfo_path_single_record
              Examples.disk_UsageWithContext Examples.disk_PartitionsWithContext
              "/" Examples.rootUsage ltac:(discriminate) eq_refl)
    as [d [Hd [Hmount [Hdev _]]]].
  exists d. repeat split; assumption.
Defined.

Lemma getDiskInfo_all_skips_failed_partitions_witness :
  Examples.disk_PartitionsWithContext false = inl Examples.partitions /\
  exists kept : list (disk.PartitionStat * disk.UsageStat),
    getDiskInfo Examples.disk_UsageWithContext Examples.disk_PartitionsWithContext ""
      = inl {| Disks := map (fun pu => partitionRecord (fst pu) (snd pu)) kept |} /\
    map (fun pu => disk.Mountpoint (fst pu)) kept = ["/"].
Proof.
  split; [reflexivity|].
  destruct (getDiskInfo_all_skips_failed_partitions
              Examples.disk_UsageWithContext Examples.disk_PartitionsWithContext
              Examples.partitions eq_refl)
    as [kept [Hres [Hkept _]]].
  exists kept. split; [exact Hres|].
  rewrite <- (map_map fst disk.Mountpoint), Hkept. reflexivity.
Defined.

Lemma getNetworkInfo_filter_exact_witness :
  Examples.net_IOCountersWithContext true = inl Examples.interfaces /\
  "eth0" <> "" /\
  exists out : list NetworkInfo,
    getNetworkInfo Examples.net_IOCountersWithContext "eth0"
      = inl {| Interfaces := out |} /\
    out = [interfaceRecord (Examples.counters "eth0" 20)].
Proof.
  split; [reflexivity|]. split; [discriminate|].
  destruct (getNetworkInfo_filter_exact
              Examples.net_IOCountersWithContext Examples.interfaces "eth0" eq_refl)
    as [out [Hres [_ Hfilter]]].
  exists out. split; [exact Hres|].
  destruct (Hfilter ltac:(discriminate)) as [Hout _].
  exact Hout.
Defined.


Lemma sortProcessesBy_case_insensitive_witness :
  (forall s, strings.isASCII s = false ->
     strings.ToLower Examples.mapUnicodeLower (Examples.mapUnicodeLower s)
     = Examples.mapUnicodeLower s) /\
  sortProcessesBy Examples.mapUnicodeLower Examples.processes "NaMe"
  = sortProcessesBy Examples.mapUnicodeLower Examples.processes
      (strings.ToLower Examples.mapUnicodeLower "NaMe").
Proof.
  assert (Hmap : forall s, strings.isASCII s = false ->
     strings.ToLower Examples.mapUnicodeLower (Examples.mapUnicodeLower s)
     = Examples.mapUnicodeLower s).
  { intros s Hs. unfold strings.ToLower, Examples.mapUnicodeLower.
    rewrite isASCII_lowerASCII, Hs. apply lowerASCII_idempotent. }
  split; [exact Hmap|].
  destruct (sortProcessesBy_case_insensitive
              Examples.mapUnicodeLower Examples.processes "NaMe")
    as [_ [Hany _]].
  exact (Hany Hmap).
Defined.

(** * Further properties of the HTTP adapter *)

Section AdapterLifecycle.

Variable base64_DecodeString : string -> result string.
Variable json_Unmarshal_ServerConfig : string -> result ServerConfig.
Variable json_Unmarshal_MCPRequest : string -> result MCPRequest.t.
Variable handleToolCall : HTTPServer -> any -> any * option error.

Lemma parseConfig_valid (h : HTTPServer) (configParam : string) :
  validConfig h ->
  validConfig (fst (parseConfig base64_DecodeString json_Unmarshal_ServerConfig
                      h configParam)).
Proof.
  intros Hvalid. unfold parseConfig.
  destruct (base64_DecodeString configParam) as [decoded|e]; [|exact Hvalid].
  destruct (json_Unmarshal_ServerConfig decoded) as [[interval debug]|e];
    [|exact Hvalid].
  unfold validConfig. simpl. rewrite Z.gtb_ltb.
  destruct (Z.ltb_spec interval 100), (Z.ltb_spec 10000 interval); simpl; lia.
Qed.

Lemma ServeHTTP_valid (h : HTTPServer) (r : http.Request) :
  validConfig h ->
  validConfig (fst (ServeHTTP base64_DecodeString json_Unmarshal_ServerConfig
                      json_Unmarshal_MCPRequest handleToolCall h r)).
Proof.
  intros Hvalid. unfold ServeHTTP.
  destruct (String.eqb (http.Method r) "OPTIONS"); [exact Hvalid|].
  simpl. destruct (negb (String.eqb (http.Query_config r) "")); [|exact Hvalid].
  now apply parseConfig_valid.
Qed.


(** X2. The refresh interval of the running configuration is always within
    [[100, 10000]]: it is so for a new server and stays so after any sequence
    of requests, whatever their methods, configuration blobs and bodies. *)
Theorem ServeHTTP_keeps_interval_in_bounds (rs : list http.Request) :
  validConfig NewHTTPServer /\
  validConfig (serveAll base64_DecodeString json_Unmarshal_ServerConfig
                 json_Unmarshal_MCPRequest handleToolCall NewHTTPServer rs).
Proof.
  assert (Hnew : validConfig NewHTTPServer) by (unfold validConfig; simpl; lia).
  split; [exact Hnew|].
  generalize NewHTTPServer Hnew. induction rs as [|r rs IH]; intros h Hvalid.
  - exact Hvalid.
  - simpl. apply IH. now apply ServeHTTP_valid.
Qed.

(** X3. An OPTIONS request is answered with status 200, no body and the
    five CORS headers, and nothing else happens: a configuration blob on its
    URL is not read, so the configuration stays as it was. *)
Theorem ServeHTTP_options_preflight (h : HTTPServer) (r : http.Request) :
  http.Method r = "OPTIONS" ->
  ServeHTTP base64_DecodeString json_Unmarshal_ServerConfig
    json_Unmarshal_MCPRequest handleToolCall h r
  = (h, {| http.Header := corsHeaders;
           http.Out := http.WriteHeader 200 |}) /\
  List.length corsHeaders = 5%nat.
Proof.
  intros Hopt. unfold ServeHTTP. rewrite Hopt. split; reflexivity.
Qed.

(** X4. A request that is neither OPTIONS nor POST is refused by
    [http.Error] with status 405 and "Method not allowed" (in plain text,
    under the CORS headers), yet a well-formed configuration blob on its URL
    has already replaced the configuration by then. *)
Theorem ServeHTTP_refused_method_still_configures (h : HTTPServer)
    (r : http.Request) (decoded : string) (c : ServerConfig) :
  http.Method r <> "OPTIONS" ->
  http.Method r <> "POST" ->
  http.Query_config r <> "" ->
  base64_DecodeString (http.Query_config r) = inl decoded ->
  json_Unmarshal_ServerConfig decoded = inl c ->
  ServeHTTP base64_DecodeString json_Unmarshal_ServerConfig
    json_Unmarshal_MCPRequest handleToolCall h r
  = (fst (parseConfig base64_DecodeString json_Unmarshal_ServerConfig h
            (http.Query_config r)),
     {| http.Header :=
          (corsHeaders ++ [("Content-Type", "text/plain; charset=utf-8");
                           ("X-Content-Type-Options", "nosniff")])%list;
        http.Out := http.Error "Method not allowed" 405 |}) /\
  EnableDebug
    (config (fst (ServeHTTP base64_DecodeString json_Unmarshal_ServerConfig
                    json_Unmarshal_MCPRequest handleToolCall h r)))
  = EnableDebug c.
Proof.
  intros Hopt Hpost Hcfg Hdec Hjson.
  apply String.eqb_neq in Hopt, Hpost, Hcfg.
  unfold ServeHTTP, handleMCPRequest. rewrite Hopt, Hcfg, Hpost. simpl.
  split; [reflexivity|].
  unfold parseConfig. rewrite Hdec, Hjson.
  destruct ((RefreshInterval c <? 100) || (RefreshInterval c >? 10000));
    reflexivity.
Qed.

(** X5. A POST request whose body cannot be read, or does not unmarshal
    into a request, is answered by [http.Error] with status 400 ("Failed to
    read request body", "Invalid JSON"), in plain text under the CORS
    headers: no JSON-RPC response is written and [handleToolCall] is not
    consulted. *)
Theorem ServeHTTP_bad_body (h : HTTPServer) (r : http.Request) (cause : error) :
  http.Method r = "POST" ->
  http.Body r = inr cause \/
  (exists body, http.Body r = inl body /\
                json_Unmarshal_MCPRequest body = inr cause) ->
  exists msg,
    snd (ServeHTTP base64_DecodeString json_Unmarshal_ServerConfig
           json_Unmarshal_MCPRequest handleToolCall h r)
    = {| http.Header :=
           (corsHeaders ++ [("Content-Type", "text/plain; charset=utf-8");
                            ("X-Content-Type-Options", "nosniff")])%list;
         http.Out := http.Error msg 400 |} /\
    (http.Body r = inr cause -> msg = "Failed to read request body") /\
    (http.Body r <> inr cause -> msg = "Invalid JSON").
Proof.
  intros Hpost Hbad. unfold ServeHTTP, handleMCPRequest. rewrite Hpost. simpl.
  destruct Hbad as [Hbody|[body [Hbody Hjson]]]; rewrite Hbody.
  - eexists. split; [reflexivity|]. split; [reflexivity|congruence].
  - rewrite Hjson. eexists. split; [reflexivity|].
    split; [discriminate|reflexivity].
Qed.

(** X6. Every response carries the five CORS headers first. Beside them
    it carries a content type exactly when the request is not a preflight:
    JSON exactly when a JSON-RPC response is written, which is exactly for a
    POST request whose body is read and unmarshals, and plain text with
    [X-Content-Type-Options: nosniff] for every request [http.Error]
    refuses. *)
Theorem ServeHTTP_headers (h : HTTPServer) (r : http.Request) :
  let response :=
    snd (ServeHTTP base64_DecodeString json_Unmarshal_ServerConfig
           json_Unmarshal_MCPRequest handleToolCall h r) in
  let decodes :=
    http.Method r = "POST" /\
    exists body req, http.Body r = inl body /\
                     json_Unmarshal_MCPRequest body = inl req in
  firstn 5 (http.Header response) = corsHeaders /\
  (http.Method r = "OPTIONS" ->
     http.Header response = corsHeaders /\
     http.Out response = http.WriteHeader 200) /\
  (http.Method r <> "OPTIONS" -> decodes ->
     http.Header response
       = (corsHeaders ++ [("Content-Type", "application/json")])%list /\
     exists envelope, http.Out response = http.EncodeJSON envelope) /\
  (http.Method r <> "OPTIONS" -> ~ decodes ->
     http.Header response
       = (corsHeaders ++ [("Content-Type", "text/plain; charset=utf-8");
                          ("X-Content-Type-Options", "nosniff")])%list /\
     exists msg code, http.Out response = http.Error msg code /\
                      (code = 400 \/ code = 405)).
Proof.
  intros response decodes. subst response decodes.
  unfold ServeHTTP.
  destruct (String.eqb (http.Method r) "OPTIONS") eqn:Eopt.
  - apply String.eqb_eq in Eopt. simpl.
    split; [reflexivity|]. split; [intros _; split; reflexivity|].
    split; intros Hne; contradiction.
  - apply String.eqb_neq in Eopt.
    cbn [snd http.Header http.Out].
    set (h' := if negb (String.eqb (http.Query_config r) "") then _ else h).
    unfold handleMCPRequest.
    destruct (String.eqb (http.Method r) "POST") eqn:Epost; cbn [negb].
    + apply String.eqb_eq in Epost.
      destruct (http.Body r) as [body|e].
      * destruct (json_Unmarshal_MCPRequest body) as [req|e] eqn:Ereq.
        -- match goal with
           | |- context [let '(_, _) := ?e in _] => destruct e as [res [err|]]
           end;
             (split; [reflexivity|]; split; [intros Hopt; contradiction|];
              split;
              [ intros _ _; split; [reflexivity|]; eexists; reflexivity
              | intros _ Hno; exfalso; apply Hno; split; [exact Epost|];
                exists body, req; split; [reflexivity|exact Ereq] ]).
        -- split; [reflexivity|]. split; [intros Hopt; contradiction|]. split.
           ++ intros _ [_ [body' [req [Hb Hr]]]].
              injection Hb as <-. congruence.
           ++ intros _ _. split; [reflexivity|].
              eexists _, _. split; [reflexivity|now left].
      * split; [reflexivity|]. split; [intros Hopt; contradiction|]. split.
        -- intros _ [_ [body' [req [Hb _]]]]. discriminate.
        -- intros _ _. split; [reflexivity|].
           eexists _, _. split; [reflexivity|now left].
    + apply String.eqb_neq in Epost.
      split; [reflexivity|]. split; [intros Hopt; contradiction|]. split.
      * intros _ [Hpost _]. contradiction.
      * intros _ _. split; [reflexivity|].
        eexists _, _. split; [reflexivity|now right].
Qed.

End AdapterLifecycle.

(** * Properties of the tool calls *)

Section ToolCallFacts.

Variable w : Host.t.

Lemma toolReturn_content {T : Type} (sprintf : T -> string) (zero : T)
    (collected : result T) :
  exists text err, toolReturn sprintf zero collected = (textContent text, err).
Proof.
  destruct collected as [v|e]; simpl; eexists; eexists; reflexivity.
Qed.

(** X8. Tool-call parameters that are not an object are refused with
    "invalid params format", and an object without a string [name] with
    "missing tool name"; in both cases no result is built and no collector
    runs. *)
Theorem handleToolCall_malformed_params (h : HTTPServer) (params : any) :
  ((forall paramsMap, params <> Map paramsMap) ->
   handleToolCall w h params = (Nil, Some (Errorf "invalid params format"))) /\
  (forall paramsMap,
     params = Map paramsMap ->
     (forall toolName, index paramsMap "name" <> Str toolName) ->
     handleToolCall w h params = (Nil, Some (Errorf "missing tool name"))).
Proof.
  split.
  - intros Hno. destruct params; try reflexivity.
    exfalso. now apply (Hno fields).
  - intros paramsMap -> Hname. unfold handleToolCall.
    destruct (index paramsMap "name"); try reflexivity.
    exfalso. now apply (Hname s).
Qed.

(** X9. The tools the discovery catalogue lists are exactly the tools a
    call can reach: a call naming a listed tool always returns one text
    content item (beside the collector's error, if any), and a call naming
    any other tool is refused with "unknown tool: " and the name. *)
Theorem handleToolCall_serves_catalogue (h : HTTPServer)
    (paramsMap : list (string * any)) (toolName : string) :
  index paramsMap "name" = Str toolName ->
  (In toolName (toolNames toolsListResult) ->
   exists text err,
     handleToolCall w h (Map paramsMap) = (textContent text, err)) /\
  (~ In toolName (toolNames toolsListResult) ->
   handleToolCall w h (Map paramsMap)
   = (Nil, Some (Errorf ("unknown tool: " ++ toolName)))) /\
  List.length (toolNames toolsListResult) = 7%nat.
Proof.
  intros Hname. unfold handleToolCall. rewrite Hname.
  change (toolNames toolsListResult)
    with ["get_system_info"; "get_cpu_info"; "get_memory_info"; "get_disk_info";
          "get_network_info"; "get_process_info"; "get_load_average"].
  split; [|split; [|reflexivity]].
  - intros Hin. cbv zeta.
    repeat match goal with
    | |- context [String.eqb toolName ?n] =>
      destruct (String.eqb toolName n) eqn:?; [apply toolReturn_content|]
    end.
    exfalso. simpl in Hin.
    repeat match goal with
    | H : String.eqb _ _ = false |- _ => apply String.eqb_neq in H
    end.
    intuition congruence.
  - intros Hout. cbv zeta.
    repeat match goal with
    | |- context [String.eqb toolName ?n] =>
      destruct (String.eqb toolName n) eqn:E;
        [apply String.eqb_eq in E; exfalso; apply Hout; subst toolName;
         simpl; tauto|clear E]
    end.
    reflexivity.
Qed.

Lemma read_bool (o o' : option (list (string * any))) (key : string) :
  seenAs "boolean" (index (match o with Some a => a | None => [] end) key)
  = seenAs "boolean" (index (match o' with Some a => a | None => [] end) key) ->
  match o with
  | Some args => match index args key with Bool val => val | _ => false end
  | None => false
  end
  = match o' with
    | Some args => match index args key with Bool val => val | _ => false end
    | None => false
    end.
Proof.
  destruct o as [a|], o' as [a'|]; cbn [index];
    try destruct (index a key); try destruct (index a' key);
    simpl; congruence.
Qed.

Lemma read_string (o o' : option (list (string * any))) (key : string) :
  seenAs "string" (index (match o with Some a => a | None => [] end) key)
  = seenAs "string" (index (match o' with Some a => a | None => [] end) key) ->
  match o with
  | Some args => match index args key with Str val => val | _ => "" end
  | None => ""
  end
  = match o' with
    | Some args => match index args key with Str val => val | _ => "" end
    | None => ""
    end.
Proof.
  destruct o as [a|], o' as [a'|]; cbn [index];
    try destruct (index a key); try destruct (index a' key);
    simpl; congruence.
Qed.

Lemma read_number (convert : float64 -> Z) (default : Z)
    (o o' : option (list (string * any))) (key : string) :
  seenAs "integer" (index (match o with Some a => a | None => [] end) key)
  = seenAs "integer" (index (match o' with Some a => a | None => [] end) key) ->
  match o with
  | Some args =>
    match index args key with Float64 val => convert val | _ => default end
  | None => default
  end
  = match o' with
    | Some args =>
      match index args key with Float64 val => convert val | _ => default end
    | None => default
    end.
Proof.
  destruct o as [a|], o' as [a'|]; cbn [index];
    try destruct (index a key); try destruct (index a' key);
    simpl; congruence.
Qed.

(** X10. A tool call reads nothing of its parameters but the tool's name
    and the inputs the discovery catalogue advertises for that tool, each
    at its advertised type: two calls of one tool whose advertised inputs
    agree, a value of another type counting as absent, return the same. So
    an input of the wrong type is ignored, not refused; an input that is not
    advertised is ignored; and a missing or non-object [arguments] is an
    empty one. *)
Theorem handleToolCall_reads_advertised_inputs (h : HTTPServer)
    (paramsMap paramsMap' : list (string * any)) (toolName : string) :
  index paramsMap "name" = Str toolName ->
  index paramsMap' "name" = Str toolName ->
  (forall key type,
     In (toolName, key, type) (advertisedInputs toolsListResult) ->
     seenAs type (index (argumentsOf paramsMap) key)
     = seenAs type (index (argumentsOf paramsMap') key)) ->
  handleToolCall w h (Map paramsMap) = handleToolCall w h (Map paramsMap').
Proof.
  intros Hname Hname' Hsame. unfold handleToolCall. rewrite Hname, Hname'.
  unfold argumentsOf in Hsame.
  set (o := match index paramsMap "arguments" with
            | Map argsMap => Some argsMap | _ => None end).
  set (o' := match index paramsMap' "arguments" with
             | Map argsMap => Some argsMap | _ => None end).
  assert (Ho : forall key,
    index (match index paramsMap "arguments" with
           | Map argsMap => argsMap | _ => [] end) key
    = index (match o with Some a => a | None => [] end) key)
    by (intros key; subst o; destruct (index paramsMap "arguments"); reflexivity).
  assert (Ho' : forall key,
    index (match index paramsMap' "arguments" with
           | Map argsMap => argsMap | _ => [] end) key
    = index (match o' with Some a => a | None => [] end) key)
    by (intros key; subst o'; destruct (index paramsMap' "arguments"); reflexivity).
  assert (Hread : forall key type,
    In (toolName, key, type) (advertisedInputs toolsListResult) ->
    seenAs type (index (match o with Some a => a | None => [] end) key)
    = seenAs type (index (match o' with Some a => a | None => [] end) key))
    by (intros key type Hin; rewrite <- Ho, <- Ho'; now apply Hsame).
  clearbody o o'. clear Ho Ho' Hsame. cbv zeta.
  change (advertisedInputs toolsListResult)
    with [("get_cpu_info", "per_cpu", "boolean");
          ("get_cpu_info", "interval_ms", "integer");
          ("get_disk_info", "path", "string");
          ("get_network_info", "interface", "string");
          ("get_process_info", "pid", "integer");
          ("get_process_info", "name", "string");
          ("get_process_info", "limit", "integer");
          ("get_process_info", "sort_by", "string")] in Hread.
  destruct (String.eqb toolName "get_system_info"); [reflexivity|].
  destruct (String.eqb toolName "get_cpu_info") eqn:Ecpu.
  { apply String.eqb_eq in Ecpu. subst toolName.
    rewrite (read_bool o o' "per_cpu") by (apply Hread; simpl; tauto).
    rewrite (read_number _ 1000 o o' "interval_ms")
      by (apply Hread; simpl; tauto).
    reflexivity. }
  destruct (String.eqb toolName "get_memory_info"); [reflexivity|].
  destruct (String.eqb toolName "get_disk_info") eqn:Edisk.
  { apply String.eqb_eq in Edisk. subst toolName.
    rewrite (read_string o o' "path") by (apply Hread; simpl; tauto).
    reflexivity. }
  destruct (String.eqb toolName "get_network_info") eqn:Enet.
  { apply String.eqb_eq in Enet. subst toolName.
    rewrite (read_string o o' "interface") by (apply Hread; simpl; tauto).
    reflexivity. }
  destruct (String.eqb toolName "get_process_info") eqn:Eproc.
  { apply String.eqb_eq in Eproc. subst toolName.
    rewrite (read_number _ 0 o o' "pid") by (apply Hread; simpl; tauto).
    rewrite (read_string o o' "name") by (apply Hread; simpl; tauto).
    rewrite (read_number _ 10 o o' "limit") by (apply Hread; simpl; tauto).
    rewrite (read_string o o' "sort_by") by (apply Hread; simpl; tauto).
    reflexivity. }
  reflexivity.
Qed.

(** X11. With no usable [arguments], each tool runs on its defaults: CPU
    usage aggregated over a 1000 ms window, all disks, all interfaces, and
    the process list unfiltered, by CPU, with limit 10. *)
Theorem handleToolCall_defaults (h : HTTPServer) (paramsMap : list (string * any)) :
  (forall argsMap, index paramsMap "arguments" <> Map argsMap) ->
  (index paramsMap "name" = Str "get_cpu_info" ->
   handleToolCall w h (Map paramsMap)
   = toolReturn (Host.Sprintf_CPUInfo w) zeroCPUInfo
       (getCPUInfo (Host.runtime_NumCPU w) (Host.cpu_PercentWithContext w)
          (Host.cpu_InfoWithContext w) (Host.cpu_Counts w) false 1000)) /\
  (index paramsMap "name" = Str "get_disk_info" ->
   handleToolCall w h (Map paramsMap)
   = toolReturn (Host.Sprintf_DiskInfoResult w) zeroDiskInfoResult
       (getDiskInfo (Host.disk_UsageWithContext w)
          (Host.disk_PartitionsWithContext w) "")) /\
  (index paramsMap "name" = Str "get_network_info" ->
   handleToolCall w h (Map paramsMap)
   = toolReturn (Host.Sprintf_NetworkInfoResult w) zeroNetworkInfoResult
       (getNetworkInfo (Host.net_IOCountersWithContext w) "")) /\
  (index paramsMap "name" = Str "get_process_info" ->
   handleToolCall w h (Map paramsMap)
   = toolReturn (Host.Sprintf_ProcessInfoResult w) zeroProcessInfoResult
       (getProcessInfo (Host.mapUnicodeLower w) (Host.strings_Fields w)
          (Host.process_NewProcess w) (Host.process_ProcessesWithContext w)
          0 "" 10 "")).
Proof.
  intros Hnone.
  assert (Ho : match index paramsMap "arguments" with
               | Map argsMap => Some argsMap | _ => None end = None).
  { destruct (index paramsMap "arguments"); try reflexivity.
    exfalso. now apply (Hnone fields). }
  repeat split; intros Hname; unfold handleToolCall; rewrite Hname, Ho;
    reflexivity.
Qed.

End ToolCallFacts.

(** * Further properties of the collectors *)

Lemma string_append_assoc (a b c : string) :
  ((a ++ b) ++ c = a ++ b ++ c)%string.
Proof.
  induction a as [|x a IH]; simpl; [reflexivity|]. now rewrite IH.
Qed.

Lemma wrapf_message (a b c : string) (err : error) :
  wrapf (a ++ b ++ c) err = Errorf (a ++ b ++ c ++ Error err).
Proof. unfold wrapf. now rewrite !string_append_assoc. Qed.

Lemma prefix_append (sub s : string) :
  String.prefix sub s = true <-> exists post, s = (sub ++ post)%string.
Proof.
  revert s. induction sub as [|c sub IH]; intros s.
  - split; [intros _; now exists s|intros _; now destruct s].
  - destruct s as [|c' s].
    + split; [discriminate|intros [post H]; discriminate].
    + cbn [String.prefix]. destruct (ascii_dec c c') as [<-|Hne].
      * rewrite IH. split; intros [post H]; exists post; simpl in *; congruence.
      * split; [discriminate|]. intros [post H]. simpl in H. congruence.
Qed.

(** [strings.Contains] finds exactly the substrings. *)
Lemma Contains_substring (s sub : string) :
  strings.Contains s sub = true
  <-> exists pre post, s = (pre ++ sub ++ post)%string.
Proof.
  split.
  - induction s as [|c s IH]; cbn [strings.Contains]; intros H;
      apply orb_true_iff in H; destruct H as [H|H].
    + apply prefix_append in H. destruct H as [post H]. now exists "", post.
    + discriminate.
    + apply prefix_append in H. destruct H as [post H]. now exists "", post.
    + destruct (IH H) as [pre [post Hs]]. exists (String c pre), post.
      simpl. now rewrite Hs.
  - intros [pre [post ->]]. induction pre as [|c pre IH].
    + simpl. destruct (sub ++ post)%string eqn:E; cbn [strings.Contains];
        apply orb_true_iff; left; apply prefix_append; exists post; now rewrite E.
    + change (String c pre ++ sub ++ post)%string
        with (String c (pre ++ sub ++ post)).
      cbn [strings.Contains]. rewrite IH. apply orb_true_r.
Qed.

Lemma In_firstn {A : Type} (n : nat) (l : list A) (x : A) :
  In x (firstn n l) -> In x l.
Proof.
  intros Hin. rewrite <- (firstn_skipn n l). apply in_or_app. now left.
Qed.

Lemma StronglySorted_firstn {A : Type} (R : A -> A -> Prop) (n : nat) :
  forall l, StronglySorted R l -> StronglySorted R (firstn n l).
Proof.
  induction n as [|n IH]; intros [|a l] Hs; simpl; try constructor.
  - apply IH. now apply StronglySorted_inv in Hs.
  - apply StronglySorted_inv in Hs. destruct Hs as [_ Ha].
    rewrite Forall_forall in *. intros x Hx. apply Ha.
    now apply In_firstn in Hx.
Qed.

Lemma getProcessInfo_limit_idempotent (limit : Z) :
  getProcessInfo_limit (getProcessInfo_limit limit) = getProcessInfo_limit limit.
Proof.
  pose proof (getProcessInfo_limit_range limit) as Hrange.
  apply getProcessInfo_limit_cases. lia.
Qed.

(** An already ordered slice is left as it is. *)
Lemma SliceStable_ordered_fixed {A : Type} (less : A -> A -> bool)
    (ok : A -> Prop) (data : list A) :
  (forall x y, ok x -> ok y -> less x y = true -> less y x = false) ->
  (forall x y z, ok x -> ok y -> ok z ->
     less x y = false -> less y z = false -> less x z = false) ->
  Forall ok data ->
  StronglySorted (fun a b => less b a = false) data ->
  sort.SliceStable less data = data.
Proof.
  intros Hasym Hnegtrans Hok Hsorted. symmetry.
  now apply (SliceStable_canonical less ok).
Qed.

Section CollectorComposition.

Variable mapUnicodeLower : string -> string.
Variable strings_Fields : string -> list string.
Variable process_NewProcess : Z -> result process.Process.
Variable process_ProcessesWithContext : result (list process.Process).

(** What the enumeration path of [getProcessInfo] computes. *)
Lemma getProcessInfo_enumeration (pid : Z) (name : string) (limit : Z)
    (sortBy : string) (procs : list process.Process) :
  pid <= 0 ->
  process_ProcessesWithContext = inl procs ->
  let eff := getProcessInfo_limit limit in
  let returned :=
    firstn (Z.to_nat eff)
      (sortProcessesBy mapUnicodeLower
         (firstn (Z.to_nat (2 * eff))
            (filter (nameMatches mapUnicodeLower name)
                    (collected strings_Fields procs)))
         sortBy) in
  getProcessInfo mapUnicodeLower strings_Fields process_NewProcess
    process_ProcessesWithContext pid name limit sortBy
  = inl {| Processes := returned; Count := len returned |}.
Proof.
  intros Hpid Hprocs eff returned.
  pose proof (getProcessInfo_limit_range limit) as Hrange. fold eff in Hrange.
  unfold getProcessInfo. fold eff.
  assert (Hnot : (pid >? 0) = false)
    by (rewrite Z.gtb_ltb; apply Z.ltb_ge; lia).
  rewrite Hnot, Hprocs.
  rewrite (getProcessInfo_range_firstn mapUnicodeLower strings_Fields name eff Hrange)
    by (change (len (@nil ProcessInfo)) with 0; lia).
  cbn [app].
  match goal with
  | |- context [sortProcessesBy ?m ?l ?s] => set (sorted := sortProcessesBy m l s)
  end.
  destruct (len sorted >? eff) eqn:E; [reflexivity|].
  rewrite Z.gtb_ltb in E. apply Z.ltb_ge in E.
  subst returned. cbv zeta. fold sorted.
  rewrite firstn_all2; [reflexivity|]. unfold len in E. lia.
Qed.

(** X12. With a pid, [getProcessInfo] looks that one process up and nothing
    else: the name filter, the limit, the sort key and the process listing
    play no part. It returns exactly one record, for the looked-up process
    (count 1), or fails with "failed to get process <pid>: <cause>" when
    the lookup fails. *)
Theorem getProcessInfo_pid_lookup (pid : Z) (name : string) (limit : Z)
    (sortBy : string) :
  0 < pid ->
  (forall name' limit' sortBy' listing',
     getProcessInfo mapUnicodeLower strings_Fields process_NewProcess
       process_ProcessesWithContext pid name limit sortBy
     = getProcessInfo mapUnicodeLower strings_Fields process_NewProcess
         listing' pid name' limit' sortBy') /\
  (forall proc, process_NewProcess pid = inl proc ->
     exists info,
       getProcessInfo mapUnicodeLower strings_Fields process_NewProcess
         process_ProcessesWithContext pid name limit sortBy
       = inl {| Processes := [info]; Count := 1 |} /\
       PID info = process.Pid proc /\
       Name info = fst (process.NameWithContext proc)) /\
  (forall cause, process_NewProcess pid = inr cause ->
     getProcessInfo mapUnicodeLower strings_Fields process_NewProcess
       process_ProcessesWithContext pid name limit sortBy
     = inr (Errorf ("failed to get process " ++ fmt_d pid ++ ": " ++ Error cause))).
Proof.
  intros Hpid.
  assert (Hpos : (pid >? 0) = true) by (rewrite Z.gtb_ltb; now apply Z.ltb_lt).
  unfold getProcessInfo. rewrite Hpos. split; [|split].
  - intros name' limit' sortBy' listing'. reflexivity.
  - intros proc Hproc. rewrite Hproc.
    destruct (getProcessDetails_total strings_Fields proc)
      as [info [Hinfo [Hp [Hn _]]]].
    rewrite Hinfo. exists info. repeat split; assumption.
  - intros cause Hcause. rewrite Hcause. unfold wrapf.
    change ("failed to get process " ++ fmt_d pid ++ ": ")%string
      with ("failed to get process " ++ (fmt_d pid ++ ": "))%string.
    now rewrite !string_append_assoc.
Qed.

(** X13. Without a pid, every record [getProcessInfo] returns passes the
    name filter: its name, lowered, contains the name asked for, lowered
    (so the match ignores case); with no name asked for that is no
    restriction. *)
Theorem getProcessInfo_name_filter (pid : Z) (name : string) (limit : Z)
    (sortBy : string) (res : ProcessInfoResult) :
  pid <= 0 ->
  getProcessInfo mapUnicodeLower strings_Fields process_NewProcess
    process_ProcessesWithContext pid name limit sortBy = inl res ->
  Forall (fun info =>
            exists pre post,
              strings.ToLower mapUnicodeLower (Name info)
              = (pre ++ strings.ToLower mapUnicodeLower name ++ post)%string)
         (Processes res).
Proof.
  intros Hpid Hres.
  assert (Hlist : exists procs, process_ProcessesWithContext = inl procs).
  { revert Hres. unfold getProcessInfo.
    assert (Hnot : (pid >? 0) = false)
      by (rewrite Z.gtb_ltb; apply Z.ltb_ge; lia).
    rewrite Hnot.
    destruct process_ProcessesWithContext as [procs|e];
      [intros _; now exists procs|discriminate]. }
  destruct Hlist as [procs Hprocs].
  rewrite (getProcessInfo_enumeration pid name limit sortBy procs Hpid Hprocs)
    in Hres.
  injection Hres as <-. cbn [Processes].
  apply Forall_forall. intros info Hin.
  apply In_firstn in Hin.
  apply (Permutation_in info
           (Permutation_sym (sortProcessesBy_Permutation _ _ _))) in Hin.
  apply In_firstn in Hin.
  apply filter_In in Hin. destruct Hin as [_ Hmatch].
  unfold nameMatches in Hmatch. apply orb_true_iff in Hmatch.
  destruct Hmatch as [Hempty|Hcontains].
  - apply String.eqb_eq in Hempty. subst name.
    exists "", (strings.ToLower mapUnicodeLower (Name info)). reflexivity.
  - now apply Contains_substring.
Qed.

End CollectorComposition.

Lemma SFleb_fgt_false (x y : spec_float) :
  SFleb x y = true -> fgt x y = false.
Proof.
  intros Hle.
  assert (Hx : x <> S754_nan) by (intros ->; discriminate).
  assert (Hy : y <> S754_nan) by (intros ->; destruct x; discriminate).
  revert Hle. unfold fgt, SFltb, SFleb.
  rewrite (SFcompare_rank _ _ Hx Hy), (SFcompare_rank _ _ Hy Hx).
  destruct (lexcmp (SFrank x) (SFrank y)) eqn:E; try discriminate; intros _.
  - apply lexcmp_Eq in E. rewrite E. now rewrite (proj2 (lexcmp_Eq _ _) eq_refl).
  - apply lexcmp_Lt in E.
    destruct (lexcmp (SFrank y) (SFrank x)) eqn:E'; try reflexivity.
    apply lexcmp_Lt in E'. exfalso.
    exact (lexlt_irrefl _ (lexlt_trans _ _ _ E E')).
Qed.

Section ProcessListing.

Variable mapUnicodeLower : string -> string.
Variable strings_Fields : string -> list string.
Variable process_NewProcess : Z -> result process.Process.
Variable process_ProcessesWithContext : result (list process.Process).

Lemma sortProcessesBy_at_pid (processes : list ProcessInfo) (sortBy : string) :
  strings.ToLower mapUnicodeLower sortBy = "pid" ->
  sortProcessesBy mapUnicodeLower processes sortBy
  = sort.SliceStable (fun pi pj => PID pi <? PID pj) processes.
Proof. intros H. unfold sortProcessesBy. now rewrite H. Qed.

Lemma sortProcessesBy_at_name (processes : list ProcessInfo) (sortBy : string) :
  strings.ToLower mapUnicodeLower sortBy = "name" ->
  sortProcessesBy mapUnicodeLower processes sortBy
  = sort.SliceStable (fun pi pj => String.ltb (Name pi) (Name pj)) processes.
Proof. intros H. unfold sortProcessesBy. now rewrite H. Qed.

Lemma sortProcessesBy_at_memory (processes : list ProcessInfo) (sortBy : string) :
  strings.ToLower mapUnicodeLower sortBy = "memory" ->
  sortProcessesBy mapUnicodeLower processes sortBy
  = sort.SliceStable
      (fun pi pj => fgt (MemoryPercent pi) (MemoryPercent pj)) processes.
Proof. intros H. unfold sortProcessesBy. now rewrite H. Qed.

Lemma sortProcessesBy_at_cpu (processes : list ProcessInfo) (sortBy : string) :
  strings.ToLower mapUnicodeLower sortBy <> "pid" ->
  strings.ToLower mapUnicodeLower sortBy <> "name" ->
  strings.ToLower mapUnicodeLower sortBy <> "memory" ->
  sortProcessesBy mapUnicodeLower processes sortBy
  = sort.SliceStable (fun pi pj => fgt (CPUPercent pi) (CPUPercent pj)) processes.
Proof.
  intros Hpid Hname Hmem. apply String.eqb_neq in Hpid, Hname, Hmem.
  unfold sortProcessesBy. now rewrite Hpid, Hname, Hmem.
Qed.

Lemma collected_In (procs : list process.Process) (info : ProcessInfo) :
  In info (collected strings_Fields procs) ->
  exists p, In p procs /\
    CPUPercent info = fst (process.CPUPercentWithContext p) /\
    MemoryPercent info = fst (process.MemoryPercentWithContext p).
Proof.
  unfold collected. intros Hin. apply in_flat_map in Hin.
  destruct Hin as [p [Hp Hin]]. exists p. split; [exact Hp|].
  destruct (getProcessDetails_total strings_Fields p)
    as [info' [Hinfo [_ [_ [Hcpu Hmem]]]]].
  rewrite Hinfo in Hin. destruct Hin as [<-|[]]. now split.
Qed.

(** X14. Without a pid, the records [getProcessInfo] returns are in the
    order of the sort key: ascending by pid for "pid", ascending by name for
    "name", descending by memory percent for "memory" and descending by CPU
    percent for any other key (the key is lowered first). The two
    descending orders are over percents that are numbers, not NaN. *)
Theorem getProcessInfo_sorted (pid : Z) (name : string) (limit : Z)
    (sortBy : string) (procs : list process.Process) (res : ProcessInfoResult) :
  pid <= 0 ->
  process_ProcessesWithContext = inl procs ->
  getProcessInfo mapUnicodeLower strings_Fields process_NewProcess
    process_ProcessesWithContext pid name limit sortBy = inl res ->
  let key := strings.ToLower mapUnicodeLower sortBy in
  (key = "pid" ->
     StronglySorted (fun a b => PID a <= PID b) (Processes res)) /\
  (key = "name" ->
     StronglySorted (fun a b => String.leb (Name a) (Name b) = true)
                    (Processes res)) /\
  (key = "memory" ->
     Forall (fun p => fst (process.MemoryPercentWithContext p) <> S754_nan) procs ->
     StronglySorted
       (fun a b => SFleb (MemoryPercent b) (MemoryPercent a) = true)
       (Processes res)) /\
  (key <> "pid" -> key <> "name" -> key <> "memory" ->
     Forall (fun p => fst (process.CPUPercentWithContext p) <> S754_nan) procs ->
     StronglySorted
       (fun a b => SFleb (CPUPercent b) (CPUPercent a) = true)
       (Processes res)).
Proof.
  intros Hpid Hprocs Hres key.
  rewrite (getProcessInfo_enumeration mapUnicodeLower strings_Fields
             process_NewProcess process_ProcessesWithContext
             pid name limit sortBy procs Hpid Hprocs) in Hres.
  injection Hres as <-. cbn [Processes].
  set (gathered := firstn _ (filter _ (collected strings_Fields procs))).
  assert (Hfrom : forall info, In info gathered ->
            In info (collected strings_Fields procs)).
  { intros info Hin. subst gathered. apply In_firstn in Hin.
    apply filter_In in Hin. tauto. }
  split; [|split; [|split]].
  - intros Hkey. apply StronglySorted_firstn.
    rewrite sortProcessesBy_at_pid by exact Hkey. apply sortProcessesBy_pid.
  - intros Hkey. apply StronglySorted_firstn.
    rewrite sortProcessesBy_at_name by exact Hkey. apply sortProcessesBy_name.
  - intros Hkey Hnum. apply StronglySorted_firstn.
    rewrite sortProcessesBy_at_memory by exact Hkey.
    apply (sortProcessesBy_descending MemoryPercent).
    apply Forall_forall. intros info Hin.
    destruct (collected_In procs info (Hfrom info Hin)) as [p [Hp [_ Hmem]]].
    rewrite Hmem. rewrite Forall_forall in Hnum. now apply Hnum.
  - intros H1 H2 H3 Hnum. apply StronglySorted_firstn.
    rewrite sortProcessesBy_at_cpu by assumption.
    apply (sortProcessesBy_descending CPUPercent).
    apply Forall_forall. intros info Hin.
    destruct (collected_In procs info (Hfrom info Hin)) as [p [Hp [Hcpu _]]].
    rewrite Hcpu. rewrite Forall_forall in Hnum. now apply Hnum.
Qed.

(** X15. [getProcessInfo] depends on the limit only through the limit it
    works with: a call with any limit returns what the call with the
    normalised limit returns. So limit 0 (the field left out on the
    standard-stream transport) and limit 10 (the HTTP default) give the same
    result, as do any limit above 200 and limit 200. *)
Theorem getProcessInfo_limit_normalised (pid : Z) (name : string) (limit : Z)
    (sortBy : string) :
  getProcessInfo mapUnicodeLower strings_Fields process_NewProcess
    process_ProcessesWithContext pid name limit sortBy
  = getProcessInfo mapUnicodeLower strings_Fields process_NewProcess
      process_ProcessesWithContext pid name (getProcessInfo_limit limit) sortBy /\
  getProcessInfo mapUnicodeLower strings_Fields process_NewProcess
    process_ProcessesWithContext pid name 0 sortBy
  = getProcessInfo mapUnicodeLower strings_Fields process_NewProcess
      process_ProcessesWithContext pid name 10 sortBy /\
  (200 < limit ->
   getProcessInfo mapUnicodeLower strings_Fields process_NewProcess
     process_ProcessesWithContext pid name limit sortBy
   = getProcessInfo mapUnicodeLower strings_Fields process_NewProcess
       process_ProcessesWithContext pid name 200 sortBy).
Proof.
  assert (Hdep : forall l l', getProcessInfo_limit l = getProcessInfo_limit l' ->
    getProcessInfo mapUnicodeLower strings_Fields process_NewProcess
      process_ProcessesWithContext pid name l sortBy
    = getProcessInfo mapUnicodeLower strings_Fields process_NewProcess
        process_ProcessesWithContext pid name l' sortBy).
  { intros l l' H. unfold getProcessInfo. now rewrite H. }
  split; [|split].
  - apply Hdep. symmetry. apply getProcessInfo_limit_idempotent.
  - apply Hdep. reflexivity.
  - intros Hbig. apply Hdep.
    destruct (getProcessInfo_limit_cases limit) as [_ [H200 _]].
    now rewrite (H200 Hbig).
Qed.

(** X16. Without a pid, [getProcessInfo] returns as many records as the
    limit allows and the listing holds: the count is the smaller of the
    limit it works with and the number of listed processes that pass the
    name filter; with no name asked for, of the limit and the number of
    listed processes. *)
Theorem getProcessInfo_count (pid : Z) (name : string) (limit : Z)
    (sortBy : string) (procs : list process.Process) (res : ProcessInfoResult) :
  pid <= 0 ->
  process_ProcessesWithContext = inl procs ->
  getProcessInfo mapUnicodeLower strings_Fields process_NewProcess
    process_ProcessesWithContext pid name limit sortBy = inl res ->
  Count res
  = Z.min (getProcessInfo_limit limit)
          (len (filter (nameMatches mapUnicodeLower name)
                       (collected strings_Fields procs))) /\
  (name = "" -> Count res = Z.min (getProcessInfo_limit limit) (len procs)).
Proof.
  intros Hpid Hprocs Hres.
  rewrite (getProcessInfo_enumeration mapUnicodeLower strings_Fields
             process_NewProcess process_ProcessesWithContext
             pid name limit sortBy procs Hpid Hprocs) in Hres.
  injection Hres as <-. cbn [Count].
  pose proof (getProcessInfo_limit_range limit) as Hrange.
  set (eff := getProcessInfo_limit limit) in *.
  set (matching := filter _ (collected strings_Fields procs)).
  assert (Hcount :
    len (firstn (Z.to_nat eff)
           (sortProcessesBy mapUnicodeLower
              (firstn (Z.to_nat (2 * eff)) matching) sortBy))
    = Z.min eff (len matching)).
  { unfold len. rewrite length_firstn.
    rewrite <- (Permutation_length (sortProcessesBy_Permutation _ _ _)).
    rewrite length_firstn. lia. }
  split; [exact Hcount|].
  intros Hname. etransitivity; [exact Hcount|]. subst matching. rewrite Hname.
  rewrite filter_all by reflexivity.
  unfold len. rewrite <- (length_map PID (collected strings_Fields procs)).
  now rewrite collected_pids, length_map.
Qed.

(** X17. Sorting is idempotent: sorting a sorted list again by the same
    key changes nothing (for the two percent keys, over percents that are
    numbers). *)
Theorem sortProcessesBy_idempotent (processes : list ProcessInfo)
    (sortBy : string) :
  let key := strings.ToLower mapUnicodeLower sortBy in
  (key = "memory" ->
   Forall (fun p => MemoryPercent p <> S754_nan) processes) ->
  (key <> "pid" -> key <> "name" -> key <> "memory" ->
   Forall (fun p => CPUPercent p <> S754_nan) processes) ->
  sortProcessesBy mapUnicodeLower
    (sortProcessesBy mapUnicodeLower processes sortBy) sortBy
  = sortProcessesBy mapUnicodeLower processes sortBy.
Proof.
  intros key Hmem Hcpu.
  assert (Hkept : forall (ok : ProcessInfo -> Prop) less,
    Forall ok processes -> Forall ok (sort.SliceStable less processes)).
  { intros ok less Hok. rewrite Forall_forall in *. intros p Hp. apply Hok.
    eapply Permutation_in; [|exact Hp].
    apply Permutation_sym, SliceStable_Permutation. }
  assert (Hall : Forall (fun _ : ProcessInfo => True) processes)
    by (apply Forall_forall; trivial).
  destruct (String.eqb_spec key "memory") as [Ememory|Nmemory].
  { rewrite !sortProcessesBy_at_memory by exact Ememory.
    apply (SliceStable_ordered_fixed _ (fun p => MemoryPercent p <> S754_nan)).
    - intros x y _ _. apply fgt_asym.
    - intros x y z. apply fgt_negtrans.
    - apply Hkept. now apply Hmem.
    - apply (StronglySorted_weaken
               (fun a b => SFleb (MemoryPercent b) (MemoryPercent a) = true)).
      + intros a b _ _ Hle. now apply SFleb_fgt_false.
      + apply (sortProcessesBy_descending MemoryPercent). now apply Hmem. }
  destruct (String.eqb_spec key "pid") as [Epid|Npid].
  { rewrite !sortProcessesBy_at_pid by exact Epid.
    apply (SliceStable_ordered_fixed _ (fun _ => True)).
    - intros x y _ _ H. apply Z.ltb_lt in H. apply Z.ltb_ge. lia.
    - intros x y z _ _ _ H1 H2. apply Z.ltb_ge in H1, H2. apply Z.ltb_ge. lia.
    - now apply Hkept.
    - apply (StronglySorted_weaken (fun a b => PID a <= PID b)).
      + intros a b _ _ Hle. apply Z.ltb_ge. exact Hle.
      + apply sortProcessesBy_pid. }
  destruct (String.eqb_spec key "name") as [Ename|Nname].
  { rewrite !sortProcessesBy_at_name by exact Ename.
    apply (SliceStable_ordered_fixed _ (fun _ => True)).
    - intros x y _ _. apply string_ltb_asym.
    - intros x y z _ _ _. apply string_ltb_negtrans.
    - now apply Hkept.
    - apply (StronglySorted_weaken
               (fun a b => String.leb (Name a) (Name b) = true)).
      + intros a b _ _ Hle. unfold String.leb in Hle. unfold String.ltb.
        rewrite String.compare_antisym.
        destruct (String.compare (Name a) (Name b)); simpl; congruence.
      + apply sortProcessesBy_name. }
  rewrite !sortProcessesBy_at_cpu by assumption.
  apply (SliceStable_ordered_fixed _ (fun p => CPUPercent p <> S754_nan)).
  - intros x y _ _. apply fgt_asym.
  - intros x y z. apply fgt_negtrans.
  - apply Hkept. now apply Hcpu.
  - apply (StronglySorted_weaken
             (fun a b => SFleb (CPUPercent b) (CPUPercent a) = true)).
    + intros a b _ _ Hle. now apply SFleb_fgt_false.
    + apply (sortProcessesBy_descending CPUPercent). now apply Hcpu.
Qed.

(** X18. For the key "pid" the result is determined by three properties:
    any arrangement of the same records that is ascending by pid and keeps
    records of equal pid in their original order is the list
    [sortProcessesBy] returns. *)
Theorem sortProcessesBy_pid_unique (processes arranged : list ProcessInfo) :
  Permutation processes arranged ->
  StronglySorted (fun a b => PID a <= PID b) arranged ->
  (forall k, filter (fun p => PID p =? k) arranged
             = filter (fun p => PID p =? k) processes) ->
  arranged = sortProcessesBy mapUnicodeLower processes "pid".
Proof.
  intros Hperm Hsorted Hstable.
  rewrite sortProcessesBy_at_pid by reflexivity.
  apply (SliceStable_canonical _ (fun _ => True)).
  - intros x y _ _ H. apply Z.ltb_lt in H. apply Z.ltb_ge. lia.
  - intros x y z _ _ _ H1 H2. apply Z.ltb_ge in H1, H2. apply Z.ltb_ge. lia.
  - apply Forall_forall. trivial.
  - exact Hperm.
  - apply (StronglySorted_weaken (fun a b => PID a <= PID b)); [|exact Hsorted].
    intros a b _ _ Hle. now apply Z.ltb_ge.
  - intros x _.
    assert (Htied : forall l,
      filter (sort.tied (fun pi pj => PID pi <? PID pj) x) l
      = filter (fun p => PID p =? PID x) l).
    { intros l. apply filter_ext. intros p. unfold sort.tied.
      destruct (Z.ltb_spec (PID x) (PID p)), (Z.ltb_spec (PID p) (PID x)),
               (Z.eqb_spec (PID p) (PID x)); simpl; try reflexivity; lia. }
    rewrite !Htied. apply Hstable.
Qed.

End ProcessListing.

Section HostQueries.

Variable runtime_NumCPU : Z.
Variable cpu_PercentWithContext : time.Duration -> bool -> result (list float64).
Variable cpu_InfoWithContext : result (list cpu.InfoStat).
Variable cpu_Counts : bool -> result Z.
Variable disk_UsageWithContext : string -> result disk.UsageStat.
Variable disk_PartitionsWithContext : bool -> result (list disk.PartitionStat).
Variable net_IOCountersWithContext : bool -> result (list net.IOCountersStat).
Variable host_InfoWithContext : result host.InfoStat.

(** X19. [getCPUInfo] succeeds exactly when the usage sampling and the CPU
    enumeration succeed, and reports which of the two failed otherwise
    (sampling first). A failing core count never fails the call: the
    logical count falls back to [runtime.NumCPU()] and the physical count
    to the logical count; an empty enumeration leaves the model fields
    empty. *)
Theorem getCPUInfo_outcome (perCPU : bool) (intervalMs : Z) :
  let sampled := cpu_PercentWithContext (getCPUInfo_interval intervalMs) perCPU in
  let call := getCPUInfo runtime_NumCPU cpu_PercentWithContext
                cpu_InfoWithContext cpu_Counts perCPU intervalMs in
  (forall cause, sampled = inr cause ->
     call = inr (Errorf ("failed to get CPU usage: " ++ Error cause))) /\
  (forall usage cause, sampled = inl usage -> cpu_InfoWithContext = inr cause ->
     call = inr (Errorf ("failed to get CPU info: " ++ Error cause))) /\
  (forall usage models, sampled = inl usage -> cpu_InfoWithContext = inl models ->
     exists out,
       call = inl out /\
       CPUInfo.Usage out = usage /\
       CPUInfo.Count out
         = match cpu_Counts true with inl n => n | inr _ => runtime_NumCPU end /\
       CPUInfo.PhysicalCount out
         = match cpu_Counts false with inl n => n | inr _ => CPUInfo.Count out end /\
       CPUInfo.ModelName out
         = match models with i0 :: _ => cpu.ModelName i0 | [] => "" end /\
       CPUInfo.Flags out
         = match models with i0 :: _ => cpu.Flags i0 | [] => [] end).
Proof.
  intros sampled call. subst sampled call. unfold getCPUInfo.
  assert (Hsample :
    (if perCPU
     then cpu_PercentWithContext (getCPUInfo_interval intervalMs) true
     else cpu_PercentWithContext (getCPUInfo_interval intervalMs) false)
    = cpu_PercentWithContext (getCPUInfo_interval intervalMs) perCPU)
    by (destruct perCPU; reflexivity).
  rewrite Hsample. split; [|split].
  - intros cause ->. reflexivity.
  - intros usage cause -> ->. reflexivity.
  - intros usage models -> ->. destruct models as [|i0 rest];
      eexists; (split; [reflexivity|]); repeat split.
Qed.

Lemma getCPUInfo_interval_normal (intervalMs : Z) :
  getCPUInfo_interval intervalMs
  = getCPUInfo_interval
      (if 0 <? intervalMs then clamp 100 10000 intervalMs else 1000).
Proof.
  unfold getCPUInfo_interval, clamp. rewrite !Z.gtb_ltb.
  destruct (Z.ltb_spec 0 intervalMs) as [Hpos|Hneg]; [|reflexivity].
  destruct (Z.ltb_spec intervalMs 100) as [Hlo|Hlo].
  - replace (Z.max 100 (Z.min 10000 intervalMs)) with 100 by lia. reflexivity.
  - destruct (Z.ltb_spec 10000 intervalMs) as [Hhi|Hhi].
    + replace (Z.max 100 (Z.min 10000 intervalMs)) with 10000 by lia.
      reflexivity.
    + replace (Z.max 100 (Z.min 10000 intervalMs)) with intervalMs by lia.
      destruct (Z.ltb_spec 0 intervalMs); [|lia].
      destruct (Z.ltb_spec intervalMs 100); [lia|].
      destruct (Z.ltb_spec 10000 intervalMs); [lia|reflexivity].
Qed.

(** X20. [getCPUInfo] depends on the interval only through its normal form:
    a call with a positive interval returns what the call with the interval
    clamped into [[100, 10000]] returns, and a call with an interval that is
    not positive what the call with 1000 returns. So interval 0 (the field
    left out on the standard-stream transport) and 1000 (the HTTP default)
    give the same result. *)
Theorem getCPUInfo_interval_normalised (perCPU : bool) (intervalMs : Z) :
  getCPUInfo runtime_NumCPU cpu_PercentWithContext cpu_InfoWithContext
    cpu_Counts perCPU intervalMs
  = getCPUInfo runtime_NumCPU cpu_PercentWithContext cpu_InfoWithContext
      cpu_Counts perCPU
      (if 0 <? intervalMs then clamp 100 10000 intervalMs else 1000) /\
  getCPUInfo runtime_NumCPU cpu_PercentWithContext cpu_InfoWithContext
    cpu_Counts perCPU 0
  = getCPUInfo runtime_NumCPU cpu_PercentWithContext cpu_InfoWithContext
      cpu_Counts perCPU 1000.
Proof.
  split; [|reflexivity].
  unfold getCPUInfo. now rewrite <- getCPUInfo_interval_normal.
Qed.

Lemma measured_In (parts : list disk.PartitionStat) (p : disk.PartitionStat)
    (u : disk.UsageStat) :
  In p parts ->
  disk_UsageWithContext (disk.Mountpoint p) = inl u ->
  In (p, u) (measured disk_UsageWithContext parts).
Proof.
  intros Hin Hu. induction parts as [|q parts IH]; [contradiction|].
  simpl. destruct Hin as [->|Hin].
  - rewrite Hu. now left.
  - destruct (disk_UsageWithContext (disk.Mountpoint q)); [right|]; now apply IH.
Qed.

(** X21. With a path, [getDiskInfo] asks for the usage of that path and
    nothing else: the partition listing plays no part, and a failing usage
    query fails the call with "failed to get disk usage for <path>:
    <cause>". For a listed partition mounted at the path, the record so
    obtained carries the same mountpoint and the same figures as the record
    the call without a path returns for that partition; only the device
    ("N/A") and the filesystem type (taken from the usage, not from the
    partition) are filled differently. *)
Theorem getDiskInfo_path_versus_listing (path : string) :
  path <> "" ->
  (forall listing',
     getDiskInfo disk_UsageWithContext disk_PartitionsWithContext path
     = getDiskInfo disk_UsageWithContext listing' path) /\
  (forall cause, disk_UsageWithContext path = inr cause ->
     getDiskInfo disk_UsageWithContext disk_PartitionsWithContext path
     = inr (Errorf ("failed to get disk usage for " ++ path ++ ": " ++ Error cause))) /\
  (forall parts p u,
     disk_PartitionsWithContext false = inl parts ->
     In p parts -> disk.Mountpoint p = path ->
     disk_UsageWithContext path = inl u ->
     exists all,
       getDiskInfo disk_UsageWithContext disk_PartitionsWithContext "" = inl all /\
       In (partitionRecord p u) (Disks all) /\
       getDiskInfo disk_UsageWithContext disk_PartitionsWithContext path
       = inl {| Disks :=
                  [ {| Device := "N/A";
                       Mountpoint := Mountpoint (partitionRecord p u);
                       Fstype := disk.Fstype u;
                       Total := Total (partitionRecord p u);
                       Free := Free (partitionRecord p u);
                       Used := Used (partitionRecord p u);
                       UsedPercent := UsedPercent (partitionRecord p u);
                       InodesTotal := InodesTotal (partitionRecord p u);
                       InodesUsed := InodesUsed (partitionRecord p u);
                       InodesFree := InodesFree (partitionRecord p u) |} ] |}).
Proof.
  intros Hpath. apply String.eqb_neq in Hpath.
  split; [|split].
  - intros listing'. unfold getDiskInfo. now rewrite Hpath.
  - intros cause Hcause. unfold getDiskInfo. rewrite Hpath, Hcause. cbn [negb].
    now rewrite wrapf_message.
  - intros parts p u Hparts Hin Hmount Hu.
    exists {| Disks := map (fun pu => partitionRecord (fst pu) (snd pu))
                           (measured disk_UsageWithContext parts) |}.
    split; [|split].
    + unfold getDiskInfo. simpl. rewrite Hparts.
      now rewrite getDiskInfo_range_measured.
    + cbn [Disks].
      apply (in_map (fun pu => partitionRecord (fst pu) (snd pu))
                    _ (p, u)).
      apply measured_In; [exact Hin|]. now rewrite Hmount.
    + unfold getDiskInfo. rewrite Hpath, Hu. simpl. now rewrite Hmount.
Qed.

Lemma filter_interfaceRecord (iface : string) (stats : list net.IOCountersStat) :
  map interfaceRecord (filter (fun s => String.eqb (net.Name s) iface) stats)
  = filter (fun r => String.eqb (Interface r) iface) (map interfaceRecord stats).
Proof.
  induction stats as [|s stats IH]; simpl; [reflexivity|].
  destruct (String.eqb (net.Name s) iface); simpl; now rewrite IH.
Qed.

(** X22. Asking [getNetworkInfo] for one interface gives what asking for
    all interfaces and keeping the records of that name gives, so a filter
    never yields more records than no filter; and the call fails only when
    the counter query fails, with "failed to get network stats: <cause>",
    whatever the filter. *)
Theorem getNetworkInfo_filter_composes (iface : string) :
  (forall cause, net_IOCountersWithContext true = inr cause ->
     getNetworkInfo net_IOCountersWithContext iface
     = inr (Errorf ("failed to get network stats: " ++ Error cause))) /\
  (forall stats, net_IOCountersWithContext true = inl stats ->
     exists all,
       getNetworkInfo net_IOCountersWithContext "" = inl {| Interfaces := all |} /\
       List.length all = List.length stats /\
       (iface <> "" ->
        getNetworkInfo net_IOCountersWithContext iface
        = inl {| Interfaces :=
                   filter (fun r => String.eqb (Interface r) iface) all |})).
Proof.
  split.
  - intros cause Hcause. unfold getNetworkInfo. now rewrite Hcause.
  - intros stats Hstats. exists (map interfaceRecord stats).
    unfold getNetworkInfo. rewrite Hstats.
    rewrite !getNetworkInfo_range_filter. cbn [app].
    split; [|split].
    + simpl. now rewrite filter_all.
    + apply length_map.
    + intros Hne. apply String.eqb_neq in Hne. rewrite Hne. simpl.
      now rewrite filter_interfaceRecord.
Qed.

(** X23. [getSystemInfo] succeeds exactly when the host query succeeds: an
    error from the temperature sensors is dropped, and whatever readings
    came with it are reported, one entry per reading, in order. When the
    host query fails the call fails with "failed to get host info:
    <cause>". *)
Theorem getSystemInfo_ignores_sensor_errors
    (temps : list host.TemperatureStat) (sensorError : option error) :
  (forall cause, host_InfoWithContext = inr cause ->
     getSystemInfo host_InfoWithContext (temps, sensorError)
     = inr (Errorf ("failed to get host info: " ++ Error cause))) /\
  (forall hostInfo, host_InfoWithContext = inl hostInfo ->
     exists out,
       getSystemInfo host_InfoWithContext (temps, sensorError) = inl out /\
       getSystemInfo host_InfoWithContext (temps, None) = inl out /\
       SystemInfo.Hostname out = host.Hostname hostInfo /\
       map TemperatureStat.SensorKey (SystemInfo.Temperature out)
       = map host.SensorKey temps /\
       map TemperatureStat.Temperature (SystemInfo.Temperature out)
       = map host.Temperature temps).
Proof.
  split.
  - intros cause Hcause. unfold getSystemInfo. now rewrite Hcause.
  - intros hostInfo Hinfo. unfold getSystemInfo. rewrite Hinfo.
    eexists. split; [reflexivity|]. split; [reflexivity|]. cbn.
    split; [reflexivity|]. rewrite !map_map. split; reflexivity.
Qed.

End HostQueries.

Section ToolCallsOverHTTP.

Variable w : Host.t.
Variable base64_DecodeString : string -> result string.
Variable json_Unmarshal_ServerConfig : string -> result ServerConfig.
Variable json_Unmarshal_MCPRequest : string -> result MCPRequest.t.

(** X24. A [tools/call] of [get_disk_info] over HTTP, for a path: when the
    usage query fails, the response is the JSON-RPC error with code -32601
    and the collector's message "failed to get disk usage for <path>:
    <cause>", without a result (the content rendered from the empty result
    is dropped); when it succeeds, the response has no error and its result
    is one text content item holding the rendering of the one-record
    result. *)
Theorem tools_call_get_disk_info (h : HTTPServer) (r : http.Request)
    (body path : string) (req : MCPRequest.t) :
  http.Method r = "POST" ->
  http.Body r = inl body ->
  json_Unmarshal_MCPRequest body = inl req ->
  MCPRequest.Method req = "tools/call" ->
  MCPRequest.Params req = toolCall "get_disk_info" [("path", Str path)] ->
  path <> "" ->
  let answer :=
    http.Out (snd (ServeHTTP base64_DecodeString json_Unmarshal_ServerConfig
                     json_Unmarshal_MCPRequest (handleToolCall w) h r)) in
  (forall cause, Host.disk_UsageWithContext w path = inr cause ->
     answer
     = http.EncodeJSON
         {| MCPResponse.JsonRPC := "2.0";
            MCPResponse.ID := MCPRequest.ID req;
            MCPResponse.Result := Nil;
            MCPResponse.Error :=
              errorObject ("failed to get disk usage for " ++ path ++ ": "
                           ++ Error cause) |}) /\
  (forall u, Host.disk_UsageWithContext w path = inl u ->
     exists d,
       answer
       = http.EncodeJSON
           {| MCPResponse.JsonRPC := "2.0";
              MCPResponse.ID := MCPRequest.ID req;
              MCPResponse.Result :=
                textContent (Host.Sprintf_DiskInfoResult w {| Disks := [d] |});
              MCPResponse.Error := Nil |} /\
       Mountpoint d = path /\ Device d = "N/A").
Proof.
  intros Hpost Hbody Hreq Hmethod Hparams Hpath answer. subst answer.
  apply String.eqb_neq in Hpath.
  unfold ServeHTTP. rewrite Hpost. cbn [String.eqb Ascii.eqb Bool.eqb snd http.Out].
  set (h' := if negb (String.eqb (http.Query_config r) "") then _ else h).
  unfold handleMCPRequest. rewrite Hpost, Hbody, Hreq, Hmethod, Hparams.
  cbn [negb String.eqb Ascii.eqb Bool.eqb].
  unfold handleToolCall, toolCall. cbn [index String.eqb Ascii.eqb Bool.eqb].
  unfold getDiskInfo. rewrite Hpath. cbn [negb].
  split.
  - intros cause Hcause. rewrite Hcause. cbn [toolReturn].
    now rewrite wrapf_message.
  - intros u Hu. rewrite Hu. cbn [toolReturn].
    eexists. split; [reflexivity|]. split; reflexivity.
Qed.

(** A tool call that reports no error has built its result. *)
Lemma handleToolCall_result (h : HTTPServer) (params result : any) :
  handleToolCall w h params = (result, None) -> isNil result = false.
Proof.
  unfold handleToolCall.
  destruct params as [| | | | | |paramsMap]; try discriminate.
  destruct (index paramsMap "name") as [| | | |toolName| |]; try discriminate.
  cbv zeta.
  repeat match goal with
  | |- context [String.eqb toolName ?n] =>
    destruct (String.eqb toolName n);
      [match goal with
       | |- toolReturn ?s ?z ?c = _ -> _ =>
         destruct (toolReturn_content s z c) as (text & err & ->);
         intros H; injection H as <- _; reflexivity
       end|]
  end.
  discriminate.
Qed.

(** X7. Every JSON-RPC response the adapter writes has [jsonrpc] "2.0" and
    holds exactly one of a result and an error: the result of "initialize",
    of "tools/list" or of a tool call that reports no error, and otherwise
    the error object with code -32601, whose message is the text of the
    error ("unknown method: " and the method, or what [handleToolCall]
    reports for malformed parameters, an unknown tool or a collector that
    failed), without a result. *)
Theorem handleMCPRequest_result_or_error (h : HTTPServer) (r : http.Request)
    (body : string) (req : MCPRequest.t) :
  http.Method r = "POST" ->
  http.Body r = inl body ->
  json_Unmarshal_MCPRequest body = inl req ->
  exists response,
    handleMCPRequest json_Unmarshal_MCPRequest (handleToolCall w) h r
      = http.EncodeJSON response /\
    MCPResponse.JsonRPC response = "2.0" /\
    (isNil (MCPResponse.Result response) = false /\
     MCPResponse.Error response = Nil \/
     MCPResponse.Result response = Nil /\
     isNil (MCPResponse.Error response) = false) /\
    (MCPRequest.Method req = "initialize" ->
       MCPResponse.Result response = initializeResult /\
       MCPResponse.Error response = Nil) /\
    (MCPRequest.Method req = "tools/list" ->
       MCPResponse.Result response = toolsListResult /\
       MCPResponse.Error response = Nil) /\
    (MCPRequest.Method req = "tools/call" ->
       forall result err,
         handleToolCall w h (MCPRequest.Params req) = (result, Some err) ->
         MCPResponse.Result response = Nil /\
         MCPResponse.Error response = errorObject (Error err)) /\
    (MCPRequest.Method req = "tools/call" ->
       forall result,
         handleToolCall w h (MCPRequest.Params req) = (result, None) ->
         MCPResponse.Result response = result /\
         MCPResponse.Error response = Nil) /\
    (MCPRequest.Method req <> "initialize" ->
     MCPRequest.Method req <> "tools/list" ->
     MCPRequest.Method req <> "tools/call" ->
       MCPResponse.Result response = Nil /\
       MCPResponse.Error response
       = errorObject ("unknown method: " ++ MCPRequest.Method req)).
Proof.
  intros Hpost Hbody Hreq. unfold handleMCPRequest.
  rewrite Hpost, Hbody, Hreq. cbn [negb String.eqb].
  destruct (String.eqb (MCPRequest.Method req) "initialize") eqn:Einit.
  { apply String.eqb_eq in Einit. eexists. split; [reflexivity|].
    cbn. split; [reflexivity|]. split; [left; split; reflexivity|].
    split; [intros _; split; reflexivity|].
    split; [intros Hc; rewrite Einit in Hc; discriminate|].
    split; [intros Hc; rewrite Einit in Hc; discriminate|].
    split; [intros Hc; rewrite Einit in Hc; discriminate|].
    intros Hc. contradiction. }
  destruct (String.eqb (MCPRequest.Method req) "tools/list") eqn:Elist.
  { apply String.eqb_eq in Elist. eexists. split; [reflexivity|].
    cbn. split; [reflexivity|]. split; [left; split; reflexivity|].
    split; [intros Hc; rewrite Elist in Hc; discriminate|].
    split; [intros _; split; reflexivity|].
    split; [intros Hc; rewrite Elist in Hc; discriminate|].
    split; [intros Hc; rewrite Elist in Hc; discriminate|].
    intros _ Hc. contradiction. }
  apply String.eqb_neq in Einit, Elist.
  destruct (String.eqb (MCPRequest.Method req) "tools/call") eqn:Ecall.
  - apply String.eqb_eq in Ecall.
    destruct (handleToolCall w h (MCPRequest.Params req)) as [result [err|]]
      eqn:Etool.
    + eexists. split; [reflexivity|]. cbn.
      split; [reflexivity|]. split; [right; split; reflexivity|].
      split; [intros Hc; contradiction|]. split; [intros Hc; contradiction|].
      split; [|split].
      * intros _ result' err' H. injection H as _ <-. split; reflexivity.
      * intros _ result' H. discriminate.
      * intros _ _ Hc. contradiction.
    + eexists. split; [reflexivity|]. cbn.
      split; [reflexivity|].
      split; [left; split; [now apply (handleToolCall_result h _ _ Etool)
                           |reflexivity]|].
      split; [intros Hc; contradiction|]. split; [intros Hc; contradiction|].
      split; [|split].
      * intros _ result' err' H. discriminate.
      * intros _ result' H. injection H as <-. split; reflexivity.
      * intros _ _ Hc. contradiction.
  - apply String.eqb_neq in Ecall.
    eexists. split; [reflexivity|]. cbn.
    split; [reflexivity|]. split; [right; split; reflexivity|].
    split; [intros Hc; contradiction|]. split; [intros Hc; contradiction|].
    split; [intros Hc; contradiction|]. split; [intros Hc; contradiction|].
    intros _ _ _. split; reflexivity.
Qed.

End ToolCallsOverHTTP.

(** * The further statements on the concrete host *)

(** The tool calls run on the example host. *)
Example handleToolCall_on_example_host :
  handleToolCall ExampleHost.w NewHTTPServer
    (toolCall "get_process_info" [("limit", Float64 (Examples.f64 3 (-1)))])
  = (textContent "{Processes:1", None) /\
  handleToolCall ExampleHost.w NewHTTPServer
    (toolCall "get_network_info" [("interface", Str "eth0")])
  = (textContent "{Interfaces:1", None) /\
  handleToolCall ExampleHost.w NewHTTPServer (toolCall "get_memory_info" [])
  = (textContent "{Total:", Some (Errorf "failed to get swap memory: no swap")) /\
  handleToolCall ExampleHost.w NewHTTPServer (toolCall "get_uptime" [])
  = (Nil, Some (Errorf "unknown tool: get_uptime")) /\
  handleToolCall ExampleHost.w NewHTTPServer (Str "get_cpu_info")
  = (Nil, Some (Errorf "invalid params format")).
Proof. repeat split. Qed.


Lemma ServeHTTP_options_preflight_witness :
  http.Method (ExampleHost.request "OPTIONS" Examples.blob5000 (inl "")) = "OPTIONS" /\
  fst (ServeHTTP Examples.base64_DecodeString Examples.json_Unmarshal_ServerConfig
         Examples.json_Unmarshal_MCPRequest Examples.handleToolCall
         NewHTTPServer
         (ExampleHost.request "OPTIONS" Examples.blob5000 (inl "")))
  = NewHTTPServer.
Proof.
  split; [reflexivity|].
  destruct (ServeHTTP_options_preflight
              Examples.base64_DecodeString Examples.json_Unmarshal_ServerConfig
              Examples.json_Unmarshal_MCPRequest Examples.handleToolCall
              NewHTTPServer
              (ExampleHost.request "OPTIONS" Examples.blob5000 (inl "")) eq_refl)
    as [Hserved _].
  rewrite Hserved. reflexivity.
Defined.

Lemma ServeHTTP_refused_method_still_configures_witness :
  Examples.base64_DecodeString Examples.blob5000
    = inl (Examples.configText "5000") /\
  Examples.json_Unmarshal_ServerConfig (Examples.configText "5000")
    = inl {| RefreshInterval := 5000; EnableDebug := true |} /\
  EnableDebug
    (config
       (fst (ServeHTTP Examples.base64_DecodeString
               Examples.json_Unmarshal_ServerConfig
               Examples.json_Unmarshal_MCPRequest Examples.handleToolCall
               NewHTTPServer
               (ExampleHost.request "GET" Examples.blob5000 (inl "")))))
  = true.
Proof.
  split; [reflexivity|]. split; [reflexivity|].
  apply (ServeHTTP_refused_method_still_configures
           Examples.base64_DecodeString Examples.json_Unmarshal_ServerConfig
           Examples.json_Unmarshal_MCPRequest Examples.handleToolCall
           NewHTTPServer
           (ExampleHost.request "GET" Examples.blob5000 (inl ""))
           (Examples.configText "5000")
           {| RefreshInterval := 5000; EnableDebug := true |});
    try discriminate; reflexivity.
Defined.

Lemma ServeHTTP_bad_body_witness :
  Examples.json_Unmarshal_MCPRequest "{"
    = inr (Errorf "unexpected end of JSON input") /\
  exists msg,
    snd (ServeHTTP Examples.base64_DecodeString
           Examples.json_Unmarshal_ServerConfig
           Examples.json_Unmarshal_MCPRequest Examples.handleToolCall
           NewHTTPServer (ExampleHost.request "POST" "" (inl "{")))
    = {| http.Header :=
           (corsHeaders ++ [("Content-Type", "text/plain; charset=utf-8");
                            ("X-Content-Type-Options", "nosniff")])%list;
         http.Out := http.Error msg 400 |} /\
    msg = "Invalid JSON".
Proof.
  split; [reflexivity|].
  destruct (ServeHTTP_bad_body
              Examples.base64_DecodeString Examples.json_Unmarshal_ServerConfig
              Examples.json_Unmarshal_MCPRequest Examples.handleToolCall
              NewHTTPServer (ExampleHost.request "POST" "" (inl "{"))
              (Errorf "unexpected end of JSON input") eq_refl
              (or_intror (ex_intro _ "{" (conj eq_refl eq_refl))))
    as [msg [Hserved [_ Hmsg]]].
  exists msg. split; [exact Hserved|]. apply Hmsg. discriminate.
Defined.

Lemma handleMCPRequest_result_or_error_witness :
  http.Method Examples.post = "POST" /\
  http.Body Examples.post = inl Examples.unknownBody /\
  ExampleHost.json_Unmarshal_MCPRequest Examples.unknownBody
    = inl Examples.unknownRequest /\
  exists response,
    handleMCPRequest ExampleHost.json_Unmarshal_MCPRequest
      (handleToolCall ExampleHost.w) NewHTTPServer Examples.post
    = http.EncodeJSON response /\
    MCPResponse.Result response = Nil /\
    MCPResponse.Error response = errorObject "unknown method: totally_unknown".
Proof.
  split; [reflexivity|]. split; [reflexivity|]. split; [reflexivity|].
  destruct (handleMCPRequest_result_or_error
              ExampleHost.w ExampleHost.json_Unmarshal_MCPRequest
              NewHTTPServer Examples.post Examples.unknownBody
              Examples.unknownRequest eq_refl eq_refl eq_refl)
    as [response [Hserved [_ [_ [_ [_ [_ [_ Hunknown]]]]]]]].
  exists response. split; [exact Hserved|].
  apply Hunknown; discriminate.
Defined.

Lemma handleToolCall_serves_catalogue_witness :
  index [("name", Str "get_load_average")] "name" = Str "get_load_average" /\
  In "get_load_average" (toolNames toolsListResult) /\
  exists text err,
    handleToolCall ExampleHost.w NewHTTPServer
      (Map [("name", Str "get_load_average")]) = (textContent text, err).
Proof.
  assert (Hin : In "get_load_average" (toolNames toolsListResult))
    by (simpl; tauto).
  split; [reflexivity|]. split; [exact Hin|].
  apply (handleToolCall_serves_catalogue ExampleHost.w NewHTTPServer
           [("name", Str "get_load_average")] "get_load_average" eq_refl).
  exact Hin.
Defined.

Lemma handleToolCall_reads_advertised_inputs_witness :
  handleToolCall ExampleHost.w NewHTTPServer
    (Map [("name", Str "get_process_info");
          ("arguments", Map [("limit", Str "5"); ("verbose", Bool true)])])
  = handleToolCall ExampleHost.w NewHTTPServer
      (Map [("id", Int 3); ("name", Str "get_process_info")]).
Proof.
  apply (handleToolCall_reads_advertised_inputs ExampleHost.w NewHTTPServer
           [("name", Str "get_process_info");
            ("arguments", Map [("limit", Str "5"); ("verbose", Bool true)])]
           [("id", Int 3); ("name", Str "get_process_info")]
           "get_process_info" eq_refl eq_refl).
  intros key type Hin. simpl in Hin.
  repeat match goal with
  | H : _ \/ _ |- _ => destruct H as [H|H]
  end; try contradiction; inversion Hin; reflexivity.
Defined.

Lemma handleToolCall_defaults_witness :
  (forall argsMap,
     index [("name", Str "get_cpu_info"); ("arguments", Str "none")] "arguments"
     <> Map argsMap) /\
  handleToolCall ExampleHost.w NewHTTPServer
    (Map [("name", Str "get_cpu_info"); ("arguments", Str "none")])
  = toolReturn (Host.Sprintf_CPUInfo ExampleHost.w) zeroCPUInfo
      (getCPUInfo (Host.runtime_NumCPU ExampleHost.w)
         (Host.cpu_PercentWithContext ExampleHost.w)
         (Host.cpu_InfoWithContext ExampleHost.w)
         (Host.cpu_Counts ExampleHost.w) false 1000).
Proof.
  assert (Hnone : forall argsMap,
    index [("name", Str "get_cpu_info"); ("arguments", Str "none")] "arguments"
    <> Map argsMap) by (intros argsMap; discriminate).
  split; [exact Hnone|].
  apply (handleToolCall_defaults ExampleHost.w NewHTTPServer
           [("name", Str "get_cpu_info"); ("arguments", Str "none")] Hnone).
  reflexivity.
Defined.

Lemma getProcessInfo_pid_lookup_witness :
  0 < 1 /\
  Examples.process_NewProcess 1 = inl Examples.running /\
  exists info,
    getProcessInfo Examples.mapUnicodeLower Examples.strings_Fields
      Examples.process_NewProcess Examples.process_ProcessesWithContext
      1 "no such name" 0 "pid"
    = inl {| Processes := [info]; Count := 1 |} /\
    PID info = 1 /\ Name info = "init".
Proof.
  split; [lia|]. split; [reflexivity|].
  destruct (getProcessInfo_pid_lookup
              Examples.mapUnicodeLower Examples.strings_Fields
              Examples.process_NewProcess Examples.process_ProcessesWithContext
              1 "no such name" 0 "pid" ltac:(lia))
    as [_ [Hfound _]].
  exact (Hfound Examples.running eq_refl).
Defined.

Lemma getProcessInfo_name_filter_witness :
  0 <= 0 /\
  exists res,
    getProcessInfo Examples.mapUnicodeLower Examples.strings_Fields
      Examples.process_NewProcess Examples.process_ProcessesWithContext
      0 "INI" 0 "" = inl res /\
    Forall (fun info =>
              exists pre post,
                strings.ToLower Examples.mapUnicodeLower (Name info)
                = (pre ++ "ini" ++ post)%string)
           (Processes res).
Proof.
  split; [lia|]. eexists. split; [reflexivity|].
  apply (getProcessInfo_name_filter
           Examples.mapUnicodeLower Examples.strings_Fields
           Examples.process_NewProcess Examples.process_ProcessesWithContext
           0 "INI" 0 "" _ ltac:(lia) eq_refl).
Defined.

Lemma getProcessInfo_sorted_witness :
  Examples.process_ProcessesWithContext = inl [Examples.running; Examples.vanished] /\
  exists res,
    getProcessInfo Examples.mapUnicodeLower Examples.strings_Fields
      Examples.process_NewProcess Examples.process_ProcessesWithContext
      0 "" 0 "PID" = inl res /\
    StronglySorted (fun a b => PID a <= PID b) (Processes res).
Proof.
  split; [reflexivity|]. eexists. split; [reflexivity|].
  apply (getProcessInfo_sorted
           Examples.mapUnicodeLower Examples.strings_Fields
           Examples.process_NewProcess Examples.process_ProcessesWithContext
           0 "" 0 "PID" [Examples.running; Examples.vanished] _
           ltac:(lia) eq_refl eq_refl).
  reflexivity.
Defined.

Lemma getProcessInfo_count_witness :
  Examples.process_ProcessesWithContext = inl [Examples.running; Examples.vanished] /\
  exists res,
    getProcessInfo Examples.mapUnicodeLower Examples.strings_Fields
      Examples.process_NewProcess Examples.process_ProcessesWithContext
      0 "" 1 "" = inl res /\
    Count res = Z.min (getProcessInfo_limit 1) 2.
Proof.
  split; [reflexivity|]. eexists. split; [reflexivity|].
  apply (getProcessInfo_count
           Examples.mapUnicodeLower Examples.strings_Fields
           Examples.process_NewProcess Examples.process_ProcessesWithContext
           0 "" 1 "" [Examples.running; Examples.vanished] _
           ltac:(lia) eq_refl eq_refl).
  reflexivity.
Defined.

Lemma sortProcessesBy_idempotent_witness :
  Forall (fun p => MemoryPercent p <> S754_nan) Examples.processes /\
  sortProcessesBy Examples.mapUnicodeLower
    (sortProcessesBy Examples.mapUnicodeLower Examples.processes "memory")
    "memory"
  = sortProcessesBy Examples.mapUnicodeLower Examples.processes "memory".
Proof.
  assert (Hmem : Forall (fun p => MemoryPercent p <> S754_nan) Examples.processes)
    by (repeat constructor; discriminate).
  split; [exact Hmem|].
  apply (sortProcessesBy_idempotent Examples.mapUnicodeLower
           Examples.processes "memory").
  - intros _. exact Hmem.
  - intros _ _ Hno. exfalso. apply Hno. reflexivity.
Defined.

Lemma sortProcessesBy_pid_unique_witness :
  Permutation Examples.processes
    [ Examples.record 50 "process_a" (Examples.f64 25 0) (Examples.f32 20 0);
      Examples.record 75 "process_b" (Examples.f64 11 (-1)) (Examples.f32 30 0);
      Examples.record 100 "process_c" (Examples.f64 31 (-1)) (Examples.f32 10 0) ] /\
  [ Examples.record 50 "process_a" (Examples.f64 25 0) (Examples.f32 20 0);
    Examples.record 75 "process_b" (Examples.f64 11 (-1)) (Examples.f32 30 0);
    Examples.record 100 "process_c" (Examples.f64 31 (-1)) (Examples.f32 10 0) ]
  = sortProcessesBy Examples.mapUnicodeLower Examples.processes "pid".
Proof.
  assert (Hperm : Permutation Examples.processes
    [ Examples.record 50 "process_a" (Examples.f64 25 0) (Examples.f32 20 0);
      Examples.record 75 "process_b" (Examples.f64 11 (-1)) (Examples.f32 30 0);
      Examples.record 100 "process_c" (Examples.f64 31 (-1)) (Examples.f32 10 0) ]).
  { unfold Examples.processes.
    eapply perm_trans; [apply perm_swap|]. apply perm_skip. apply perm_swap. }
  split; [exact Hperm|].
  apply (sortProcessesBy_pid_unique Examples.mapUnicodeLower _ _ Hperm).
  - repeat constructor; unfold Examples.record; cbn [PID]; lia.
  - intros k. unfold Examples.processes, Examples.record. cbn [filter PID].
    destruct (Z.eqb_spec 50 k), (Z.eqb_spec 75 k), (Z.eqb_spec 100 k);
      try reflexivity; lia.
Defined.

Lemma getDiskInfo_path_versus_listing_witness :
  "/" <> "" /\
  Examples.disk_UsageWithContext "/nowhere"
    = inr (Errorf "no such file or directory") /\
  getDiskInfo Examples.disk_UsageWithContext Examples.disk_PartitionsWithContext
    "/nowhere"
  = inr (Errorf "failed to get disk usage for /nowhere: no such file or directory").
Proof.
  split; [discriminate|]. split; [reflexivity|].
  destruct (getDiskInfo_path_versus_listing
              Examples.disk_UsageWithContext Examples.disk_PartitionsWithContext
              "/nowhere" ltac:(discriminate))
    as [_ [Hfail _]].
  exact (Hfail (Errorf "no such file or directory") eq_refl).
Defined.

Lemma tools_call_get_disk_info_witness :
  ExampleHost.json_Unmarshal_MCPRequest "disk /nowhere"
    = inl (ExampleHost.diskCall "/nowhere") /\
  Host.disk_UsageWithContext ExampleHost.w "/nowhere"
    = inr (Errorf "no such file or directory") /\
  http.Out
    (snd (ServeHTTP Examples.base64_DecodeString
            Examples.json_Unmarshal_ServerConfig
            ExampleHost.json_Unmarshal_MCPRequest (handleToolCall ExampleHost.w)
            NewHTTPServer
            (ExampleHost.request "POST" "" (inl "disk /nowhere"))))
  = http.EncodeJSON
      {| MCPResponse.JsonRPC := "2.0";
         MCPResponse.ID := Str "a1";
         MCPResponse.Result := Nil;
         MCPResponse.Error :=
           errorObject
             "failed to get disk usage for /nowhere: no such file or directory" |}.
Proof.
  split; [reflexivity|]. split; [reflexivity|].
  destruct (tools_call_get_disk_info ExampleHost.w
              Examples.base64_DecodeString Examples.json_Unmarshal_ServerConfig
              ExampleHost.json_Unmarshal_MCPRequest NewHTTPServer
              (ExampleHost.request "POST" "" (inl "disk /nowhere"))
              "disk /nowhere" "/nowhere" (ExampleHost.diskCall "/nowhere")
              eq_refl eq_refl eq_refl eq_refl eq_refl ltac:(discriminate))
    as [Hfail _].
  exact (Hfail (Errorf "no such file or directory") eq_refl).
Defined.

(** * The two transports side by side *)

Section Transports.

Variable w : Host.t.

Lemma overHTTP_toolReturn {T : Type} (sprintf : T -> string) (zero : T)
    (collected : result T) (status : string) :
  toolReturn sprintf zero collected
  = overHTTP sprintf zero
      match collected with
      | inr err => (textErr err, None, Some err)
      | inl out => (textOK status, Some out, None)
      end.
Proof. destruct collected; reflexivity. Qed.

(** X25. The two transports offer the same tools and run the same
    collector calls. The discovery catalogue of the HTTP adapter lists the
    seven tools registered on the standard-stream transport, with the same
    descriptions, in the same order. A tool called over HTTP with
    well-typed arguments returns the rendering of what the registered tool
    returns on the same arguments (numbers converted to integers), with the
    same error. And a call without arguments agrees too, although the
    omitted interval and limit are 0 on one transport and 1000 and 10 on the
    other. *)
Theorem transports_agree (h : HTTPServer) :
  toolDescriptions toolsListResult = registerTools /\
  (forall perCPU interval,
     handleToolCall w h
       (toolCall "get_cpu_info"
          [("per_cpu", Bool perCPU); ("interval_ms", Float64 interval)])
     = overHTTP (Host.Sprintf_CPUInfo w) zeroCPUInfo
         (tool_get_cpu_info w
            {| CPUInfoArgs.PerCPU := perCPU;
               CPUInfoArgs.IntervalMs :=
                 int_of_float64 (Host.int_unrepresentable w) interval |})) /\
  (forall path,
     handleToolCall w h (toolCall "get_disk_info" [("path", Str path)])
     = overHTTP (Host.Sprintf_DiskInfoResult w) zeroDiskInfoResult
         (tool_get_disk_info w {| DiskInfoArgs.Path := path |})) /\
  (forall iface,
     handleToolCall w h (toolCall "get_network_info" [("interface", Str iface)])
     = overHTTP (Host.Sprintf_NetworkInfoResult w) zeroNetworkInfoResult
         (tool_get_network_info w {| NetworkInfoArgs.Interface := iface |})) /\
  (forall pid name limit sortBy,
     handleToolCall w h
       (toolCall "get_process_info"
          [("pid", Float64 pid); ("name", Str name); ("limit", Float64 limit);
           ("sort_by", Str sortBy)])
     = overHTTP (Host.Sprintf_ProcessInfoResult w) zeroProcessInfoResult
         (tool_get_process_info w
            {| ProcessInfoArgs.PID :=
                 int32_of_float64 (Host.int32_unrepresentable w) pid;
               ProcessInfoArgs.Name := name;
               ProcessInfoArgs.Limit :=
                 int_of_float64 (Host.int_unrepresentable w) limit;
               ProcessInfoArgs.SortBy := sortBy |})) /\
  (handleToolCall w h (toolCall "get_system_info" [])
   = overHTTP (Host.Sprintf_SystemInfo w) zeroSystemInfo (tool_get_system_info w) /\
   handleToolCall w h (toolCall "get_cpu_info" [])
   = overHTTP (Host.Sprintf_CPUInfo w) zeroCPUInfo
       (tool_get_cpu_info w
          {| CPUInfoArgs.PerCPU := false; CPUInfoArgs.IntervalMs := 0 |}) /\
   handleToolCall w h (toolCall "get_memory_info" [])
   = overHTTP (Host.Sprintf_MemoryInfo w) zeroMemoryInfo (tool_get_memory_info w) /\
   handleToolCall w h (toolCall "get_disk_info" [])
   = overHTTP (Host.Sprintf_DiskInfoResult w) zeroDiskInfoResult
       (tool_get_disk_info w {| DiskInfoArgs.Path := "" |}) /\
   handleToolCall w h (toolCall "get_network_info" [])
   = overHTTP (Host.Sprintf_NetworkInfoResult w) zeroNetworkInfoResult
       (tool_get_network_info w {| NetworkInfoArgs.Interface := "" |}) /\
   handleToolCall w h (toolCall "get_process_info" [])
   = overHTTP (Host.Sprintf_ProcessInfoResult w) zeroProcessInfoResult
       (tool_get_process_info w
          {| ProcessInfoArgs.PID := 0; ProcessInfoArgs.Name := "";
             ProcessInfoArgs.Limit := 0; ProcessInfoArgs.SortBy := "" |}) /\
   handleToolCall w h (toolCall "get_load_average" [])
   = overHTTP (Host.Sprintf_LoadAvgResult w) zeroLoadAvgResult
       (tool_get_load_average w)).
Proof.
  split; [reflexivity|].
  split; [intros perCPU interval; apply overHTTP_toolReturn|].
  split; [intros path; apply overHTTP_toolReturn|].
  split; [intros iface; apply overHTTP_toolReturn|].
  split; [intros pid name limit sortBy; apply overHTTP_toolReturn|].
  repeat split; apply overHTTP_toolReturn.
Qed.

End Transports.
